(** * dataware_chatbot: response normalisation, reveal sequencing,
      tabular presentation and the conversation store

    A shallow embedding of [src/dwh_chatbot/src/components/Page.jsx] and
    [src/dwh_chatbot/src/components/DataTable.jsx].

    Conventions of the embedding.
    - A JavaScript value that came out of [JSON.parse] is a [JSON] term.
      Numbers are modelled by [Z] (the integers a payload carries; the
      sign of [a - b] is then the sign of the exact difference).
    - An object is the list of its own properties in enumeration order
      (the order of [Object.keys]); a property read is the first match.
    - A property read that finds nothing is [undefined]; it is written
      [None], so a read has type [option JSON].
    - Strings are the strings of the Standard Library, read as sequences
      of ASCII code units.
    - A thrown exception is the [Throw] case of [Completion]. *)

From Stdlib Require Import List String Ascii ZArith Bool Lia Arith.
From Stdlib Require Import Sorting.Permutation Sorting.Sorted.
From Stdlib Require Import DecimalString.
Import ListNotations.

Local Open Scope string_scope.
Local Open Scope Z_scope.

(* ===================================================================== *)
(** * JavaScript values *)
(* ===================================================================== *)

Module Js.

#[warnings="-register-all"]
Inductive JSON : Type :=
| JNull
| JBool (b : bool)
| JNum (n : Z)
| JStr (s : string)
| JArr (items : list JSON)
| JObj (fields : list (string * JSON)).

(** An object as the list of its own enumerable properties. *)
Definition Obj : Type := list (string * JSON).

(** Exceptions the modelled code can meet. *)
Inductive JsError : Type :=
| NetworkError                (* fetch rejects *)
| HttpError (status : Z)      (* new Error(`Backend returned ${status}`) *)
| SyntaxError                 (* response.json() rejects *)
| TypeError.                  (* property read on null / call of a non-function *)

Inductive Completion (A : Type) : Type :=
| Normal (a : A)
| Throw (e : JsError).
Arguments Normal {A} a.
Arguments Throw {A} e.

Definition bind {A B : Type} (c : Completion A) (k : A -> Completion B)
  : Completion B :=
  match c with
  | Normal a => k a
  | Throw e => Throw e
  end.

Notation "'let*' x ':=' c 'in' k" := (bind c (fun x => k))
  (at level 10, x name, c at level 100, k at level 200).

(** [try { c } catch { h }] where the handler does not throw. *)
Definition try_catch {A : Type} (c : Completion A) (h : JsError -> A) : A :=
  match c with
  | Normal a => a
  | Throw e => h e
  end.

(** [o[k]] on an object. *)
Fixpoint assoc (k : string) (o : Obj) : option JSON :=
  match o with
  | [] => None
  | (k', v) :: rest => if String.eqb k' k then Some v else assoc k rest
  end.

(** [v.k] for one of the property names the client reads
    ([success], [message], ...): a read on [null] throws, a read on an
    object looks the property up, and a read on any other value finds
    nothing (none of these names is inherited by arrays, strings, numbers
    or booleans). *)
Definition get (v : JSON) (k : string) : Completion (option JSON) :=
  match v with
  | JNull => Throw TypeError
  | JObj o => Normal (assoc k o)
  | _ => Normal None
  end.

(** ToBoolean. *)
Definition truthy (v : JSON) : bool :=
  match v with
  | JNull => false
  | JBool b => b
  | JNum n => negb (n =? 0)
  | JStr s => negb (String.eqb s "")
  | JArr _ => true
  | JObj _ => true
  end.

Definition truthy_opt (v : option JSON) : bool :=
  match v with
  | None => false
  | Some x => truthy x
  end.

(** [v || d] when [d] is a value. *)
Definition or_default (v : option JSON) (d : JSON) : JSON :=
  match v with
  | Some x => if truthy x then x else d
  | None => d
  end.

(** [v == null]: true of [null] and [undefined] only. *)
Definition nullish (v : option JSON) : bool :=
  match v with
  | None => true
  | Some JNull => true
  | Some _ => false
  end.

(** [v === 'lit']. *)
Definition strict_eq_str (v : JSON) (lit : string) : bool :=
  match v with
  | JStr s => String.eqb s lit
  | _ => false
  end.

(** ** Strings *)

Definition string_of_Z (n : Z) : string :=
  NilZero.string_of_int (Z.to_int n).

Fixpoint join (sep : string) (l : list string) : string :=
  match l with
  | [] => ""
  | [x] => x
  | x :: rest => x ++ sep ++ join sep rest
  end.

(** [String(v)].  An array is its elements joined by commas, with
    [null] elements printed as the empty string. *)
Fixpoint toString (v : JSON) : string :=
  match v with
  | JNull => "null"
  | JBool true => "true"
  | JBool false => "false"
  | JNum n => string_of_Z n
  | JStr s => s
  | JArr items =>
      join ","
        (map (fun x => match x with JNull => "" | _ => toString x end) items)
  | JObj _ => "[object Object]"
  end.

(** [String(undefined)] is ["undefined"]. *)
Definition toString_opt (v : option JSON) : string :=
  match v with
  | None => "undefined"
  | Some x => toString x
  end.

Definition lower_ascii (c : ascii) : ascii :=
  let n := nat_of_ascii c in
  if (Nat.leb 65 n && Nat.leb n 90)%bool then ascii_of_nat (n + 32) else c.

Fixpoint toLowerCase (s : string) : string :=
  match s with
  | EmptyString => EmptyString
  | String c r => String (lower_ascii c) (toLowerCase r)
  end.

(** [s.includes(t)]. *)
Fixpoint includes (s t : string) : bool :=
  if String.prefix t s then true
  else match s with
       | EmptyString => false
       | String _ r => includes r t
       end.

(** [s < t] on strings: lexicographic on code units. *)
Fixpoint str_ltb (s t : string) : bool :=
  match s, t with
  | _, EmptyString => false
  | EmptyString, String _ _ => true
  | String a s', String b t' =>
      if Nat.ltb (nat_of_ascii a) (nat_of_ascii b) then true
      else if Nat.ltb (nat_of_ascii b) (nat_of_ascii a) then false
      else str_ltb s' t'
  end.

(** [s.split(' ')]. *)
Fixpoint split_space (s : string) : list string :=
  match s with
  | EmptyString => [""]
  | String c r =>
      if Ascii.eqb c " " then "" :: split_space r
      else match split_space r with
           | w :: ws => String c w :: ws
           | [] => [String c ""]
           end
  end.

Definition is_space (c : ascii) : bool :=
  let n := nat_of_ascii c in
  (Nat.eqb n 32 || (Nat.leb 9 n && Nat.leb n 13))%bool.

Fixpoint trim_start (s : string) : string :=
  match s with
  | EmptyString => EmptyString
  | String c r => if is_space c then trim_start r else s
  end.

Fixpoint trim_end (s : string) : string :=
  match s with
  | EmptyString => EmptyString
  | String c r =>
      match trim_end r with
      | EmptyString => if is_space c then EmptyString else String c EmptyString
      | r' => String c r'
      end
  end.

(** [s.trim()]. *)
Definition trim (s : string) : string := trim_end (trim_start s).

(** [s.slice(0, n)]. *)
Definition slice0 (n : nat) (s : string) : string := String.substring 0 n s.

End Js.
Import Js.


(* ===================================================================== *)
(** * Page.jsx: messages and the conversation store *)
(* ===================================================================== *)

Module Page.

(** The assistant message object built by [handleSendMessage].  Each
    field holds what the object literal stores: [message] and the
    diagnostic fields are whatever [payload.f || default] evaluates to,
    so they are JSON values; [resolvable] is a boolean literal. *)
Record AiMessage : Type := mkAi {
  message : JSON;
  timestamp : string;
  resolvable : bool;
  result_type : JSON;
  query : JSON;
  chart_data : JSON;
  result : JSON;
  workflow_steps : JSON;
  execution_time : JSON
}.

(** [{ role: "user", content, timestamp }] or an assistant message. *)
Inductive Message : Type :=
| User (content : string) (ts : string)
| Assistant (m : AiMessage).

Definition is_assistant (m : Message) : bool :=
  match m with
  | Assistant _ => true
  | User _ _ => false
  end.

Record Chat : Type := mkChat {
  id : string;
  title : string;
  messages : list Message
}.

(** ** The three canned texts and the connectivity text *)

Definition fallback_result : string := "Here is the result of your query:".
Definition fallback_unresolved : string :=
  "I couldn't resolve that query with the available data.".
Definition fallback_failed : string :=
  "Sorry, I encountered an error while processing your request.".
Definition connectivity_failure : string :=
  "Sorry, I couldn't connect to the backend service. Please make sure the query generation service is running on port 5001.".

(** ** Building the assistant message (lines 356-401)

    Every [payload.f] is a property read, so the whole construction
    throws a [TypeError] when [payload] is [null]. *)
Definition build_aiMessage (now : string) (payload : JSON)
  : Completion AiMessage :=
  let* success := get payload "success" in
  let* p_resolvable := get payload "resolvable" in
  let* p_message := get payload "message" in
  let* p_result_type := get payload "result_type" in
  let* p_query := get payload "query" in
  let* p_chart_data := get payload "chart_data" in
  let* p_result := get payload "result" in
  let* p_workflow_steps := get payload "workflow_steps" in
  let* p_execution_time := get payload "execution_time" in
  if (truthy_opt success && truthy_opt p_resolvable)%bool then
    Normal {| message := or_default p_message (JStr fallback_result);
              timestamp := now;
              resolvable := true;
              result_type := or_default p_result_type (JStr "unknown");
              query := or_default p_query (JStr "");
              chart_data := or_default p_chart_data JNull;
              result := or_default p_result JNull;
              workflow_steps := or_default p_workflow_steps (JArr []);
              execution_time := or_default p_execution_time (JNum 0) |}
  else if (truthy_opt success && negb (truthy_opt p_resolvable))%bool then
    Normal {| message := or_default p_message (JStr fallback_unresolved);
              timestamp := now;
              resolvable := false;
              result_type := JNull;
              query := or_default p_query (JStr "");
              chart_data := JNull;
              result := JNull;
              workflow_steps := or_default p_workflow_steps (JArr []);
              execution_time := or_default p_execution_time (JNum 0) |}
  else
    Normal {| message := or_default p_message (JStr fallback_failed);
              timestamp := now;
              resolvable := false;
              result_type := JNull;
              query := JStr "";
              chart_data := JNull;
              result := JNull;
              workflow_steps := JArr [];
              execution_time := or_default p_execution_time (JNum 0) |}.

(** The message of the [catch] block (lines 414-425). *)
Definition errorMessage (now : string) : AiMessage :=
  {| message := JStr connectivity_failure;
     timestamp := now;
     resolvable := false;
     result_type := JNull;
     query := JStr "";
     chart_data := JNull;
     result := JNull;
     workflow_steps := JArr [];
     execution_time := JNum 0 |}.

(** ** The request

    What [await fetch(...)] and [await response.json()] can do: the
    fetch rejects, or it resolves to a response with a status whose body
    either parses to a JSON value or does not. *)
Inductive FetchOutcome : Type :=
| FetchRejects
| FetchResolves (status : Z) (body : option JSON).

(** [response.ok] *)
Definition ok (status : Z) : bool := (200 <=? status) && (status <=? 299).

(** The [try] block up to the value it appends (lines 335-403). *)
Definition try_block (now : string) (o : FetchOutcome) : Completion AiMessage :=
  match o with
  | FetchRejects => Throw NetworkError
  | FetchResolves status body =>
      if negb (ok status) then Throw (HttpError status)
      else match body with
           | None => Throw SyntaxError
           | Some payload => build_aiMessage now payload
           end
  end.

(** The one message the [try]/[catch] pair hands to [setChatHistory]. *)
Definition reply (now : string) (o : FetchOutcome) : AiMessage :=
  try_catch (try_block now o) (fun _ => errorMessage now).

(** ** [setChatHistory] updaters *)

(** [prev.map(chat => chat.id === currentChatId
      ? { ...chat, messages: [...chat.messages, m] } : chat)] *)
Definition append_to (currentChatId : string) (m : Message)
  (prev : list Chat) : list Chat :=
  map (fun chat =>
         if String.eqb (id chat) currentChatId
         then {| id := id chat; title := title chat;
                 messages := messages chat ++ [m] |}
         else chat) prev.

(** [messageContent.slice(0, 30) + (messageContent.length > 30 ? "..." : "")] *)
Definition truncated_title (messageContent : string) : string :=
  (slice0 30 messageContent ++
   (if Nat.ltb 30 (String.length messageContent) then "..." else ""))%string.

Definition retitle (currentChatId : string) (messageContent : string)
  (prev : list Chat) : list Chat :=
  map (fun chat =>
         if String.eqb (id chat) currentChatId
         then {| id := id chat; title := truncated_title messageContent;
                 messages := messages chat |}
         else chat) prev.

(** [chatHistory.find(chat => chat.id === currentChatId)] *)
Definition find_chat (currentChatId : string) (chatHistory : list Chat)
  : option Chat :=
  List.find (fun chat => String.eqb (id chat) currentChatId) chatHistory.

(** [chatHistory.find(...)?.messages.length === 0] *)
Definition first_message (currentChatId : string) (chatHistory : list Chat)
  : bool :=
  match find_chat currentChatId chatHistory with
  | Some chat => Nat.eqb (List.length (messages chat)) 0
  | None => false
  end.

(** ** Component state *)

Record State : Type := mkState {
  chatHistory : list Chat;
  currentChatId : string;
  isLoading : bool;
  input : string
}.

(** The part of [handleSendMessage] that runs before the [await]
    (lines 296-333).  [chatHistory] in the title test is the value the
    handler closed over, that is, the history before the user message
    was queued. *)
Definition send_before (now : string) (messageContent : string) (st : State)
  : State :=
  let cur := currentChatId st in
  let h1 := append_to cur (User messageContent now) (chatHistory st) in
  let h2 := if first_message cur (chatHistory st)
            then retitle cur messageContent h1 else h1 in
  {| chatHistory := h2; currentChatId := cur;
     isLoading := true; input := input st |}.

(** What the user can do while the request is outstanding: open a new
    chat ([handleNewChat], the id being [Date.now().toString()]) or
    select a chat in the sidebar.  A further submission is refused by
    [handleSubmit] because [isLoading] is set. *)
Inductive UiEvent : Type :=
| NewChat (newChatId : string)
| SelectChat (chatId : string).

Definition ui_step (st : State) (e : UiEvent) : State :=
  match e with
  | NewChat newChatId =>
      {| chatHistory :=
           {| id := newChatId; title := "New Chat"; messages := [] |}
             :: chatHistory st;
         currentChatId := newChatId;
         isLoading := isLoading st; input := input st |}
  | SelectChat chatId =>
      {| chatHistory := chatHistory st; currentChatId := chatId;
         isLoading := isLoading st; input := input st |}
  end.

(** The part after the [await] (lines 405-436): [origin] is the
    [currentChatId] the handler closed over when it was called. *)
Definition send_after (now : string) (origin : string) (o : FetchOutcome)
  (st : State) : State :=
  {| chatHistory :=
       append_to origin (Assistant (reply now o)) (chatHistory st);
     currentChatId := currentChatId st;
     isLoading := false; input := input st |}.

(** [handleSendMessage], with the events that arrive during the await. *)
Definition handleSendMessage (t0 t1 : string) (messageContent : string)
  (o : FetchOutcome) (during : list UiEvent) (st : State) : State :=
  if String.eqb (currentChatId st) "" then st
  else
    let origin := currentChatId st in
    send_after t1 origin o
      (fold_left ui_step during (send_before t0 messageContent st)).

(** [handleSubmit] (lines 288-294). *)
Definition handleSubmit (t0 t1 : string) (o : FetchOutcome)
  (during : list UiEvent) (st : State) : State :=
  if (String.eqb (trim (input st)) "" || isLoading st)%bool then st
  else
    let st' := handleSendMessage t0 t1 (trim (input st)) o during st in
    {| chatHistory := chatHistory st'; currentChatId := currentChatId st';
       isLoading := isLoading st'; input := "" |}.

End Page.

(* ===================================================================== *)
(** * Page.jsx: the reveal sequence of an assistant message *)
(* ===================================================================== *)

Module Reveal.
Import Page.

(** State of one [AssistantMessage] with its [TypingText] child. *)
Record RevealState : Type := mkReveal {
  displayedText : string;
  currentWordIndex : nat;
  showCursor : bool;
  isComplete : bool;
  messageDone : bool;
  showChart : bool;
  showTable : bool
}.

(** The [useState] initial values. *)
Definition initial : RevealState :=
  {| displayedText := ""; currentWordIndex := 0%nat; showCursor := true;
     isComplete := false; messageDone := false;
     showChart := false; showTable := false |}.

(** The [text] prop: [message.message || 'Here is the result of your
    query:'].  [TypingText] calls [text.split(' ')], which only a string
    has. *)
Definition words_of (m : AiMessage) : Completion (list string) :=
  match or_default (Some (message m)) (JStr fallback_result) with
  | JStr text => Normal (split_space text)
  | _ => Throw TypeError
  end.

(** One run of the typing effect (lines 15-36) carried to its state
    change: while words remain the timer fires and reveals one word;
    once none remains the effect completes and calls [onComplete], which
    in [AssistantMessage] sets [messageDone], [showChart], [showTable].
    A render in between only re-arms the timer, so it is not an event
    of its own. *)
Definition tick (words : list string) (st : RevealState) : RevealState :=
  if Nat.ltb (currentWordIndex st) (List.length words) then
    let w := nth (currentWordIndex st) words "" in
    {| displayedText :=
         (if String.eqb (displayedText st) "" then w
          else displayedText st ++ " " ++ w)%string;
       currentWordIndex := S (currentWordIndex st);
       showCursor := showCursor st;
       isComplete := isComplete st;
       messageDone := messageDone st;
       showChart := showChart st;
       showTable := showTable st |}
  else if negb (isComplete st) then
    {| displayedText := displayedText st;
       currentWordIndex := currentWordIndex st;
       showCursor := false;
       isComplete := true;
       messageDone := true;
       showChart := true;
       showTable := true |}
  else st.

(** The caret interval (lines 38-44). *)
Definition blink (st : RevealState) : RevealState :=
  {| displayedText := displayedText st;
     currentWordIndex := currentWordIndex st;
     showCursor := negb (showCursor st);
     isComplete := isComplete st;
     messageDone := messageDone st;
     showChart := showChart st;
     showTable := showTable st |}.

Inductive TimerEvent : Type := Tick | Blink.

Definition step (words : list string) (st : RevealState) (e : TimerEvent)
  : RevealState :=
  match e with
  | Tick => tick words st
  | Blink => blink st
  end.

Definition run (words : list string) (es : list TimerEvent)
  (st : RevealState) : RevealState :=
  fold_left (step words) es st.

Definition ticks (es : list TimerEvent) : nat :=
  List.length (filter (fun e => match e with Tick => true | Blink => false end) es).

(** [canShowChart], [canShowTable] (lines 191-192) as rendered: the
    block appears when the [&&] chain is truthy. *)
Definition canShowChart (m : AiMessage) (st : RevealState) : bool :=
  messageDone st && strict_eq_str (result_type m) "chart"
  && truthy (chart_data m).

Definition canShowTable (m : AiMessage) (st : RevealState) : bool :=
  messageDone st && strict_eq_str (result_type m) "table"
  && truthy (result m).

(** [QueryDetails] returns [null] when [!message.resolvable ||
    !message.query] (line 63). *)
Definition QueryDetails_renders (m : AiMessage) : bool :=
  negb (negb (resolvable m) || negb (truthy (query m))).

(** [{messageDone && <QueryDetails message={message} />}] (line 227). *)
Definition detailsVisible (m : AiMessage) (st : RevealState) : bool :=
  messageDone st && QueryDetails_renders m.

(** The caret is rendered while [!isComplete]. *)
Definition caretRendered (st : RevealState) : bool := negb (isComplete st).

End Reveal.

(* ===================================================================== *)
(** * DataTable.jsx *)
(* ===================================================================== *)

Module DataTable.

(** A row of the result set: an object.  [tableData] is the array the
    component was given (or the empty array when it was given something
    else), so it is a list of rows. *)
Definition Row : Type := Obj.

Inductive Direction : Type := asc | desc.

Definition Direction_eqb (a b : Direction) : bool :=
  match a, b with
  | asc, asc => true
  | desc, desc => true
  | _, _ => false
  end.

(** [sortConfig]: [key] is [null] ([None]) or a column name. *)
Record SortConfig : Type := mkSort {
  key : option string;
  direction : Direction
}.

Definition initialSort : SortConfig := {| key := None; direction := asc |}.

(** [columns = Object.keys(tableData[0])] (line 28).  The component
    returns its empty-state before this line when there is no row. *)
Definition columns (tableData : list Row) : list string :=
  match tableData with
  | [] => []
  | first :: _ => map fst first
  end.

(** The comparator handed to [sort] (lines 34-55). *)
Definition compareRows (k : string) (d : Direction) (a b : Row) : Z :=
  let aValue := assoc k a in
  let bValue := assoc k b in
  if (nullish aValue && nullish bValue)%bool then 0
  else if nullish aValue then (if Direction_eqb d asc then 1 else -1)
  else if nullish bValue then (if Direction_eqb d asc then -1 else 1)
  else
    match aValue, bValue with
    | Some (JNum x), Some (JNum y) =>
        if Direction_eqb d asc then x - y else y - x
    | _, _ =>
        let aStr := toLowerCase (toString_opt aValue) in
        let bStr := toLowerCase (toString_opt bValue) in
        if str_ltb aStr bStr then (if Direction_eqb d asc then -1 else 1)
        else if str_ltb bStr aStr then (if Direction_eqb d asc then 1 else -1)
        else 0
    end.

(** [Array.prototype.sort] with a comparator.  The language requires the
    sort to be stable; it is modelled by the stable insertion sort: an
    element goes in front of the first one it does not compare greater
    than.  For a comparator that is a consistent order the language
    fixes the result and this is it; for one that is not (a column that
    mixes numbers and strings can make [compareRows] cyclic) the order
    is left to the implementation, and a statement about the order of
    the result carries the side condition that the comparator is
    transitive on the rows. *)
Fixpoint insert {A : Type} (cmp : A -> A -> Z) (x : A) (l : list A) : list A :=
  match l with
  | [] => [x]
  | y :: rest => if cmp x y <=? 0 then x :: l else y :: insert cmp x rest
  end.

Definition sort {A : Type} (cmp : A -> A -> Z) (l : list A) : list A :=
  fold_right (insert cmp) [] l.

(** [sortedData] (lines 31-56).  [!sortConfig.key] holds of [null] and
    of the empty string. *)
Definition sortedData (tableData : list Row) (cfg : SortConfig) : list Row :=
  match key cfg with
  | None => tableData
  | Some k =>
      if String.eqb k "" then tableData
      else sort (compareRows k (direction cfg)) tableData
  end.

(** The predicate of the filter (lines 63-65): [Object.values(row).some]. *)
Definition row_matches (searchTerm : string) (row : Row) : bool :=
  existsb
    (fun value =>
       includes (toLowerCase (toString value)) (toLowerCase searchTerm))
    (map snd row).

(** [filteredData] (lines 59-67). *)
Definition filteredData (sorted : list Row) (searchTerm : string) : list Row :=
  if String.eqb searchTerm "" then sorted
  else filter (row_matches searchTerm) sorted.

(** [handleSort] (lines 74-79). *)
Definition handleSort (column : string) (prevConfig : SortConfig) : SortConfig :=
  {| key := Some column;
     direction :=
       if (match key prevConfig with
           | Some k => String.eqb k column
           | None => false
           end && Direction_eqb (direction prevConfig) asc)%bool
       then desc else asc |}.

(** [formatValue] (lines 101-110).  [toLocaleString] depends on the
    locale of the browser and is a parameter. *)
Definition formatValue (toLocaleString : Z -> string) (value : option JSON)
  : string :=
  if nullish value then "-"
  else match value with
       | Some (JNum n) => toLocaleString n
       | Some (JBool b) => if b then "Yes" else "No"
       | _ => toString_opt value
       end.

(** The cells of one body row (lines 230-236): one per column. *)
Definition render_row (toLocaleString : Z -> string) (cols : list string)
  (row : Row) : list string :=
  map (fun column => formatValue toLocaleString (assoc column row)) cols.

(** The table body for the rows shown. *)
Definition render_body (toLocaleString : Z -> string)
  (tableData shown : list Row) : list (list string) :=
  map (render_row toLocaleString (columns tableData)) shown.

End DataTable.


(* ===================================================================== *)
(** * Auxiliary notions used by the statements *)
(* ===================================================================== *)

Module Aux.
Import Page Reveal DataTable.

(** The chats opened while a request is outstanding, newest first. *)
Fixpoint opened (during : list UiEvent) : list Chat :=
  match during with
  | [] => []
  | NewChat newChatId :: rest =>
      opened rest ++ [{| id := newChatId; title := "New Chat"; messages := [] |}]
  | SelectChat _ :: rest => opened rest
  end.

(** No chat opened during the await reuses the id [cur]. *)
Definition fresh_ids (cur : string) (during : list UiEvent) : bool :=
  forallb (fun e => match e with
                    | NewChat i => negb (String.eqb i cur)
                    | SelectChat _ => true
                    end) during.

(** What one whole submission does to one chat of the history. *)
Definition submitted (cur content t0 : string) (a : AiMessage)
  (first : bool) (chat : Chat) : Chat :=
  if String.eqb (id chat) cur
  then {| id := id chat;
          title := if first then truncated_title content else title chat;
          messages := messages chat ++ [User content t0; Assistant a] |}
  else chat.

(** A request that ends in a network-level failure: the fetch throws,
    the status is not 2xx, or the body is not JSON. *)
Definition network_failure (o : FetchOutcome) : bool :=
  match o with
  | FetchRejects => true
  | FetchResolves status body =>
      negb (ok status) || match body with None => true | Some _ => false end
  end.

(** The value of a row in a column is [null] or absent. *)
Definition missing (k : string) (row : Row) : bool := nullish (assoc k row).

(** The value of a row in a column is a number. *)
Definition numeric (k : string) (row : Row) : bool :=
  match assoc k row with
  | Some (JNum _) => true
  | _ => false
  end.

Definition num_at (k : string) (row : Row) : Z :=
  match assoc k row with
  | Some (JNum n) => n
  | _ => 0
  end.

(** The union of the keys of all rows, as a membership predicate. *)
Definition in_union_of_keys (k : string) (tableData : list Row) : Prop :=
  exists row, In row tableData /\ In k (map fst row).

(** [Typing]: the completion callback has not run and [i] words are shown. *)
Definition typing_at (i : nat) (st : RevealState) : Prop :=
  currentWordIndex st = i /\ isComplete st = false /\ messageDone st = false.

(** [Revealed]: the completion callback has run. *)
Definition revealed (words : list string) (st : RevealState) : Prop :=
  isComplete st = true /\ messageDone st = true /\
  showChart st = true /\ showTable st = true /\
  currentWordIndex st = List.length words.

(** ** Concrete inputs *)

(** The payload [{success: true, resolvable: true, message: "Done"}]. *)
Definition payload_without_shape : JSON :=
  JObj [("success", JBool true); ("resolvable", JBool true);
        ("message", JStr "Done")].

(** A store with the default chat, the user having typed a question. *)
Definition st_typed : State :=
  {| chatHistory := [{| id := "1"; title := "DataWare Assistant"; messages := [] |}];
     currentChatId := "1"; isLoading := false; input := " total sales? " |}.

(** A chart message as the normaliser builds it. *)
Definition chart_message : AiMessage :=
  {| message := JStr "Sales by region"; timestamp := "t";
     resolvable := true; result_type := JStr "chart";
     query := JStr "SELECT 1";
     chart_data := JObj [("data", JArr [])]; result := JNull;
     workflow_steps := JArr []; execution_time := JNum 0 |}.

(** The other direction. *)
Definition toggled (d : Direction) : Direction :=
  match d with
  | asc => desc
  | desc => asc
  end.

(** The sort configuration after a column header was selected. *)
Definition sort_by (k : string) (d : Direction) : SortConfig :=
  {| key := Some k; direction := d |}.

(** Rows [[{a:1,b:"x"}, {a:null,b:"y"}]]. *)
Definition rows_with_null : list Row :=
  [[("a", JNum 1); ("b", JStr "x")]; [("a", JNull); ("b", JStr "y")]].

(** Rows [[{a:1}, {a:2,b:3}]]: the second has a key the first lacks. *)
Definition rows_ragged : list Row :=
  [[("a", JNum 1)]; [("a", JNum 2); ("b", JNum 3)]].

(** Rows [[{name:"Ann"}, {name:"Bob",note:"Refund"}]]. *)
Definition rows_hidden : list Row :=
  [[("name", JStr "Ann")]; [("name", JStr "Bob"); ("note", JStr "Refund")]].

(** Rows [[{a:1}, {}]]. *)
Definition rows_with_empty : list Row := [[("a", JNum 1)]; []].

(** Rows [[{n:3}, {n:1}, {n:2}]]. *)
Definition rows_numeric : list Row :=
  [[("n", JNum 3)]; [("n", JNum 1)]; [("n", JNum 2)]].

End Aux.

(* ===================================================================== *)
(** * DataTable.jsx: pagination, selection and column titles *)
(* ===================================================================== *)

Module Paging.
Import DataTable.

(** [l.slice(start, stop)]: a negative index counts from the end and
    both ends are clamped to the array. *)
Definition slice {A : Type} (start stop : Z) (l : list A) : list A :=
  let len := Z.of_nat (List.length l) in
  let from := if start <? 0 then Z.max (len + start) 0 else Z.min start len in
  let to := if stop <? 0 then Z.max (len + stop) 0 else Z.min stop len in
  firstn (Z.to_nat (Z.max (to - from) 0)) (skipn (Z.to_nat from) l).

(** [Math.ceil(n / size)] for a count [n] and one of the positive page
    sizes the selector offers. *)
Definition ceil_div (n size : Z) : Z := (n + size - 1) / size.

(** A JavaScript [Set] of numbers: its elements in insertion order. *)
Definition NumSet : Type := list Z.

Definition set_has (s : NumSet) (x : Z) : bool := existsb (Z.eqb x) s.

Definition set_add (x : Z) (s : NumSet) : NumSet :=
  if set_has s x then s else (s ++ [x])%list.

Definition set_delete (x : Z) (s : NumSet) : NumSet :=
  filter (fun y => negb (y =? x)) s.

(** [new Set(iterable)] *)
Definition set_of (l : list Z) : NumSet :=
  fold_left (fun s x => set_add x s) l [].

(** The [useState] cells of the component (lines 5-9). *)
Record TableState : Type := mkTable {
  sortConfig : SortConfig;
  searchTerm : string;
  currentPage : Z;
  itemsPerPage : Z;
  selectedRows : NumSet
}.

Definition initialTable : TableState :=
  {| sortConfig := initialSort; searchTerm := ""; currentPage := 1;
     itemsPerPage := 10; selectedRows := [] |}.

(** The rows after sort and filter (lines 31-67). *)
Definition filtered (tableData : list Row) (st : TableState) : list Row :=
  filteredData (sortedData tableData (sortConfig st)) (searchTerm st).

(** Lines 70-72. *)
Definition totalPages (tableData : list Row) (st : TableState) : Z :=
  ceil_div (Z.of_nat (List.length (filtered tableData st))) (itemsPerPage st).

Definition startIndex (st : TableState) : Z :=
  (currentPage st - 1) * itemsPerPage st.

Definition paginatedData (tableData : list Row) (st : TableState) : list Row :=
  slice (startIndex st) (startIndex st + itemsPerPage st) (filtered tableData st).

(** The "Showing a to b of n results" line (line 249). *)
Definition showingFrom (st : TableState) : Z := startIndex st + 1.

Definition showingTo (tableData : list Row) (st : TableState) : Z :=
  Z.min (startIndex st + itemsPerPage st)
        (Z.of_nat (List.length (filtered tableData st))).

(** [paginatedData.map((_, index) => startIndex + index)] *)
Definition page_indices (tableData : list Row) (st : TableState) : list Z :=
  map (fun index => startIndex st + Z.of_nat index)
      (seq 0 (List.length (paginatedData tableData st))).

(** [handleSelectAll] (lines 81-87). *)
Definition handleSelectAll (tableData : list Row) (checked : bool)
  (st : TableState) : TableState :=
  {| sortConfig := sortConfig st; searchTerm := searchTerm st;
     currentPage := currentPage st; itemsPerPage := itemsPerPage st;
     selectedRows := if checked then set_of (page_indices tableData st) else [] |}.

(** [handleSelectRow] (lines 89-99). *)
Definition handleSelectRow (index : Z) (checked : bool) (st : TableState)
  : TableState :=
  let actualIndex := startIndex st + index in
  {| sortConfig := sortConfig st; searchTerm := searchTerm st;
     currentPage := currentPage st; itemsPerPage := itemsPerPage st;
     selectedRows := if checked then set_add actualIndex (selectedRows st)
                     else set_delete actualIndex (selectedRows st) |}.

(** [isSelected] of the row at [index] of the page (line 213). *)
Definition isSelected (st : TableState) (index : Z) : bool :=
  set_has (selectedRows st) (startIndex st + index).

(** The header check box (line 187). *)
Definition headerChecked (tableData : list Row) (st : TableState) : bool :=
  (0 <? Z.of_nat (List.length (paginatedData tableData st))) &&
  (Z.of_nat (List.length (selectedRows st)) =?
   Z.of_nat (List.length (paginatedData tableData st))).

(** The search box (lines 153-156). *)
Definition onSearchChange (value : string) (st : TableState) : TableState :=
  {| sortConfig := sortConfig st; searchTerm := value; currentPage := 1;
     itemsPerPage := itemsPerPage st; selectedRows := selectedRows st |}.

(** The page size selector (lines 164-167). *)
Definition onPageSizeChange (size : Z) (st : TableState) : TableState :=
  {| sortConfig := sortConfig st; searchTerm := searchTerm st; currentPage := 1;
     itemsPerPage := size; selectedRows := selectedRows st |}.

(** A column header (line 196). *)
Definition onHeaderClick (column : string) (st : TableState) : TableState :=
  {| sortConfig := handleSort column (sortConfig st);
     searchTerm := searchTerm st; currentPage := currentPage st;
     itemsPerPage := itemsPerPage st; selectedRows := selectedRows st |}.

Definition setCurrentPage (p : Z) (st : TableState) : TableState :=
  {| sortConfig := sortConfig st; searchTerm := searchTerm st; currentPage := p;
     itemsPerPage := itemsPerPage st; selectedRows := selectedRows st |}.

(** The number on the [i]-th page button (lines 261-271). *)
Definition pageNum (total current i : Z) : Z :=
  if total <=? 5 then i + 1
  else if current <=? 3 then i + 1
  else if total - 2 <=? current then total - 4 + i
  else current - 2 + i.

(** [Array.from({ length: Math.min(5, totalPages) }, (_, i) => ...)] *)
Definition pageButtons (total current : Z) : list Z :=
  map (fun i => pageNum total current (Z.of_nat i))
      (seq 0 (Z.to_nat (Z.min 5 total))).

(** What the user can do with a table.  The pagination bar exists only
    when [totalPages > 1] (line 245); "Previous" is disabled on page 1
    and "Next" on the last page; a row check box exists for each row of
    the page. *)
Inductive TableEvent : Type :=
| Search (value : string)
| PageSize (size : Z)
| Header (column : string)
| Previous
| Next
| PageButton (i : nat)
| HeaderBox (checked : bool)
| RowBox (index : nat) (checked : bool).

Definition table_step (tableData : list Row) (st : TableState) (e : TableEvent)
  : TableState :=
  let total := totalPages tableData st in
  match e with
  | Search value => onSearchChange value st
  | PageSize size => onPageSizeChange size st
  | Header column => onHeaderClick column st
  | Previous =>
      if (1 <? total) && negb (currentPage st =? 1)
      then setCurrentPage (Z.max 1 (currentPage st - 1)) st else st
  | Next =>
      if (1 <? total) && negb (currentPage st =? total)
      then setCurrentPage (Z.min total (currentPage st + 1)) st else st
  | PageButton i =>
      if (1 <? total) && (Z.of_nat i <? Z.min 5 total)
      then setCurrentPage (pageNum total (currentPage st) (Z.of_nat i)) st
      else st
  | HeaderBox checked => handleSelectAll tableData checked st
  | RowBox index checked =>
      if Nat.ltb index (List.length (paginatedData tableData st))
      then handleSelectRow (Z.of_nat index) checked st else st
  end.

(** The selector offers 10, 25, 50 and 100 (lines 170-173). *)
Definition offered_size (e : TableEvent) : bool :=
  match e with
  | PageSize size => (size =? 10) || (size =? 25) || (size =? 50) || (size =? 100)
  | _ => true
  end.

(** ** Column titles (lines 112-116) *)

(** [\w] *)
Definition is_word (c : ascii) : bool :=
  let n := nat_of_ascii c in
  ((Nat.leb 48 n && Nat.leb n 57) || (Nat.leb 65 n && Nat.leb n 90) ||
   (Nat.leb 97 n && Nat.leb n 122) || Nat.eqb n 95)%bool.

(** [l.toUpperCase()] of one character matched by [\w]. *)
Definition upper_ascii (c : ascii) : ascii :=
  let n := nat_of_ascii c in
  if (Nat.leb 97 n && Nat.leb n 122)%bool then ascii_of_nat (n - 32) else c.

(** [.replace(/_/g, ' ')] *)
Fixpoint underscores_to_spaces (s : string) : string :=
  match s with
  | EmptyString => EmptyString
  | String c r =>
      String (if Ascii.eqb c "_" then " "%char else c) (underscores_to_spaces r)
  end.

(** [.replace(/\b\w/g, l => l.toUpperCase())]: a word character is
    matched when the character before it is not one ([after_word] says
    whether it is). *)
Fixpoint capitalize_words (after_word : bool) (s : string) : string :=
  match s with
  | EmptyString => EmptyString
  | String c r =>
      String (if (is_word c && negb after_word)%bool then upper_ascii c else c)
             (capitalize_words (is_word c) r)
  end.

Definition formatColumnName (column : string) : string :=
  capitalize_words false (underscores_to_spaces column).

(** Settles a statement about one character by trying all of them. *)
Ltac by_cases_on c := destruct c as [[] [] [] [] [] [] [] []]; reflexivity.

End Paging.

(* ===================================================================== *)
(** * Chart.jsx *)
(* ===================================================================== *)

Module PlotlyChart.

(** What the component renders. *)
Inductive ChartView : Type :=
| NoChartData
| Plot (data : JSON) (layout config : option JSON).

(** [Chart] of [Chart.jsx] (lines 4-31): the props [plotlyJson] is the
    [chart_data] of the message. *)
Definition Chart (plotlyJson : JSON) : Completion ChartView :=
  if negb (truthy plotlyJson) then Normal NoChartData
  else
    let* data := get plotlyJson "data" in
    if negb (truthy_opt data) then Normal NoChartData
    else
      let* layout := get plotlyJson "layout" in
      let* config := get plotlyJson "config" in
      Normal (Plot (or_default data JNull) layout config).

End PlotlyChart.

(** The [Chart] that also draws Chart.js charts (the component text that
    follows [Login] in [Login.jsx], lines 222-325). *)
Module ChartJsChart.

Inductive ChartKind : Type := Line | Bar | Pie | Doughnut | Scatter.

Inductive ChartView : Type :=
| NoChartData
| ChartJs (kind : ChartKind) (data options : JSON)
| Plotly (data layout : JSON)
| UnknownFormat.

(** The [switch] on [data.type.toLowerCase()] (lines 246-259). *)
Definition kind_of (lowered : string) : ChartKind :=
  if String.eqb lowered "line" then Line
  else if String.eqb lowered "bar" then Bar
  else if String.eqb lowered "pie" then Pie
  else if String.eqb lowered "doughnut" then Doughnut
  else if String.eqb lowered "scatter" then Scatter
  else Bar.

(** [v.toLowerCase()]: only a string has the method. *)
Definition call_toLowerCase (v : JSON) : Completion string :=
  match v with
  | JStr s => Normal (toLowerCase s)
  | _ => Throw TypeError
  end.

Definition Chart (plotlyJson chartData : option JSON) : Completion ChartView :=
  let data := if truthy_opt plotlyJson then plotlyJson else chartData in
  match data with
  | None => Normal NoChartData
  | Some d =>
      if negb (truthy d) then Normal NoChartData
      else
        let* type := get d "type" in
        let* inner := get d "data" in
        let* options := get d "options" in
        let* layout := get d "layout" in
        if truthy_opt type && truthy_opt inner && truthy_opt options then
          let* lowered := call_toLowerCase (or_default type JNull) in
          Normal (ChartJs (kind_of lowered) (or_default inner JNull)
                    (or_default options JNull))
        else if truthy_opt inner && truthy_opt layout then
          Normal (Plotly (or_default inner JNull) (or_default layout JNull))
        else Normal UnknownFormat
  end.

End ChartJsChart.

(* ===================================================================== *)
(** * The earlier contract (src/unnamed/part_001) *)
(* ===================================================================== *)

Module Legacy.

(** The diagnostic fields a text or chart answer carries. *)
Record Diagnostics : Type := mkDiagnostics {
  sql_query : JSON;
  query_metadata : JSON;
  execution_time : JSON;
  sql_execution_time : JSON;
  retry_attempted : JSON;
  original_sql : JSON;
  corrected_sql : JSON
}.

(** The assistant message of that version.  A property the object
    literal does not have is [None]. *)
Record Message : Type := mkMessage {
  content : JSON;
  timestamp : string;
  resolvable : option bool;
  insights : option JSON;
  result_type : option string;
  text_value : option JSON;
  has_chart : option bool;
  chart_json : option JSON;
  diagnostics : option Diagnostics
}.

(** [v ?? d] *)
Definition coalesce (v : option JSON) (d : JSON) : JSON :=
  match v with
  | Some x => if nullish v then d else x
  | None => d
  end.

Definition strict_eq_str_opt (v : option JSON) (lit : string) : bool :=
  match v with
  | Some x => strict_eq_str x lit
  | None => false
  end.

Definition diagnostics_of (payload : JSON) : Completion Diagnostics :=
  let* p_sql_query := get payload "sql_query" in
  let* p_query_metadata := get payload "query_metadata" in
  let* p_execution_time := get payload "execution_time" in
  let* p_sql_execution_time := get payload "sql_execution_time" in
  let* p_retry_attempted := get payload "retry_attempted" in
  let* p_original_sql := get payload "original_sql" in
  let* p_corrected_sql := get payload "corrected_sql" in
  Normal {| sql_query := or_default p_sql_query (JStr "");
            query_metadata := or_default p_query_metadata (JObj []);
            execution_time := or_default p_execution_time (JNum 0);
            sql_execution_time := or_default p_sql_execution_time (JNum 0);
            retry_attempted := or_default p_retry_attempted (JBool false);
            original_sql := or_default p_original_sql (JStr "");
            corrected_sql := or_default p_corrected_sql (JStr "") |}.

(** Lines 323-383. *)
Definition build_aiMessage (now : string) (payload : JSON) : Completion Message :=
  let* p_resolvable := get payload "resolvable" in
  let* p_message := get payload "message" in
  let* p_insights := get payload "insights" in
  let* p_result := get payload "result" in
  if negb (truthy_opt p_resolvable) then
    Normal {| content := or_default p_message
                (JStr "I couldn't resolve that with the available data.");
              timestamp := now; resolvable := Some false;
              insights := Some (or_default p_insights (JArr []));
              result_type := None; text_value := None; has_chart := None;
              chart_json := None; diagnostics := None |}
  else
    let res := or_default p_result (JObj []) in
    let* res_type := get res "type" in
    let* res_value := get res "value" in
    let* res_plotly_json := get res "plotly_json" in
    if strict_eq_str_opt res_type "text" then
      let* d := diagnostics_of payload in
      Normal {| content := or_default p_message (JStr "Here is the result:");
                timestamp := now; resolvable := Some true;
                insights := Some (or_default p_insights (JArr []));
                result_type := Some "text";
                text_value := Some (coalesce res_value (JStr ""));
                has_chart := None; chart_json := None;
                diagnostics := Some d |}
    else if strict_eq_str_opt res_type "chart" then
      let* d := diagnostics_of payload in
      Normal {| content := or_default p_message (JStr "Here is the visualization:");
                timestamp := now; resolvable := Some true;
                insights := Some (or_default p_insights (JArr []));
                result_type := Some "chart"; text_value := None;
                has_chart := Some true; chart_json := res_plotly_json;
                diagnostics := Some d |}
    else
      Normal {| content := or_default p_message (JStr "I have processed your request.");
                timestamp := now; resolvable := Some true;
                insights := Some (or_default p_insights (JArr []));
                result_type := None; text_value := None; has_chart := None;
                chart_json := None; diagnostics := None |}.

(** The message of the [catch] block (lines 393-397). *)
Definition errorMessage (now : string) : Message :=
  {| content := JStr "Sorry, I encountered an error while processing your request. Please try again.";
     timestamp := now; resolvable := None; insights := None;
     result_type := None; text_value := None; has_chart := None;
     chart_json := None; diagnostics := None |}.

Definition newline : string := String (ascii_of_nat 10) EmptyString.

(** The [text] prop of [TypingText] (lines 197-199). *)
Definition typed_text (m : Message) : JSON :=
  if (match result_type m with Some t => String.eqb t "text" | None => false end
      && negb (strict_eq_str (coalesce (text_value m) (JStr "")) ""))%bool
  then JStr (toString (content m) ++ newline ++ newline ++ "Result: "
             ++ toString_opt (text_value m))%string
  else content m.

(** [canShowChart] (line 190). *)
Definition canShowChart (m : Message) (messageDone : bool) : bool :=
  messageDone
  && match result_type m with Some t => String.eqb t "chart" | None => false end
  && truthy_opt (chart_json m).

End Legacy.

(* ===================================================================== *)
(** * Sessions: the page driven by its user *)
(* ===================================================================== *)

Module Session.
Import Page.

(** The page after its mount effect has seeded the default chat
    (lines 242-249). *)
Definition mounted : State :=
  {| chatHistory :=
       [{| id := "1"; title := "DataWare Assistant"; messages := [] |}];
     currentChatId := "1"; isLoading := false; input := "" |}.

(** What the user does at rest: type in the box, submit (with the
    sidebar events that arrive during the await) or use the sidebar. *)
Inductive PageEvent : Type :=
| TypeInput (value : string)
| PressSend (t0 t1 : string) (o : FetchOutcome) (during : list UiEvent)
| Sidebar (e : UiEvent).

Definition page_step (st : State) (ev : PageEvent) : State :=
  match ev with
  | TypeInput value =>
      {| chatHistory := chatHistory st; currentChatId := currentChatId st;
         isLoading := isLoading st; input := value |}
  | PressSend t0 t1 o during => handleSubmit t0 t1 o during st
  | Sidebar e => ui_step st e
  end.

Definition has_chat (i : string) (h : list Chat) : bool :=
  existsb (fun c => String.eqb (id c) i) h.

(** A sidebar event the page can deliver: the new id is the non-empty
    [Date.now().toString()], and only a listed chat can be selected. *)
Definition deliverable (st : State) (e : UiEvent) : bool :=
  match e with
  | NewChat i => negb (String.eqb i "")
  | SelectChat i => has_chat i (chatHistory st)
  end.

Fixpoint deliverable_all (st : State) (es : list UiEvent) : bool :=
  match es with
  | [] => true
  | e :: rest => deliverable st e && deliverable_all (ui_step st e) rest
  end.

Definition deliverable_event (st : State) (ev : PageEvent) : bool :=
  match ev with
  | TypeInput _ => true
  | PressSend t0 t1 o during =>
      deliverable_all (send_before t0 (trim (input st)) st) during
  | Sidebar e => deliverable st e
  end.

Fixpoint deliverable_run (st : State) (evs : list PageEvent) : bool :=
  match evs with
  | [] => true
  | ev :: rest => deliverable_event st ev && deliverable_run (page_step st ev) rest
  end.

(** [c'] is [c] with messages added at the end. *)
Definition extends (c c' : Chat) : Prop :=
  id c' = id c /\ exists more, messages c' = (messages c ++ more)%list.

(** The chat on display is listed, and every listed chat has an id. *)
Definition well_formed (st : State) : Prop :=
  has_chat (currentChatId st) (chatHistory st) = true /\
  forallb (fun c => negb (String.eqb (id c) "")) (chatHistory st) = true /\
  isLoading st = false.

(** [well_formed] without the loading flag. *)
Definition listed (st : State) : Prop :=
  has_chat (currentChatId st) (chatHistory st) = true /\
  forallb (fun c => negb (String.eqb (id c) "")) (chatHistory st) = true.

(** The text does not start with white space. *)
Definition starts_clean (t : string) : Prop :=
  match t with
  | EmptyString => True
  | String c _ => is_space c = false
  end.

(** The text consists of white space only. *)
Fixpoint all_space (s : string) : bool :=
  match s with
  | EmptyString => true
  | String c r => (is_space c && all_space r)%bool
  end.

(** The text without its leading spaces. *)
Fixpoint drop_spaces (s : string) : string :=
  match s with
  | EmptyString => EmptyString
  | String c r => if Ascii.eqb c " " then drop_spaces r else s
  end.

(** The words without the empty ones in front. *)
Fixpoint drop_empty (ws : list string) : list string :=
  match ws with
  | [] => []
  | w :: rest => if String.eqb w "" then drop_empty rest else ws
  end.

End Session.

(* ===================================================================== *)
(** * Concrete tables *)
(* ===================================================================== *)

Module Inputs.
Import DataTable Paging.

(** Twenty-five rows [{n: 1}], ..., [{n: 25}]. *)
Definition rows_many : list Row :=
  map (fun i => [("n", JNum (Z.of_nat i))]) (seq 1 25).

(** The initial table state moved to page [p]. *)
Definition on_page (p : Z) : TableState := setCurrentPage p initialTable.

End Inputs.

(* ===================================================================== *)
(** * Notions for the statements on sorting *)
(* ===================================================================== *)

Module SortNotions.
Import DataTable.

(** The value of a row in a column is neither missing nor a number, so
    the comparator orders it by its lower-cased string form. *)
Definition textual (k : string) (row : Row) : bool :=
  match assoc k row with
  | None => false
  | Some JNull => false
  | Some (JNum _) => false
  | Some _ => true
  end.

(** [String(row[k]).toLowerCase()] *)
Definition text_at (k : string) (row : Row) : string :=
  toLowerCase (toString_opt (assoc k row)).

(** [s <= t] in the order of [<] on strings. *)
Definition str_le (s t : string) : Prop := str_ltb t s = false.

(** Rows [[{name:"bob"}, {name:"Ann"}, {name:"carl"}, {name:"BOB"}]]. *)
Definition rows_names : list Row :=
  [[("name", JStr "bob"); ("i", JNum 1)]; [("name", JStr "Ann"); ("i", JNum 2)];
   [("name", JStr "carl"); ("i", JNum 3)]; [("name", JStr "BOB"); ("i", JNum 4)]].

(** The ascending comparator is transitive on the rows of the table:
    with its antisymmetry this makes it a consistent order, the case in
    which the language fixes the result of a stable sort. *)
Definition transitive_onb (k : string) (rows : list Row) : bool :=
  forallb (fun a =>
    forallb (fun b =>
      forallb (fun c =>
        implb ((compareRows k asc a b <=? 0) && (compareRows k asc b c <=? 0))
              (compareRows k asc a c <=? 0)) rows) rows) rows.

(** Rows [[{k:9}, {k:null}, {k:"5"}, {k:10}, {k:9}]]: numbers and a
    string in one column. *)
Definition rows_mixed : list Row :=
  [[("k", JNum 9)]; [("k", JNull)]; [("k", JStr "5")]; [("k", JNum 10)];
   [("k", JNum 9)]].

(** The row is one of somebody called Bob, in any case of letters. *)
Definition is_bob (r : Row) : bool :=
  (textual "name" r && String.eqb (text_at "name" r) "bob")%bool.

End SortNotions.

Import Page Reveal DataTable Aux.
Local Open Scope list_scope.

(* ===================================================================== *)
(** * Checks of the string primitives *)
(* ===================================================================== *)

Example toString_examples :
  toString (JNum 42) = "42" /\ toString (JNum (-7)) = "-7" /\
  toString (JNum 0) = "0" /\
  toString (JArr [JNum 1; JNull; JStr "x"]) = "1,,x" /\
  toLowerCase "AbZ x" = "abz x" /\
  split_space "" = [""] /\ split_space "a  b" = ["a"; ""; "b"] /\
  trim "  hi there  " = "hi there" /\ trim "   " = "" /\
  includes "hello" "ell" = true /\ includes "hello" "" = true /\
  includes "" "" = true /\ includes "hello" "lo!" = false /\
  str_ltb "abc" "abd" = true /\ str_ltb "ab" "abc" = true /\
  str_ltb "b" "abc" = false /\ slice0 3 "abcdef" = "abc".
Proof. repeat split; reflexivity. Qed.

(* ===================================================================== *)
(** * Response normalisation *)
(* ===================================================================== *)

Section Normaliser.

Variable now : string.

Lemma get_obj (o : Obj) (k : string) : get (JObj o) k = Normal (assoc k o).
Proof. reflexivity. Qed.

(** On an object the construction is one of the three literals. *)
Lemma build_aiMessage_obj (o : Obj) :
  build_aiMessage now (JObj o) =
  Normal
    (if (truthy_opt (assoc "success" o) && truthy_opt (assoc "resolvable" o))%bool
     then {| message := or_default (assoc "message" o) (JStr fallback_result);
             timestamp := now; resolvable := true;
             result_type := or_default (assoc "result_type" o) (JStr "unknown");
             query := or_default (assoc "query" o) (JStr "");
             chart_data := or_default (assoc "chart_data" o) JNull;
             result := or_default (assoc "result" o) JNull;
             workflow_steps := or_default (assoc "workflow_steps" o) (JArr []);
             execution_time := or_default (assoc "execution_time" o) (JNum 0) |}
     else if truthy_opt (assoc "success" o)
     then {| message := or_default (assoc "message" o) (JStr fallback_unresolved);
             timestamp := now; resolvable := false;
             result_type := JNull;
             query := or_default (assoc "query" o) (JStr "");
             chart_data := JNull; result := JNull;
             workflow_steps := or_default (assoc "workflow_steps" o) (JArr []);
             execution_time := or_default (assoc "execution_time" o) (JNum 0) |}
     else {| message := or_default (assoc "message" o) (JStr fallback_failed);
             timestamp := now; resolvable := false;
             result_type := JNull; query := JStr "";
             chart_data := JNull; result := JNull;
             workflow_steps := JArr [];
             execution_time := or_default (assoc "execution_time" o) (JNum 0) |}).
Proof.
  unfold build_aiMessage. rewrite !get_obj. cbn [bind].
  destruct (truthy_opt (assoc "success" o)), (truthy_opt (assoc "resolvable" o));
    reflexivity.
Qed.

Lemma or_default_missing (d : JSON) : or_default None d = d.
Proof. reflexivity. Qed.

Lemma or_default_truthy (v : option JSON) (d : JSON) :
  truthy d = true -> truthy (or_default v d) = true.
Proof.
  intros Hd. destruct v as [x|]; cbn; [|exact Hd].
  destruct (truthy x) eqn:E; [exact E | exact Hd].
Qed.

(** C1. For every raw backend JSON object, down to the empty object,
    building the assistant message returns normally with exactly one
    message: the text is a truthy value and, when the payload has no
    (truthy) [message], one of the canned texts; a missing timing is
    [0]; a missing [workflow_steps] array is the empty array.  The same
    message is what the [try]/[catch] pair hands over for every 2xx
    response carrying that object. *)
Theorem C1_normalisation_total_on_objects (o : Obj) :
  exists m : AiMessage,
    build_aiMessage now (JObj o) = Normal m /\
    (forall status, ok status = true ->
       reply now (FetchResolves status (Some (JObj o))) = m) /\
    truthy (message m) = true /\
    (truthy_opt (assoc "message" o) = false ->
       In (message m)
          [JStr fallback_result; JStr fallback_unresolved; JStr fallback_failed]) /\
    (truthy_opt (assoc "execution_time" o) = false -> execution_time m = JNum 0) /\
    (truthy_opt (assoc "workflow_steps" o) = false -> workflow_steps m = JArr []) /\
    (o = [] ->
       m = {| message := JStr fallback_failed; timestamp := now;
              resolvable := false; result_type := JNull; query := JStr "";
              chart_data := JNull; result := JNull;
              workflow_steps := JArr []; execution_time := JNum 0 |}).
Proof.
  eexists. split; [apply build_aiMessage_obj|].
  split.
  { intros status Hok. unfold reply, try_block. rewrite Hok. cbn [negb].
    rewrite build_aiMessage_obj. reflexivity. }
  set (s := truthy_opt (assoc "success" o)).
  set (r := truthy_opt (assoc "resolvable" o)).
  split; [|split; [|split; [|split]]].
  - destruct s, r; cbn; apply or_default_truthy; reflexivity.
  - intros Hm. unfold truthy_opt in Hm.
    assert (Hd : forall d, or_default (assoc "message" o) d = d).
    { intros d. unfold or_default. destruct (assoc "message" o); [rewrite Hm|]; reflexivity. }
    destruct s, r; cbn; rewrite Hd; auto.
  - intros He. unfold truthy_opt in He.
    assert (Hd : or_default (assoc "execution_time" o) (JNum 0) = JNum 0).
    { unfold or_default. destruct (assoc "execution_time" o); [rewrite He|]; reflexivity. }
    destruct s, r; cbn; exact Hd.
  - intros Hw. unfold truthy_opt in Hw.
    assert (Hd : or_default (assoc "workflow_steps" o) (JArr []) = JArr []).
    { unfold or_default. destruct (assoc "workflow_steps" o); [rewrite Hw|]; reflexivity. }
    destruct s, r; cbn; auto.
  - intros ->. reflexivity.
Qed.

(** C3 (as amended). With [success] and [resolvable] both truthy the
    message's [result_type] is the payload's own top-level [result_type]
    when that is truthy and ["unknown"] otherwise; nothing else of the
    payload is looked at, so it is ["summary"] exactly when the payload
    says so. *)
Theorem C3_result_type_is_copied_or_unknown (o : Obj) :
  truthy_opt (assoc "success" o) = true ->
  truthy_opt (assoc "resolvable" o) = true ->
  exists m : AiMessage,
    build_aiMessage now (JObj o) = Normal m /\
    resolvable m = true /\
    result_type m = or_default (assoc "result_type" o) (JStr "unknown") /\
    (truthy_opt (assoc "result_type" o) = false -> result_type m = JStr "unknown") /\
    (result_type m = JStr "summary" <-> assoc "result_type" o = Some (JStr "summary")).
Proof.
  intros Hs Hr. eexists. split; [apply build_aiMessage_obj|].
  rewrite Hs, Hr. cbn. split; [reflexivity|]. split; [reflexivity|].
  unfold or_default, truthy_opt.
  destruct (assoc "result_type" o) as [v|].
  - split.
    + intros ->. reflexivity.
    + destruct (truthy v) eqn:Ev.
      * split; intros H; [rewrite H | injection H as ->]; reflexivity.
      * split; intros H; [discriminate H|].
        injection H as ->. discriminate Ev.
  - split; [reflexivity|]. split; intros H; discriminate H.
Qed.

(** C4. When the request ends in a network-level failure (the fetch
    throws, the status is not 2xx, or the body is not JSON) the message
    appended is the fixed one of the [catch] block: not resolvable, no
    result type, and the connectivity text, which names port 5001. *)
Theorem C4_network_failure_message (o : FetchOutcome)
  (origin : string) (st : State) :
  network_failure o = true ->
  reply now o = errorMessage now /\
  chatHistory (send_after now origin o st) =
    append_to origin (Assistant (errorMessage now)) (chatHistory st) /\
  resolvable (reply now o) = false /\
  result_type (reply now o) = JNull /\
  message (reply now o) = JStr connectivity_failure /\
  includes connectivity_failure "on port 5001" = true.
Proof.
  intros Hf.
  assert (Hr : reply now o = errorMessage now).
  { unfold reply, try_block. destruct o as [|status body]; [reflexivity|].
    cbn in Hf. destruct (ok status); cbn in *; [|reflexivity].
    destruct body; [discriminate Hf | reflexivity]. }
  split; [exact Hr|]. split; [cbn; rewrite Hr; reflexivity|].
  rewrite Hr. repeat split; reflexivity.
Qed.

End Normaliser.


Lemma C1_witness :
  execution_time (reply "t" (FetchResolves 200 (Some (JObj [])))) = JNum 0 /\
  message (reply "t" (FetchResolves 200 (Some (JObj [])))) = JStr fallback_failed.
Proof.
  destruct (C1_normalisation_total_on_objects "t" [])
    as (m & _ & Hr & _ & _ & He & _ & Hempty).
  rewrite (Hr 200 eq_refl). split.
  - apply He. reflexivity.
  - rewrite (Hempty eq_refl). reflexivity.
Defined.

(** C3 as stated fails: a resolvable, successful payload that carries a
    message and no result descriptor at all is classified ["unknown"]. *)
Lemma C3_counterexample :
  build_aiMessage "t" payload_without_shape =
    Normal {| message := JStr "Done"; timestamp := "t"; resolvable := true;
              result_type := JStr "unknown"; query := JStr "";
              chart_data := JNull; result := JNull;
              workflow_steps := JArr []; execution_time := JNum 0 |} /\
  JStr "unknown" <> JStr "summary".
Proof. split; [reflexivity | discriminate]. Qed.

Lemma C3_witness :
  exists m, build_aiMessage "t" payload_without_shape = Normal m /\
            result_type m = JStr "unknown".
Proof.
  destruct (C3_result_type_is_copied_or_unknown "t"
              [("success", JBool true); ("resolvable", JBool true);
               ("message", JStr "Done")] eq_refl eq_refl)
    as (m & Hb & _ & _ & Hu & _).
  exists m. split; [exact Hb | apply Hu; reflexivity].
Defined.

(** The specification's scenario of a failure reported by the backend. *)
Example backend_failure_is_reported :
  build_aiMessage "t"
    (JObj [("success", JBool false); ("message", JStr "DB unreachable")]) =
  Normal {| message := JStr "DB unreachable"; timestamp := "t";
            resolvable := false; result_type := JNull; query := JStr "";
            chart_data := JNull; result := JNull;
            workflow_steps := JArr []; execution_time := JNum 0 |}.
Proof. reflexivity. Qed.

(** The specification's scenario of a text result. *)
Example text_result_is_carried :
  build_aiMessage "t"
    (JObj [("success", JBool true); ("resolvable", JBool true);
           ("result_type", JStr "text");
           ("result", JObj [("type", JStr "text"); ("value", JStr "42")]);
           ("message", JStr "Here you go")]) =
  Normal {| message := JStr "Here you go"; timestamp := "t";
            resolvable := true; result_type := JStr "text"; query := JStr "";
            chart_data := JNull;
            result := JObj [("type", JStr "text"); ("value", JStr "42")];
            workflow_steps := JArr []; execution_time := JNum 0 |}.
Proof. reflexivity. Qed.

(** A body that parses to [null] makes the first property read throw;
    the [catch] block answers. *)
Example null_payload_is_caught :
  build_aiMessage "t" JNull = Throw TypeError /\
  reply "t" (FetchResolves 200 (Some JNull)) = errorMessage "t".
Proof. split; reflexivity. Qed.

Lemma C4_witness :
  message (reply "t" (FetchResolves 500 (Some (JObj [])))) = JStr connectivity_failure.
Proof.
  apply (C4_network_failure_message "t" (FetchResolves 500 (Some (JObj []))) "1"
           {| chatHistory := []; currentChatId := "1"; isLoading := true; input := "" |}).
  reflexivity.
Defined.

(* ===================================================================== *)
(** * The conversation store *)
(* ===================================================================== *)

Section Store.

Lemma find_chat_app (cur : string) (l1 l2 : list Chat) :
  find_chat cur (l1 ++ l2) =
  match find_chat cur l1 with
  | Some c => Some c
  | None => find_chat cur l2
  end.
Proof.
  unfold find_chat. induction l1 as [|c l1 IH]; cbn; [reflexivity|].
  destruct (String.eqb (id c) cur); [reflexivity | exact IH].
Qed.

Lemma find_chat_map (cur : string) (g : Chat -> Chat) (l : list Chat) :
  (forall c, id (g c) = id c) ->
  find_chat cur (map g l) = option_map g (find_chat cur l).
Proof.
  intros Hid. unfold find_chat. induction l as [|c l IH]; cbn; [reflexivity|].
  rewrite Hid. destruct (String.eqb (id c) cur); [reflexivity | exact IH].
Qed.

Lemma find_chat_id (cur : string) (l : list Chat) (c : Chat) :
  find_chat cur l = Some c -> id c = cur /\ In c l.
Proof.
  unfold find_chat. intros H. apply find_some in H. destruct H as [Hin He].
  apply String.eqb_eq in He. split; assumption.
Qed.

Lemma submitted_id cur content t0 a first (c : Chat) :
  id (submitted cur content t0 a first c) = id c.
Proof. unfold submitted. destruct (String.eqb (id c) cur); reflexivity. Qed.

Lemma append_to_app cur m (l1 l2 : list Chat) :
  append_to cur m (l1 ++ l2) = append_to cur m l1 ++ append_to cur m l2.
Proof. apply map_app. Qed.

(** The events of the await only put new chats in front. *)
Lemma during_await (during : list UiEvent) (st : State) :
  chatHistory (fold_left ui_step during st) = opened during ++ chatHistory st /\
  isLoading (fold_left ui_step during st) = isLoading st /\
  input (fold_left ui_step during st) = input st.
Proof.
  revert st. induction during as [|e rest IH]; intros st; cbn [fold_left opened].
  - repeat split.
  - destruct (IH (ui_step st e)) as (Hh & Hl & Hi).
    rewrite Hh, Hl, Hi. destruct e; cbn; repeat split.
    rewrite <- app_assoc. reflexivity.
Qed.

Lemma opened_fresh (cur : string) (m : Message) (during : list UiEvent) :
  fresh_ids cur during = true ->
  find_chat cur (append_to cur m (opened during)) = None.
Proof.
  unfold fresh_ids.
  induction during as [|e rest IH]; cbn [forallb opened]; [reflexivity|].
  intros H. apply andb_true_iff in H. destruct H as [He Hrest].
  destruct e as [i|i]; [|exact (IH Hrest)].
  rewrite append_to_app, find_chat_app, (IH Hrest).
  apply negb_true_iff in He. unfold find_chat. cbn. rewrite He. cbn.
  rewrite He. reflexivity.
Qed.

(** The history after one whole run of [handleSendMessage]. *)
Lemma handleSendMessage_history (t0 t1 content : string) (o : FetchOutcome)
  (during : list UiEvent) (st : State) :
  currentChatId st <> "" ->
  chatHistory (handleSendMessage t0 t1 content o during st) =
    append_to (currentChatId st) (Assistant (reply t1 o)) (opened during) ++
    map (submitted (currentChatId st) content t0 (reply t1 o)
           (first_message (currentChatId st) (chatHistory st)))
        (chatHistory st).
Proof.
  intros Hcur. unfold handleSendMessage.
  apply String.eqb_neq in Hcur. rewrite Hcur.
  cbn [send_after chatHistory].
  destruct (during_await during (send_before t0 content st)) as (Hh & _ & _).
  rewrite Hh, append_to_app. f_equal.
  unfold send_before. cbn [chatHistory].
  set (cur := currentChatId st).
  destruct (first_message cur (chatHistory st));
    unfold append_to, retitle; rewrite !map_map; apply map_ext; intros c;
    unfold submitted; destruct (String.eqb (id c) cur) eqn:E;
    cbn; rewrite ?E; cbn; rewrite ?E, <- ?app_assoc; reflexivity.
Qed.

Lemma handleSendMessage_flags (t0 t1 content : string) (o : FetchOutcome)
  (during : list UiEvent) (st : State) :
  currentChatId st <> "" ->
  isLoading (handleSendMessage t0 t1 content o during st) = false.
Proof.
  intros Hcur. unfold handleSendMessage.
  apply String.eqb_neq in Hcur. rewrite Hcur. reflexivity.
Qed.

(** The originating thread after a submission, found by its id. *)
Lemma handleSendMessage_thread (t0 t1 content : string) (o : FetchOutcome)
  (during : list UiEvent) (st : State) (c : Chat) :
  currentChatId st <> "" ->
  find_chat (currentChatId st) (chatHistory st) = Some c ->
  fresh_ids (currentChatId st) during = true ->
  find_chat (currentChatId st)
    (chatHistory (handleSendMessage t0 t1 content o during st)) =
  Some {| id := id c;
          title := if Nat.eqb (List.length (messages c)) 0
                   then truncated_title content else title c;
          messages := messages c ++ [User content t0; Assistant (reply t1 o)] |}.
Proof.
  intros Hcur Hfind Hfresh.
  rewrite handleSendMessage_history by exact Hcur.
  rewrite find_chat_app, opened_fresh by exact Hfresh.
  rewrite find_chat_map by (intros; apply submitted_id).
  unfold first_message. rewrite Hfind. cbn [option_map].
  destruct (find_chat_id _ _ _ Hfind) as [Hid _].
  unfold submitted. apply String.eqb_eq in Hid. rewrite Hid. reflexivity.
Qed.

Lemma slice0_short (n : nat) (s : string) :
  (String.length s <= n)%nat -> slice0 n s = s.
Proof.
  unfold slice0. revert n. induction s as [|a s IH]; intros n Hn.
  - destruct n; reflexivity.
  - destruct n as [|n]; cbn in Hn; [lia|].
    cbn. rewrite IH by lia. reflexivity.
Qed.

Lemma slice0_length (n : nat) (s : string) :
  String.length (slice0 n s) = Nat.min n (String.length s).
Proof.
  unfold slice0. revert n. induction s as [|a s IH]; intros n.
  - destruct n; reflexivity.
  - destruct n as [|n]; [reflexivity|]. cbn. rewrite IH. reflexivity.
Qed.

Lemma handleSubmit_accepted (t0 t1 : string) (o : FetchOutcome)
  (during : list UiEvent) (st : State) :
  trim (input st) <> "" -> isLoading st = false ->
  chatHistory (handleSubmit t0 t1 o during st) =
    chatHistory (handleSendMessage t0 t1 (trim (input st)) o during st) /\
  isLoading (handleSubmit t0 t1 o during st) =
    isLoading (handleSendMessage t0 t1 (trim (input st)) o during st) /\
  input (handleSubmit t0 t1 o during st) = "".
Proof.
  intros Hin Hload. unfold handleSubmit.
  apply String.eqb_neq in Hin. rewrite Hin, Hload.
  repeat split.
Qed.

(** A submission is refused while a request is outstanding or when the
    input is blank. *)
Lemma handleSubmit_refused (t0 t1 : string) (o : FetchOutcome)
  (during : list UiEvent) (st : State) :
  trim (input st) = "" \/ isLoading st = true ->
  handleSubmit t0 t1 o during st = st.
Proof.
  intros [H|H]; unfold handleSubmit; rewrite H; [reflexivity|].
  rewrite orb_true_r. reflexivity.
Qed.

(** C5. An accepted submission (non-empty trimmed input, no request
    outstanding) appends to every chat of the originating id the user
    message followed by exactly one assistant message, the [reply],
    whatever the outcome of the request and whatever the user does
    while it is outstanding; other chats are untouched and loading ends. *)
Theorem C5_exactly_one_assistant_reply (t0 t1 : string) (o : FetchOutcome)
  (during : list UiEvent) (st : State) :
  trim (input st) <> "" ->
  isLoading st = false ->
  currentChatId st <> "" ->
  chatHistory (handleSubmit t0 t1 o during st) =
    append_to (currentChatId st) (Assistant (reply t1 o)) (opened during) ++
    map (submitted (currentChatId st) (trim (input st)) t0 (reply t1 o)
           (first_message (currentChatId st) (chatHistory st)))
        (chatHistory st) /\
  (forall c,
     find_chat (currentChatId st) (chatHistory st) = Some c ->
     fresh_ids (currentChatId st) during = true ->
     exists c',
       find_chat (currentChatId st)
         (chatHistory (handleSubmit t0 t1 o during st)) = Some c' /\
       messages c' =
         messages c ++ [User (trim (input st)) t0; Assistant (reply t1 o)] /\
       List.length (filter is_assistant (messages c')) =
         S (List.length (filter is_assistant (messages c)))) /\
  (forall c, In c (chatHistory st) -> id c <> currentChatId st ->
             In c (chatHistory (handleSubmit t0 t1 o during st))) /\
  isLoading (handleSubmit t0 t1 o during st) = false.
Proof.
  intros Hin Hload Hcur.
  destruct (handleSubmit_accepted t0 t1 o during st Hin Hload) as (Hh & Hl & _).
  rewrite Hh, Hl.
  split; [apply handleSendMessage_history; exact Hcur|].
  split; [|split].
  - intros c Hfind Hfresh.
    rewrite (handleSendMessage_thread t0 t1 _ o during st c Hcur Hfind Hfresh).
    eexists. split; [reflexivity|]. cbn [messages]. split; [reflexivity|].
    rewrite filter_app, length_app. cbn. lia.
  - intros c Hc Hid. rewrite handleSendMessage_history by exact Hcur.
    apply in_or_app. right.
    apply in_map_iff. exists c. split; [|exact Hc].
    unfold submitted. apply String.eqb_neq in Hid. rewrite Hid. reflexivity.
  - apply handleSendMessage_flags. exact Hcur.
Qed.

(** C8. A submission sets the title of its thread to the first 30
    characters of the message, followed by ["..."] exactly when the
    message is longer, if the thread had no message before, and leaves
    the title alone otherwise; since the thread has messages afterwards,
    every later submission to it leaves the title alone. *)
Theorem C8_title_set_on_first_message_only (t0 t1 content : string)
  (o : FetchOutcome) (during : list UiEvent) (st : State) (c : Chat) :
  currentChatId st <> "" ->
  find_chat (currentChatId st) (chatHistory st) = Some c ->
  fresh_ids (currentChatId st) during = true ->
  exists c',
    find_chat (currentChatId st)
      (chatHistory (handleSendMessage t0 t1 content o during st)) = Some c' /\
    (messages c = [] -> title c' = truncated_title content) /\
    (messages c <> [] -> title c' = title c) /\
    ((String.length content <= 30)%nat -> truncated_title content = content) /\
    ((30 < String.length content)%nat ->
       truncated_title content = (String.substring 0 30 content ++ "...")%string /\
       String.length (String.substring 0 30 content) = 30%nat) /\
    (forall t2 t3 content2 o2 during2 st2,
       chatHistory st2 = chatHistory (handleSendMessage t0 t1 content o during st) ->
       currentChatId st2 = currentChatId st ->
       fresh_ids (currentChatId st) during2 = true ->
       exists c'',
         find_chat (currentChatId st)
           (chatHistory (handleSendMessage t2 t3 content2 o2 during2 st2)) = Some c'' /\
         title c'' = title c').
Proof.
  intros Hcur Hfind Hfresh.
  eexists. split; [apply handleSendMessage_thread; eassumption|].
  cbn [title messages].
  split; [|split; [|split; [|split]]].
  - intros ->. reflexivity.
  - intros Hne. destruct (messages c); [congruence | reflexivity].
  - intros Hlen. unfold truncated_title.
    rewrite slice0_short by exact Hlen.
    apply Nat.ltb_ge in Hlen. rewrite Hlen.
    clear. induction content as [|a s IH]; cbn; [reflexivity | f_equal; exact IH].
  - intros Hlen. unfold truncated_title. split.
    + apply Nat.ltb_lt in Hlen. rewrite Hlen. reflexivity.
    + fold (slice0 30 content). rewrite slice0_length. lia.
  - intros t2 t3 content2 o2 during2 st2 Hh2 Hc2 Hfresh2.
    assert (Hcur2 : currentChatId st2 <> "") by (rewrite Hc2; exact Hcur).
    pose proof (handleSendMessage_thread t0 t1 content o during st c
                  Hcur Hfind Hfresh) as Hfirst.
    rewrite <- Hh2, <- Hc2 in Hfirst.
    rewrite <- Hc2 in Hfresh2.
    pose proof (handleSendMessage_thread t2 t3 content2 o2 during2 st2 _
                  Hcur2 Hfirst Hfresh2) as Hsecond.
    rewrite Hc2 in Hsecond. rewrite Hsecond.
    eexists. split; [reflexivity|]. cbn [title messages].
    rewrite length_app. cbn. rewrite Nat.add_comm. reflexivity.
Qed.

End Store.


Lemma C5_witness :
  chatHistory
    (handleSubmit "t0" "t1" FetchRejects [NewChat "1700000000000"; SelectChat "1"]
       st_typed) =
  [ {| id := "1700000000000"; title := "New Chat"; messages := [] |};
    {| id := "1"; title := "total sales?";
       messages := [User "total sales?" "t0"; Assistant (errorMessage "t1")] |} ].
Proof.
  destruct (C5_exactly_one_assistant_reply "t0" "t1" FetchRejects
              [NewChat "1700000000000"; SelectChat "1"] st_typed)
    as (Hh & _).
  - vm_compute. discriminate.
  - reflexivity.
  - cbn. discriminate.
  - rewrite Hh. reflexivity.
Defined.

Lemma C8_witness :
  exists c',
    find_chat "1"
      (chatHistory
         (handleSendMessage "t0" "t1"
            "What were the total sales by region last year?"
            FetchRejects [] st_typed)) = Some c' /\
    title c' = "What were the total sales by r...".
Proof.
  destruct (C8_title_set_on_first_message_only "t0" "t1"
              "What were the total sales by region last year?"
              FetchRejects [] st_typed
              {| id := "1"; title := "DataWare Assistant"; messages := [] |})
    as (c' & Hf & Hfirst & _).
  - cbn. discriminate.
  - reflexivity.
  - reflexivity.
  - exists c'. split; [exact Hf|]. rewrite (Hfirst eq_refl). reflexivity.
Defined.

(* ===================================================================== *)
(** * The reveal sequence *)
(* ===================================================================== *)

Section RevealSequence.

Variable words : list string.


Lemma blink_typing i st : typing_at i st -> typing_at i (blink st).
Proof. intros (Hi & Hc & Hd). repeat split; assumption. Qed.

Lemma blink_revealed st : revealed words st -> revealed words (blink st).
Proof. intros (Hc & Hd & H1 & H2 & Hi). repeat split; assumption. Qed.

Lemma tick_typing i st :
  typing_at i st -> (i < List.length words)%nat -> typing_at (S i) (tick words st).
Proof.
  intros (Hi & Hc & Hd) Hlt. unfold tick.
  apply Nat.ltb_lt in Hlt. rewrite Hi, Hlt.
  repeat split; cbn; assumption.
Qed.

Lemma tick_completes st :
  typing_at (List.length words) st -> revealed words (tick words st).
Proof.
  intros (Hi & Hc & Hd). unfold tick.
  rewrite Hi, Nat.ltb_irrefl, Hc. repeat split; cbn; assumption.
Qed.

Lemma tick_revealed st : revealed words st -> revealed words (tick words st).
Proof.
  intros H. pose proof H as (Hc & Hd & H1 & H2 & Hi). unfold tick.
  rewrite Hi, Nat.ltb_irrefl, Hc. exact H.
Qed.

Lemma run_revealed es st : revealed words st -> revealed words (run words es st).
Proof.
  revert st. induction es as [|e es IH]; intros st H; [exact H|].
  cbn. apply IH. destruct e; [apply tick_revealed | apply blink_revealed]; exact H.
Qed.

(** From a typing state with [i] words shown: the message stays in
    [Typing] for the ticks that show the remaining words, and the next
    tick reveals it. *)
Lemma run_typing es : forall i st,
  typing_at i st -> (i <= List.length words)%nat ->
  ((i + ticks es <= List.length words)%nat ->
     typing_at (i + ticks es) (run words es st)) /\
  ((List.length words < i + ticks es)%nat -> revealed words (run words es st)).
Proof.
  unfold ticks.
  induction es as [|e es IH]; intros i st Ht Hi.
  - cbn. rewrite Nat.add_0_r. split; [intros _; exact Ht | lia].
  - destruct e; cbn [run fold_left step filter List.length].
    + destruct (Nat.eq_dec i (List.length words)) as [->|Hne].
      * split; [lia|]. intros _. apply run_revealed, tick_completes, Ht.
      * assert (Hlt : (i < List.length words)%nat) by lia.
        destruct (IH (S i) (tick words st) (tick_typing i st Ht Hlt) Hlt) as [A B].
        rewrite Nat.add_succ_r. split; [exact A | exact B].
    + exact (IH i (blink st) (blink_typing i st Ht) Hi).
Qed.

End RevealSequence.

Lemma split_space_nonempty (text : string) :
  (1 <= List.length (split_space text))%nat.
Proof.
  induction text as [|c r IH]; cbn; [lia|].
  destruct (Ascii.eqb c " "); cbn; [lia|].
  destruct (split_space r); cbn in *; lia.
Qed.

Lemma initial_typing : typing_at 0 initial.
Proof. repeat split. Qed.

(** C7. Whatever the message carries, nothing but the text is shown
    while it is in [Typing]: chart, table and details are all hidden.
    A text always splits into at least one word, and after the ticks
    that show its words one more tick moves the message to [Revealed];
    this holds of every text, the empty one included, and whatever
    caret blinks come in between.  Once revealed, the chart is shown
    for [result_type = "chart"] with chart data, the table for
    [result_type = "table"] with a result, and the details panel when
    [QueryDetails] renders. *)
Theorem C7_reveal_only_after_typing (m : AiMessage) (text : string)
  (es : list TimerEvent) (st0 : RevealState) :
  (messageDone st0 = false ->
     canShowChart m st0 = false /\ canShowTable m st0 = false /\
     detailsVisible m st0 = false) /\
  (1 <= List.length (split_space text))%nat /\
  ((ticks es <= List.length (split_space text))%nat ->
     messageDone (run (split_space text) es initial) = false /\
     caretRendered (run (split_space text) es initial) = true /\
     currentWordIndex (run (split_space text) es initial) = ticks es) /\
  ((List.length (split_space text) < ticks es)%nat ->
     messageDone (run (split_space text) es initial) = true /\
     caretRendered (run (split_space text) es initial) = false /\
     canShowChart m (run (split_space text) es initial) =
       (strict_eq_str (result_type m) "chart" && truthy (chart_data m))%bool /\
     canShowTable m (run (split_space text) es initial) =
       (strict_eq_str (result_type m) "table" && truthy (result m))%bool /\
     detailsVisible m (run (split_space text) es initial) =
       QueryDetails_renders m) /\
  (text = "" ->
     messageDone (run (split_space text) [Tick] initial) = false /\
     messageDone (run (split_space text) [Tick; Tick] initial) = true).
Proof.
  split.
  { intros Hd. unfold canShowChart, canShowTable, detailsVisible.
    rewrite Hd. repeat split. }
  split; [apply split_space_nonempty|].
  pose proof (run_typing (split_space text) es 0 initial initial_typing
                (Nat.le_0_l _)) as [Htyping Hrevealed].
  cbn [Nat.add] in Htyping, Hrevealed.
  split; [|split].
  - intros Hle. destruct (Htyping Hle) as (Hi & Hc & Hd).
    unfold caretRendered. rewrite Hc, Hd, Hi. repeat split.
  - intros Hlt. destruct (Hrevealed Hlt) as (Hc & Hd & _).
    unfold caretRendered, canShowChart, canShowTable, detailsVisible.
    rewrite Hc, Hd. repeat split.
  - intros ->. split; reflexivity.
Qed.


Lemma C7_witness :
  canShowChart chart_message
    (run (split_space "Sales by region") [Tick; Blink; Tick] initial) = false /\
  canShowChart chart_message
    (run (split_space "Sales by region") [Tick; Blink; Tick; Tick; Tick] initial) = true /\
  messageDone (run (split_space "") [Tick; Tick] initial) = true.
Proof.
  split; [|split].
  - destruct (C7_reveal_only_after_typing chart_message "Sales by region"
                [Tick; Blink; Tick]
                (run (split_space "Sales by region") [Tick; Blink; Tick] initial))
      as (Hhidden & _).
    apply Hhidden. reflexivity.
  - destruct (C7_reveal_only_after_typing chart_message "Sales by region"
                [Tick; Blink; Tick; Tick; Tick] initial)
      as (_ & _ & _ & Hrev & _).
    destruct Hrev as (_ & _ & Hchart & _); [cbn; lia|].
    rewrite Hchart. reflexivity.
  - destruct (C7_reveal_only_after_typing chart_message "" [] initial)
      as (_ & _ & _ & _ & Hempty).
    apply Hempty. reflexivity.
Defined.

(* ===================================================================== *)
(** * The tabular presenter: sorting *)
(* ===================================================================== *)

Section InsertionSort.

Context {A : Type}.
Variable cmp : A -> A -> Z.

Lemma insert_perm (x : A) (l : list A) : Permutation (x :: l) (insert cmp x l).
Proof.
  induction l as [|y l IH]; cbn; [apply Permutation_refl|].
  destruct (cmp x y <=? 0); [apply Permutation_refl|].
  eapply perm_trans; [apply perm_swap|]. apply perm_skip, IH.
Qed.

Lemma sort_perm (l : list A) : Permutation l (sort cmp l).
Proof.
  induction l as [|x l IH]; cbn; [apply perm_nil|].
  eapply perm_trans; [apply perm_skip, IH | apply insert_perm].
Qed.

Lemma insert_Forall (Q : A -> Prop) (x : A) (l : list A) :
  Q x -> Forall Q l -> Forall Q (insert cmp x l).
Proof.
  intros Hx Hl. eapply Permutation_Forall; [apply insert_perm|].
  constructor; assumption.
Qed.

Lemma sort_Forall (Q : A -> Prop) (l : list A) :
  Forall Q l -> Forall Q (sort cmp l).
Proof. intros Hl. eapply Permutation_Forall; [apply sort_perm | exact Hl]. Qed.

(** When, on the elements at hand, the comparator orders by a numeric
    key [f], the result is sorted by [f]. *)
Section ByKey.

Variable P : A -> Prop.
Variable f : A -> Z.
Hypothesis cmp_key : forall a b, P a -> P b -> (cmp a b <= 0 <-> f a <= f b).

Lemma insert_sorted (x : A) (l : list A) :
  P x -> Forall P l ->
  StronglySorted (fun a b => f a <= f b) l ->
  StronglySorted (fun a b => f a <= f b) (insert cmp x l).
Proof.
  intros Hx HP Hs. induction l as [|y l IH]; cbn.
  - constructor; constructor.
  - inversion HP as [|? ? Hy HPl]; subst.
    inversion Hs as [|? ? Hsl Hyl]; subst.
    destruct (cmp x y <=? 0) eqn:E.
    + apply Z.leb_le in E. apply (cmp_key x y Hx Hy) in E.
      constructor; [exact Hs|]. constructor; [exact E|].
      eapply Forall_impl; [|exact Hyl]. cbn. intros a Ha. lia.
    + apply Z.leb_gt in E.
      assert (Hyx : f y <= f x).
      { destruct (Z.le_gt_cases (f x) (f y)) as [H|H]; [|lia].
        apply (cmp_key x y Hx Hy) in H. lia. }
      constructor; [apply IH; assumption|].
      apply insert_Forall; assumption.
Qed.

Lemma sort_sorted (l : list A) :
  Forall P l -> StronglySorted (fun a b => f a <= f b) (sort cmp l).
Proof.
  induction l as [|x l IH]; intros HP; cbn; [constructor|].
  inversion HP; subst.
  apply insert_sorted; [assumption | apply sort_Forall; assumption | auto].
Qed.

End ByKey.

End InsertionSort.

Section SortByColumn.

Variable k : string.

Lemma compareRows_both_missing d a b :
  missing k a = true -> missing k b = true -> compareRows k d a b = 0.
Proof. unfold missing, compareRows. intros -> ->. reflexivity. Qed.

Lemma compareRows_left_missing d a b :
  missing k a = true -> missing k b = false ->
  compareRows k d a b = if Direction_eqb d asc then 1 else -1.
Proof. unfold missing, compareRows. intros -> ->. reflexivity. Qed.

Lemma compareRows_right_missing d a b :
  missing k a = false -> missing k b = true ->
  compareRows k d a b = if Direction_eqb d asc then -1 else 1.
Proof. unfold missing, compareRows. intros -> ->. reflexivity. Qed.

Lemma compareRows_numeric d a b :
  numeric k a = true -> numeric k b = true ->
  compareRows k d a b =
    if Direction_eqb d asc then num_at k a - num_at k b
    else num_at k b - num_at k a.
Proof.
  unfold numeric, num_at, compareRows. intros Ha Hb.
  destruct (assoc k a) as [[]|]; try discriminate Ha.
  destruct (assoc k b) as [[]|]; try discriminate Hb.
  reflexivity.
Qed.

(** Ascending: a row with a value goes in among the rows with values. *)
Lemma insert_asc_defined x (D N : list Row) :
  missing k x = false -> Forall (fun r => missing k r = true) N ->
  insert (compareRows k asc) x (D ++ N) = insert (compareRows k asc) x D ++ N.
Proof.
  intros Hx HN. induction D as [|y D IH]; cbn.
  - destruct N as [|n N]; [reflexivity|]. cbn.
    inversion HN; subst.
    rewrite compareRows_right_missing by assumption. reflexivity.
  - destruct (compareRows k asc x y <=? 0); [reflexivity|].
    rewrite IH. reflexivity.
Qed.

(** Ascending: a row without a value goes to the head of the rows
    without values. *)
Lemma insert_asc_missing x (D N : list Row) :
  missing k x = true ->
  Forall (fun r => missing k r = false) D ->
  Forall (fun r => missing k r = true) N ->
  insert (compareRows k asc) x (D ++ N) = D ++ x :: N.
Proof.
  intros Hx HD HN. induction D as [|y D IH]; cbn.
  - destruct N as [|n N]; [reflexivity|]. cbn.
    inversion HN; subst.
    rewrite compareRows_both_missing by assumption. reflexivity.
  - inversion HD; subst.
    rewrite compareRows_left_missing by assumption. cbn.
    rewrite IH by assumption. reflexivity.
Qed.

(** Descending: a row without a value goes to the very front. *)
Lemma insert_desc_missing x (l : list Row) :
  missing k x = true -> insert (compareRows k desc) x l = x :: l.
Proof.
  intros Hx. destruct l as [|y l]; [reflexivity|]. cbn.
  destruct (missing k y) eqn:Hy.
  - rewrite compareRows_both_missing by assumption. reflexivity.
  - rewrite compareRows_left_missing by assumption. reflexivity.
Qed.

(** Descending: a row with a value passes all the rows without one. *)
Lemma insert_desc_defined x (N D : list Row) :
  missing k x = false -> Forall (fun r => missing k r = true) N ->
  insert (compareRows k desc) x (N ++ D) = N ++ insert (compareRows k desc) x D.
Proof.
  intros Hx HN. induction N as [|n N IH]; cbn; [reflexivity|].
  inversion HN; subst.
  rewrite compareRows_right_missing by assumption. cbn.
  rewrite IH by assumption. reflexivity.
Qed.

Lemma filter_missing_all (rows : list Row) :
  Forall (fun r => missing k r = true) (filter (missing k) rows).
Proof. apply Forall_forall. intros r Hr. apply filter_In in Hr. tauto. Qed.

Lemma filter_defined_all (rows : list Row) :
  Forall (fun r => missing k r = false)
         (filter (fun r => negb (missing k r)) rows).
Proof.
  apply Forall_forall. intros r Hr. apply filter_In in Hr.
  destruct Hr as [_ H]. apply negb_true_iff in H. exact H.
Qed.

Lemma sort_asc_split (rows : list Row) :
  sort (compareRows k asc) rows =
  sort (compareRows k asc) (filter (fun r => negb (missing k r)) rows)
    ++ filter (missing k) rows.
Proof.
  induction rows as [|x rows IH]; [reflexivity|].
  cbn [sort fold_right filter]. fold (sort (compareRows k asc) rows). rewrite IH.
  destruct (missing k x) eqn:Hx; cbn [negb].
  - apply insert_asc_missing;
      [exact Hx | apply sort_Forall, filter_defined_all | apply filter_missing_all].
  - cbn [sort fold_right].
    apply insert_asc_defined; [exact Hx | apply filter_missing_all].
Qed.

Lemma sort_desc_split (rows : list Row) :
  sort (compareRows k desc) rows =
  filter (missing k) rows
    ++ sort (compareRows k desc) (filter (fun r => negb (missing k r)) rows).
Proof.
  induction rows as [|x rows IH]; [reflexivity|].
  cbn [sort fold_right filter]. fold (sort (compareRows k desc) rows). rewrite IH.
  destruct (missing k x) eqn:Hx; cbn [negb].
  - apply insert_desc_missing. exact Hx.
  - cbn [sort fold_right].
    apply insert_desc_defined; [exact Hx | apply filter_missing_all].
Qed.

Lemma StronglySorted_tail {A : Type} (R : A -> A -> Prop) (l1 l2 : list A) :
  StronglySorted R (l1 ++ l2) -> StronglySorted R l2.
Proof.
  induction l1 as [|x l1 IH]; cbn; [auto|].
  intros H. inversion H; subst. auto.
Qed.

Lemma StronglySorted_before {A : Type} (R : A -> A -> Prop) (l1 l2 : list A) (a : A) :
  StronglySorted R (l1 ++ a :: l2) -> Forall (fun x => R x a) l1.
Proof.
  induction l1 as [|x l1 IH]; cbn; intros H; constructor;
    inversion H as [|? ? Hs Hall]; subst.
  - rewrite Forall_forall in Hall. apply Hall, in_or_app. right. left. reflexivity.
  - apply IH. exact Hs.
Qed.

(** Whatever algorithm orders the rows: in a sequence ordered by the
    ascending comparator only rows without a value follow a row without
    a value. *)
Lemma ordered_asc_missing_last (l1 l2 : list Row) (a : Row) :
  StronglySorted (fun x y => compareRows k asc x y <= 0) (l1 ++ a :: l2) ->
  missing k a = true -> Forall (fun r => missing k r = true) l2.
Proof.
  intros Hs Ha. apply StronglySorted_tail in Hs.
  inversion Hs as [|? ? _ Hall]; subst.
  eapply Forall_impl; [|exact Hall]. cbn. intros b Hab.
  destruct (missing k b) eqn:Hb; [reflexivity|].
  rewrite compareRows_left_missing in Hab by assumption. cbn in Hab. lia.
Qed.

(** And in a sequence ordered by the descending comparator only rows
    without a value precede a row without a value. *)
Lemma ordered_desc_missing_first (l1 l2 : list Row) (a : Row) :
  StronglySorted (fun x y => compareRows k desc x y <= 0) (l1 ++ a :: l2) ->
  missing k a = true -> Forall (fun r => missing k r = true) l1.
Proof.
  intros Hs Ha. apply StronglySorted_before in Hs.
  eapply Forall_impl; [|exact Hs]. cbn. intros b Hba.
  destruct (missing k b) eqn:Hb; [reflexivity|].
  rewrite compareRows_right_missing in Hba by assumption. cbn in Hba. lia.
Qed.

Lemma sortedData_sort_by (rows : list Row) (d : Direction) :
  k <> "" -> sortedData rows (sort_by k d) = sort (compareRows k d) rows.
Proof.
  intros Hk. unfold sortedData, sort_by. cbn.
  apply String.eqb_neq in Hk. rewrite Hk. reflexivity.
Qed.

End SortByColumn.

Lemma StronglySorted_impl {A : Type} (R S : A -> A -> Prop) (l : list A) :
  (forall a b, R a b -> S a b) -> StronglySorted R l -> StronglySorted S l.
Proof.
  intros HRS Hs. induction Hs as [|a l Hs IH Hall]; constructor.
  - exact IH.
  - eapply Forall_impl; [|exact Hall]. intros b. apply HRS.
Qed.

Lemma sort_numeric_asc (k : string) (rows : list Row) :
  Forall (fun r => numeric k r = true) rows ->
  StronglySorted (fun a b => num_at k a <= num_at k b)
                 (sort (compareRows k asc) rows).
Proof.
  apply (sort_sorted (compareRows k asc) (fun r => numeric k r = true) (num_at k)).
  intros a b Ha Hb. rewrite compareRows_numeric by assumption. cbn. lia.
Qed.

Lemma sort_numeric_desc (k : string) (rows : list Row) :
  Forall (fun r => numeric k r = true) rows ->
  StronglySorted (fun a b => num_at k b <= num_at k a)
                 (sort (compareRows k desc) rows).
Proof.
  intros H.
  apply (StronglySorted_impl (fun a b => - num_at k a <= - num_at k b));
    [intros a b; lia|].
  apply (sort_sorted (compareRows k desc) (fun r => numeric k r = true)
           (fun r => - num_at k r)); [|exact H].
  intros a b Ha Hb. rewrite compareRows_numeric by assumption. cbn. lia.
Qed.

Lemma handleSort_new_column (column : string) (cfg : SortConfig) :
  key cfg <> Some column -> handleSort column cfg = sort_by column asc.
Proof.
  intros Hk. unfold handleSort, sort_by. f_equal.
  destruct (key cfg) as [k0|]; [|reflexivity].
  destruct (String.eqb k0 column) eqn:E; [|reflexivity].
  apply String.eqb_eq in E. congruence.
Qed.

Lemma handleSort_same_column (column : string) (cfg : SortConfig) :
  key cfg = Some column ->
  handleSort column cfg = sort_by column (toggled (direction cfg)).
Proof.
  intros Hk. unfold handleSort, sort_by. rewrite Hk, String.eqb_refl.
  destruct (direction cfg); reflexivity.
Qed.

(** C2 as stated fails on the rows of the specification's own scenario:
    sorted by [a] descending, the row whose [a] is [null] comes first. *)
Lemma C2_counterexample :
  sortedData rows_with_null (sort_by "a" desc) =
    [[("a", JNull); ("b", JStr "y")]; [("a", JNum 1); ("b", JStr "x")]] /\
  missing "a" [("a", JNull); ("b", JStr "y")] = true /\
  missing "a" [("a", JNum 1); ("b", JStr "x")] = false.
Proof. repeat split. Qed.

(** C9. Selecting a column that is not the sort key makes it the key
    with ascending direction; selecting the key again flips the
    direction; three selections in a row end in the configuration of
    the first, with the same row order.  On a numeric column the
    ascending order is a permutation of the rows sorted by increasing
    value, the descending one by decreasing value. *)
Theorem C9_sort_selection_and_double_toggle (rows : list Row)
  (column : string) (cfg : SortConfig) :
  (key cfg <> Some column ->
     handleSort column cfg = sort_by column asc /\
     handleSort column (handleSort column cfg) = sort_by column desc /\
     handleSort column (handleSort column (handleSort column cfg)) =
       handleSort column cfg /\
     sortedData rows (handleSort column (handleSort column (handleSort column cfg))) =
       sortedData rows (handleSort column cfg)) /\
  (key cfg = Some column ->
     key (handleSort column cfg) = Some column /\
     direction (handleSort column cfg) = toggled (direction cfg) /\
     handleSort column (handleSort column cfg) = cfg) /\
  (column <> "" -> Forall (fun r => numeric column r = true) rows ->
     Permutation rows (sortedData rows (sort_by column asc)) /\
     StronglySorted (fun a b => num_at column a <= num_at column b)
       (sortedData rows (sort_by column asc)) /\
     Permutation rows (sortedData rows (sort_by column desc)) /\
     StronglySorted (fun a b => num_at column b <= num_at column a)
       (sortedData rows (sort_by column desc))).
Proof.
  split; [|split].
  - intros Hk. rewrite (handleSort_new_column column cfg Hk).
    rewrite (handleSort_same_column column (sort_by column asc) eq_refl).
    cbn [sort_by direction toggled].
    rewrite (handleSort_same_column column (sort_by column desc) eq_refl).
    repeat split.
  - intros Hk. rewrite (handleSort_same_column column cfg Hk).
    split; [reflexivity|]. split; [reflexivity|].
    rewrite (handleSort_same_column column
               (sort_by column (toggled (direction cfg))) eq_refl).
    cbn [sort_by direction].
    destruct cfg as [k0 d]. cbn in *. subst k0. unfold sort_by.
    destruct d; reflexivity.
  - intros Hc Hnum. rewrite !sortedData_sort_by by exact Hc.
    split; [apply sort_perm|]. split; [apply sort_numeric_asc; exact Hnum|].
    split; [apply sort_perm | apply sort_numeric_desc; exact Hnum].
Qed.

Lemma C9_witness :
  handleSort "n" initialSort = sort_by "n" asc /\
  sortedData rows_numeric
    (handleSort "n" (handleSort "n" (handleSort "n" initialSort))) =
    sortedData rows_numeric (handleSort "n" initialSort) /\
  sortedData rows_numeric (handleSort "n" initialSort) =
    [[("n", JNum 1)]; [("n", JNum 2)]; [("n", JNum 3)]] /\
  direction (handleSort "n" (sort_by "n" asc)) = desc /\
  StronglySorted (fun a b => num_at "n" a <= num_at "n" b)
    (sortedData rows_numeric (sort_by "n" asc)).
Proof.
  destruct (C9_sort_selection_and_double_toggle rows_numeric "n" initialSort)
    as (Hnew & _ & Hnum).
  destruct Hnew as (H1 & _ & _ & H3); [discriminate|].
  destruct Hnum as (_ & Hsorted & _); [discriminate | repeat constructor |].
  destruct (C9_sort_selection_and_double_toggle rows_numeric "n" (sort_by "n" asc))
    as (_ & Hsame & _).
  destruct Hsame as (_ & Hflip & _); [reflexivity|].
  split; [exact H1|]. split; [exact H3|]. split; [reflexivity|].
  split; [exact Hflip | exact Hsorted].
Defined.

(* ===================================================================== *)
(** * The tabular presenter: columns and filter *)
(* ===================================================================== *)

Section ColumnsAndFilter.

Lemma prefix_app (t post : string) : String.prefix t (t ++ post)%string = true.
Proof.
  induction t as [|c t IH]; cbn; [destruct post; reflexivity|].
  destruct (ascii_dec c c) as [_|Hne]; [exact IH | congruence].
Qed.

Lemma prefix_split (t s : string) :
  String.prefix t s = true -> exists post, s = (t ++ post)%string.
Proof.
  revert s. induction t as [|c t IH]; intros s H.
  - exists s. reflexivity.
  - destruct s as [|c' s]; cbn in H; [discriminate|].
    destruct (ascii_dec c c') as [->|]; [|discriminate].
    destruct (IH s H) as [post ->]. exists post. reflexivity.
Qed.

(** [includes] is the substring test. *)
Lemma includes_spec (s t : string) :
  includes s t = true <-> exists pre post, s = (pre ++ t ++ post)%string.
Proof.
  split.
  - induction s as [|c s IH]; cbn [includes].
    + destruct (String.prefix t "") eqn:E; [|discriminate].
      intros _. destruct (prefix_split _ _ E) as [post Hp].
      exists "", post. exact Hp.
    + destruct (String.prefix t (String c s)) eqn:E.
      * intros _. destruct (prefix_split _ _ E) as [post Hp].
        exists "", post. exact Hp.
      * intros H. destruct (IH H) as (pre & post & ->).
        exists (String c pre), post. reflexivity.
  - intros (pre & post & ->). induction pre as [|c pre IH].
    + cbn [String.append]. destruct (t ++ post)%string eqn:E; cbn [includes];
        rewrite <- E, prefix_app; reflexivity.
    + cbn [String.append includes].
      destruct (String.prefix t (String c (pre ++ t ++ post))); [reflexivity|exact IH].
Qed.

Lemma row_matches_spec (searchTerm : string) (row : Row) :
  row_matches searchTerm row = true <->
  exists k v, In (k, v) row /\
    includes (toLowerCase (toString v)) (toLowerCase searchTerm) = true.
Proof.
  unfold row_matches. rewrite existsb_exists. split.
  - intros (v & Hin & Hv). apply in_map_iff in Hin.
    destruct Hin as ([k v'] & Hs & Hin). cbn in Hs. subst v'.
    exists k, v. split; assumption.
  - intros (k & v & Hin & Hv). exists v. split; [|exact Hv].
    apply in_map_iff. exists (k, v). split; [reflexivity | exact Hin].
Qed.

Variable toLocaleString : Z -> string.

(** C6 (as amended). The column set is the key set of the first row,
    so every body row has one cell per key of the first row and a key
    that only later rows carry has no column; in a displayed column a
    cell whose key is missing from its row (or is [null]) reads ["-"]. *)
Theorem C6_columns_of_first_row_missing_cells_dash (first : Row)
  (rest shown : list Row) :
  columns (first :: rest) = map fst first /\
  Forall (fun cells => List.length cells = List.length first)
         (render_body toLocaleString (first :: rest) shown) /\
  (forall row i column,
     nth_error (columns (first :: rest)) i = Some column ->
     missing column row = true ->
     nth_error (render_row toLocaleString (columns (first :: rest)) row) i
       = Some "-") /\
  (forall k, ~ In k (map fst first) -> ~ In k (columns (first :: rest))).
Proof.
  split; [reflexivity|]. split; [|split].
  - unfold render_body. apply Forall_forall. intros cells Hc.
    apply in_map_iff in Hc. destruct Hc as (row & <- & _).
    unfold render_row. cbn [columns]. rewrite !length_map. reflexivity.
  - intros row i column Hnth Hmiss. unfold render_row.
    rewrite nth_error_map, Hnth. cbn [option_map].
    unfold formatValue. unfold missing in Hmiss. rewrite Hmiss. reflexivity.
  - intros k Hk. exact Hk.
Qed.

(** C10 (as amended). The filter keeps a row of the sorted data exactly
    when the search term is empty or the lower-cased term is a substring
    of the lower-cased string form of the value of one of the row's own
    keys, displayed or not. *)
Theorem C10_filter_over_all_keys (sorted : list Row) (searchTerm : string)
  (row : Row) :
  In row (filteredData sorted searchTerm) <->
  In row sorted /\
  (searchTerm = "" \/
   exists k v pre post,
     In (k, v) row /\
     toLowerCase (toString v) = (pre ++ toLowerCase searchTerm ++ post)%string).
Proof.
  unfold filteredData. destruct (String.eqb searchTerm "") eqn:E.
  - apply String.eqb_eq in E. split; [intros H; split; [exact H | left; exact E]|].
    intros [H _]. exact H.
  - apply String.eqb_neq in E. rewrite filter_In, row_matches_spec.
    split.
    + intros (Hin & k & v & Hkv & Hinc). split; [exact Hin|]. right.
      apply includes_spec in Hinc. destruct Hinc as (pre & post & Hs).
      exists k, v, pre, post. split; assumption.
    + intros (Hin & [Hempty | (k & v & pre & post & Hkv & Hs)]); [contradiction|].
      split; [exact Hin|]. exists k, v. split; [exact Hkv|].
      apply includes_spec. exists pre, post. exact Hs.
Qed.

End ColumnsAndFilter.

(** C6 as stated fails: the key [b] of the second row is in the union
    of the keys and is no column, and no cell is rendered for it. *)
Lemma C6_counterexample :
  in_union_of_keys "b" rows_ragged /\
  ~ In "b" (columns rows_ragged) /\
  columns rows_ragged = ["a"] /\
  render_body string_of_Z rows_ragged rows_ragged = [["1"]; ["2"]].
Proof.
  split; [|split; [|split; reflexivity]].
  - exists [("a", JNum 2); ("b", JNum 3)]. split; cbn; auto.
  - cbn. intros [H|[]]. discriminate H.
Qed.

Lemma C6_witness :
  nth_error
    (render_row string_of_Z (columns ([("a", JNum 2); ("b", JNum 3)] :: [[("a", JNum 1)]]))
       [("a", JNum 1)]) 1
  = Some "-".
Proof.
  destruct (C6_columns_of_first_row_missing_cells_dash string_of_Z
              [("a", JNum 2); ("b", JNum 3)] [[("a", JNum 1)]] [])
    as (_ & _ & Hdash & _).
  apply (Hdash [("a", JNum 1)] 1%nat "b"); reflexivity.
Defined.

(** C10 as stated fails: with the empty search term the row without
    keys is kept although it has no value for the term to occur in. *)
Lemma C10_counterexample :
  filteredData (sortedData rows_with_empty initialSort) "" = rows_with_empty /\
  In ([] : Row) (filteredData (sortedData rows_with_empty initialSort) "") /\
  row_matches "" ([] : Row) = false /\
  ~ (exists k v, In (k, v) ([] : Row) /\
       includes (toLowerCase (toString v)) (toLowerCase "") = true).
Proof.
  split; [reflexivity|]. split; [cbn; auto|]. split; [reflexivity|].
  intros (k & v & [] & _).
Qed.

(** A row kept only for a value in a column that is not displayed. *)
Lemma C10_witness :
  ~ In "note" (columns rows_hidden) /\
  In [("name", JStr "Bob"); ("note", JStr "Refund")]
     (filteredData (sortedData rows_hidden initialSort) "REF") /\
  includes (toLowerCase (toString (JStr "Bob"))) (toLowerCase "REF") = false.
Proof.
  split; [|split; [|reflexivity]].
  - cbn. intros [H|[]]. discriminate H.
  - apply (C10_filter_over_all_keys (sortedData rows_hidden initialSort) "REF").
    split; [cbn; auto|]. right.
    exists "note", (JStr "Refund"), "", "und". split; [cbn; auto | reflexivity].
Defined.

(* ===================================================================== *)
(** * The tabular presenter: pagination *)
(* ===================================================================== *)

Import Paging.

Section Pagination.

Lemma slice_window {A : Type} (s n : Z) (l : list A) :
  0 <= s -> 0 <= n ->
  slice s (s + n) l = firstn (Z.to_nat n) (skipn (Z.to_nat s) l).
Proof.
  intros Hs Hn. unfold slice.
  assert (E1 : (s <? 0) = false) by (apply Z.ltb_ge; lia).
  assert (E2 : (s + n <? 0) = false) by (apply Z.ltb_ge; lia).
  rewrite E1, E2.
  destruct (Z_le_gt_dec s (Z.of_nat (List.length l))) as [Hle|Hgt].
  - rewrite (Z.min_l s) by lia.
    destruct (Z_le_gt_dec (s + n) (Z.of_nat (List.length l))) as [Hle2|Hgt2].
    + rewrite Z.min_l by lia. f_equal. lia.
    + rewrite Z.min_r by lia.
      rewrite !firstn_all2; [reflexivity | |]; rewrite length_skipn; lia.
  - rewrite !Z.min_r by lia.
    replace (Z.to_nat (Z.max (Z.of_nat (List.length l) - Z.of_nat (List.length l)) 0))
      with 0%nat by lia.
    rewrite (skipn_all2 (n := Z.to_nat s)) by lia.
    rewrite firstn_nil. cbn. reflexivity.
Qed.

Lemma ceil_div_bounds (n size : Z) :
  0 < size -> 0 <= n ->
  n <= ceil_div n size * size /\ (ceil_div n size - 1) * size < n \/ 
  (n = 0 /\ ceil_div n size = 0).
Proof.
  intros Hs Hn. unfold ceil_div.
  pose proof (Z.div_mod (n + size - 1) size ltac:(lia)) as Hdm.
  pose proof (Z.mod_pos_bound (n + size - 1) size Hs) as Hb.
  destruct (Z.eq_dec n 0) as [->|Hne].
  - right. split; [reflexivity|]. apply Z.div_small. lia.
  - left. nia.
Qed.

Lemma ceil_div_nonneg (n size : Z) : 0 < size -> 0 <= n -> 0 <= ceil_div n size.
Proof. intros Hs Hn. unfold ceil_div. apply Z.div_pos; lia. Qed.

Variable tableData : list Row.

Lemma paginatedData_window (st : TableState) :
  0 < itemsPerPage st -> 1 <= currentPage st ->
  paginatedData tableData st =
    firstn (Z.to_nat (itemsPerPage st))
           (skipn (Z.to_nat (startIndex st)) (filtered tableData st)).
Proof.
  intros Hs Hp. unfold paginatedData. apply slice_window; [|lia].
  unfold startIndex. nia.
Qed.

Lemma paginatedData_length (st : TableState) :
  0 < itemsPerPage st -> 1 <= currentPage st ->
  Z.of_nat (List.length (paginatedData tableData st)) =
    Z.max 0 (Z.min (itemsPerPage st)
               (Z.of_nat (List.length (filtered tableData st)) - startIndex st)).
Proof.
  intros Hs Hp.
  assert (Hstart : 0 <= startIndex st) by (unfold startIndex; nia).
  rewrite paginatedData_window by assumption.
  rewrite length_firstn, length_skipn. lia.
Qed.

Lemma page_in_range_nonempty (st : TableState) :
  0 < itemsPerPage st -> 1 <= currentPage st ->
  currentPage st <= totalPages tableData st ->
  0 < Z.of_nat (List.length (paginatedData tableData st)).
Proof.
  intros Hs Hp Hle. rewrite paginatedData_length by assumption.
  unfold totalPages in Hle.
  destruct (ceil_div_bounds (Z.of_nat (List.length (filtered tableData st)))
              (itemsPerPage st) Hs ltac:(lia)) as [[Hup Hlow]|[Hz Hc]];
    unfold startIndex; nia.
Qed.

(** X1. A page never has more rows than the page size; it has exactly
    the page size unless the rows run out; a page within
    [1..totalPages] is never empty and a page past the last is. *)
Theorem page_length_bounded (st : TableState) :
  0 < itemsPerPage st -> 1 <= currentPage st ->
  Z.of_nat (List.length (paginatedData tableData st)) <= itemsPerPage st /\
  Z.of_nat (List.length (paginatedData tableData st)) =
    Z.max 0 (Z.min (itemsPerPage st)
               (Z.of_nat (List.length (filtered tableData st)) - startIndex st)) /\
  (currentPage st <= totalPages tableData st ->
     paginatedData tableData st <> []) /\
  (totalPages tableData st < currentPage st ->
     paginatedData tableData st = []).
Proof.
  intros Hs Hp.
  pose proof (paginatedData_length st Hs Hp) as Hlen.
  split; [lia|]. split; [exact Hlen|]. split.
  - intros Hle Hnil.
    pose proof (page_in_range_nonempty st Hs Hp Hle) as Hpos.
    rewrite Hnil in Hpos. cbn in Hpos. lia.
  - intros Hgt. apply length_zero_iff_nil. unfold totalPages in Hgt.
    destruct (ceil_div_bounds (Z.of_nat (List.length (filtered tableData st)))
                (itemsPerPage st) Hs ltac:(lia)) as [[Hup Hlow]|[Hz Hc]];
      unfold startIndex in *; nia.
Qed.

Lemma pages_cover {A : Type} (n : nat) : forall (k : nat) (l : list A),
  (List.length l <= k * n)%nat ->
  List.concat (map (fun i => firstn n (skipn (i * n) l)) (seq 0 k)) = l.
Proof.
  induction k as [|k IH]; intros l Hl.
  - cbn in *. destruct l; [reflexivity | cbn in Hl; lia].
  - cbn [seq map List.concat]. rewrite <- seq_shift, map_map.
    cbn [Nat.mul skipn].
    rewrite (map_ext _ (fun i => firstn n (skipn (i * n) (skipn n l)))).
    + rewrite IH; [apply firstn_skipn|]. rewrite length_skipn. cbn in Hl. lia.
    + intros i. rewrite skipn_skipn. f_equal. f_equal. cbn. lia.
Qed.

(** X2. The pages [1..totalPages] laid end to end are exactly the
    filtered rows: each row is on one page, in order. *)
Theorem pages_partition_filtered_rows (st : TableState) :
  0 < itemsPerPage st ->
  List.concat (map (fun p => paginatedData tableData (setCurrentPage (Z.of_nat p) st))
              (seq 1 (Z.to_nat (totalPages tableData st))))
  = filtered tableData st.
Proof.
  intros Hs.
  rewrite <- seq_shift, map_map.
  rewrite (map_ext_in _
             (fun i => firstn (Z.to_nat (itemsPerPage st))
                         (skipn (i * Z.to_nat (itemsPerPage st))
                                (filtered tableData st)))).
  - apply pages_cover. unfold totalPages.
    destruct (ceil_div_bounds (Z.of_nat (List.length (filtered tableData st)))
                (itemsPerPage st) Hs ltac:(lia)) as [[Hup _]|[Hz Hc]]; nia.
  - intros i _.
    rewrite paginatedData_window; cbn [itemsPerPage currentPage setCurrentPage];
      [|exact Hs|lia].
    unfold filtered, startIndex. cbn [sortConfig searchTerm currentPage itemsPerPage setCurrentPage].
    f_equal. f_equal. nia.
Qed.

(** X3. On a page within [1..totalPages] the line "Showing a to b of n"
    names the rows displayed: [b - a + 1] is the number of rows of the
    page and [b] does not pass [n]. *)
Theorem showing_line_matches_page (st : TableState) :
  0 < itemsPerPage st -> 1 <= currentPage st ->
  currentPage st <= totalPages tableData st ->
  showingTo tableData st - showingFrom st + 1 =
    Z.of_nat (List.length (paginatedData tableData st)) /\
  1 <= showingFrom st <= showingTo tableData st /\
  showingTo tableData st <= Z.of_nat (List.length (filtered tableData st)).
Proof.
  intros Hs Hp Hle.
  pose proof (paginatedData_length st Hs Hp) as Hlen.
  pose proof (page_in_range_nonempty st Hs Hp Hle) as Hpos.
  unfold showingTo, showingFrom in *.
  assert (0 <= startIndex st) by (unfold startIndex; nia).
  lia.
Qed.

End Pagination.

Lemma page_length_bounded_witness :
  Z.of_nat (List.length (paginatedData Inputs.rows_many (Inputs.on_page 3))) <= 10 /\
  paginatedData Inputs.rows_many (Inputs.on_page 3) <> [] /\
  paginatedData Inputs.rows_many (Inputs.on_page 4) = [].
Proof.
  split; [|split].
  - apply (page_length_bounded Inputs.rows_many (Inputs.on_page 3)); cbn; lia.
  - apply (page_length_bounded Inputs.rows_many (Inputs.on_page 3));
      [cbn; lia | cbn; lia | vm_compute; discriminate].
  - apply (page_length_bounded Inputs.rows_many (Inputs.on_page 4));
      [cbn; lia | cbn; lia | vm_compute; reflexivity].
Defined.

Lemma pages_partition_filtered_rows_witness :
  paginatedData Inputs.rows_many (Inputs.on_page 1) ++
  paginatedData Inputs.rows_many (Inputs.on_page 2) ++
  paginatedData Inputs.rows_many (Inputs.on_page 3) = Inputs.rows_many.
Proof.
  pose proof (pages_partition_filtered_rows Inputs.rows_many initialTable
                ltac:(cbn; lia)) as H.
  vm_compute in H. vm_compute. exact H.
Defined.

Lemma showing_line_matches_page_witness :
  showingFrom (Inputs.on_page 3) = 21 /\
  showingTo Inputs.rows_many (Inputs.on_page 3) = 25 /\
  25 - 21 + 1 = Z.of_nat (List.length (paginatedData Inputs.rows_many (Inputs.on_page 3))).
Proof.
  split; [reflexivity|]. split; [reflexivity|].
  apply (showing_line_matches_page Inputs.rows_many (Inputs.on_page 3));
    [cbn; lia | cbn; lia | vm_compute; discriminate].
Defined.

Section PageNavigation.

Lemma Permutation_filter_length {A : Type} (p : A -> bool) (l l' : list A) :
  Permutation l l' -> List.length (filter p l) = List.length (filter p l').
Proof.
  induction 1 as [|x l l' _ IH|x y l|l l' l'' _ IH1 _ IH2]; cbn.
  - reflexivity.
  - destruct (p x); cbn; congruence.
  - destruct (p x), (p y); reflexivity.
  - congruence.
Qed.

Lemma sortedData_perm (tableData : list Row) (cfg : SortConfig) :
  Permutation tableData (sortedData tableData cfg).
Proof.
  unfold sortedData. destruct (key cfg) as [k|]; [|apply Permutation_refl].
  destruct (String.eqb k ""); [apply Permutation_refl | apply sort_perm].
Qed.

Lemma filteredData_length_perm (l l' : list Row) (term : string) :
  Permutation l l' ->
  List.length (filteredData l term) = List.length (filteredData l' term).
Proof.
  intros H. unfold filteredData. destruct (String.eqb term "").
  - apply Permutation_length, H.
  - apply Permutation_filter_length, H.
Qed.

Variable tableData : list Row.

Lemma totalPages_sort (column : string) (st : TableState) :
  totalPages tableData (onHeaderClick column st) = totalPages tableData st.
Proof.
  unfold totalPages, filtered. cbn [sortConfig searchTerm itemsPerPage onHeaderClick].
  f_equal. f_equal. apply filteredData_length_perm.
  eapply perm_trans; [apply Permutation_sym, sortedData_perm | apply sortedData_perm].
Qed.

Lemma pageNum_offset (total current i : Z) :
  pageNum total current i = pageNum total current 0 + i.
Proof.
  unfold pageNum.
  destruct (total <=? 5), (current <=? 3), (total - 2 <=? current); lia.
Qed.

Lemma pageNum_first (total current : Z) :
  1 <= current <= total ->
  1 <= pageNum total current 0 /\
  pageNum total current 0 + Z.min 5 total - 1 <= total /\
  pageNum total current 0 <= current < pageNum total current 0 + Z.min 5 total.
Proof.
  intros H. unfold pageNum.
  destruct (total <=? 5) eqn:E1; [apply Z.leb_le in E1; lia|].
  apply Z.leb_gt in E1.
  destruct (current <=? 3) eqn:E2; [apply Z.leb_le in E2; lia|].
  apply Z.leb_gt in E2.
  destruct (total - 2 <=? current) eqn:E3;
    [apply Z.leb_le in E3 | apply Z.leb_gt in E3]; lia.
Qed.

(** X5. On a page within [1..totalPages] the page buttons carry
    consecutive numbers, all of them existing pages, and the current
    page is one of them. *)
Theorem page_buttons_window (total current : Z) :
  1 <= current <= total ->
  pageButtons total current =
    map (fun i => pageNum total current 0 + Z.of_nat i)
        (seq 0 (Z.to_nat (Z.min 5 total))) /\
  Forall (fun p => 1 <= p <= total) (pageButtons total current) /\
  In current (pageButtons total current).
Proof.
  intros H. destruct (pageNum_first total current H) as (H1 & H2 & H3).
  assert (Heq : pageButtons total current =
    map (fun i => pageNum total current 0 + Z.of_nat i)
        (seq 0 (Z.to_nat (Z.min 5 total)))).
  { unfold pageButtons. apply map_ext. intros i. apply pageNum_offset. }
  split; [exact Heq|]. rewrite Heq. split.
  - apply Forall_forall. intros p Hp. apply in_map_iff in Hp.
    destruct Hp as (i & <- & Hi). apply in_seq in Hi. lia.
  - apply in_map_iff. exists (Z.to_nat (current - pageNum total current 0)).
    split; [lia|]. apply in_seq. lia.
Qed.

Lemma table_step_in_range (st : TableState) (e : TableEvent) :
  offered_size e = true ->
  0 < itemsPerPage st ->
  1 <= currentPage st <= Z.max 1 (totalPages tableData st) ->
  0 < itemsPerPage (table_step tableData st e) /\
  1 <= currentPage (table_step tableData st e)
    <= Z.max 1 (totalPages tableData (table_step tableData st e)).
Proof.
  intros Hoff Hs Hp. destruct e; cbn [table_step].
  - cbn. split; [exact Hs | lia].
  - cbn in Hoff. cbn [itemsPerPage currentPage onPageSizeChange].
    split; [|lia].
    repeat (apply orb_true_iff in Hoff; destruct Hoff as [Hoff|Hoff]);
      apply Z.eqb_eq in Hoff; lia.
  - rewrite totalPages_sort. cbn. split; [exact Hs | exact Hp].
  - destruct ((1 <? totalPages tableData st) && negb (currentPage st =? 1));
      [|split; assumption].
    change (totalPages tableData (setCurrentPage (Z.max 1 (currentPage st - 1)) st))
      with (totalPages tableData st).
    cbn. split; [exact Hs | lia].
  - destruct (1 <? totalPages tableData st) eqn:E; cbn [andb]; [|split; assumption].
    apply Z.ltb_lt in E.
    destruct (negb (currentPage st =? totalPages tableData st)); [|split; assumption].
    change (totalPages tableData
              (setCurrentPage (Z.min (totalPages tableData st) (currentPage st + 1)) st))
      with (totalPages tableData st).
    cbn. split; [exact Hs | lia].
  - destruct (1 <? totalPages tableData st) eqn:E; cbn [andb]; [|split; assumption].
    apply Z.ltb_lt in E.
    destruct (Z.of_nat i <? Z.min 5 (totalPages tableData st)) eqn:Ei;
      [|split; assumption].
    apply Z.ltb_lt in Ei.
    change (totalPages tableData
              (setCurrentPage (pageNum (totalPages tableData st) (currentPage st)
                                 (Z.of_nat i)) st))
      with (totalPages tableData st).
    cbn [itemsPerPage currentPage setCurrentPage]. split; [exact Hs|].
    rewrite pageNum_offset.
    destruct (pageNum_first (totalPages tableData st) (currentPage st) ltac:(lia))
      as (H1 & H2 & H3). lia.
  - split; assumption.
  - destruct (Nat.ltb index (List.length (paginatedData tableData st)));
      split; assumption.
Qed.

(** X4. Whatever the user does with a table (search, page size, sort,
    previous, next, page buttons, check boxes), the current page stays
    within [1..max(1, totalPages)], so while any row passes the filter
    the page on display is never empty. *)
Theorem current_page_stays_in_range (es : list TableEvent) :
  forallb offered_size es = true ->
  0 < itemsPerPage (fold_left (table_step tableData) es initialTable) /\
  1 <= currentPage (fold_left (table_step tableData) es initialTable)
    <= Z.max 1 (totalPages tableData (fold_left (table_step tableData) es initialTable)) /\
  (filtered tableData (fold_left (table_step tableData) es initialTable) <> [] ->
   paginatedData tableData (fold_left (table_step tableData) es initialTable) <> []).
Proof.
  intros Hoff.
  assert (Hinv : forall st,
            0 < itemsPerPage st ->
            1 <= currentPage st <= Z.max 1 (totalPages tableData st) ->
            0 < itemsPerPage (fold_left (table_step tableData) es st) /\
            1 <= currentPage (fold_left (table_step tableData) es st)
              <= Z.max 1 (totalPages tableData (fold_left (table_step tableData) es st))).
  { induction es as [|e rest IH]; intros st Hs Hp; [split; assumption|].
    cbn in Hoff. apply andb_true_iff in Hoff. destruct Hoff as [He Hrest].
    cbn [fold_left].
    destruct (table_step_in_range st e He Hs Hp) as [Hs' Hp'].
    apply (IH Hrest); assumption. }
  destruct (Hinv initialTable) as [Hs Hp]; [cbn; lia | cbn; lia |].
  set (st := fold_left (table_step tableData) es initialTable) in *.
  split; [exact Hs|]. split; [exact Hp|].
  intros Hne Hnil.
  assert (Hlen : 0 < Z.of_nat (List.length (filtered tableData st))).
  { destruct (filtered tableData st); [congruence | cbn; lia]. }
  assert (Htp : 1 <= totalPages tableData st).
  { unfold totalPages.
    destruct (ceil_div_bounds (Z.of_nat (List.length (filtered tableData st)))
                (itemsPerPage st) Hs ltac:(lia)) as [[Hup _]|[Hz _]]; nia. }
  pose proof (page_in_range_nonempty tableData st Hs ltac:(lia) ltac:(lia)) as Hpos.
  rewrite Hnil in Hpos. cbn in Hpos. lia.
Qed.

End PageNavigation.

Lemma page_buttons_window_witness :
  pageButtons 9 5 = [3; 4; 5; 6; 7] /\ In 5 (pageButtons 9 5).
Proof.
  split; [reflexivity|].
  apply (page_buttons_window 9 5). lia.
Defined.

Lemma current_page_stays_in_range_witness :
  currentPage
    (fold_left (table_step Inputs.rows_many)
       [Next; Next; Next; Next; Search "2"; Next; PageSize 25; Previous; PageButton 4]
       initialTable) = 1 /\
  paginatedData Inputs.rows_many
    (fold_left (table_step Inputs.rows_many) [Next; Next; Next; Next] initialTable) <> [].
Proof.
  split; [reflexivity|].
  apply (current_page_stays_in_range Inputs.rows_many [Next; Next; Next; Next]);
    [reflexivity | vm_compute; discriminate].
Defined.

(* ===================================================================== *)
(** * The tabular presenter: row selection *)
(* ===================================================================== *)

Section Selection.

Lemma set_has_In (s : NumSet) (x : Z) : set_has s x = true <-> In x s.
Proof.
  unfold set_has. rewrite existsb_exists. split.
  - intros (y & Hy & E). apply Z.eqb_eq in E. subst. exact Hy.
  - intros H. exists x. split; [exact H | apply Z.eqb_refl].
Qed.

Lemma set_has_add (s : NumSet) (x y : Z) :
  set_has (set_add x s) y = ((y =? x) || set_has s y)%bool.
Proof.
  unfold set_add. destruct (set_has s x) eqn:E.
  - destruct (Z.eqb_spec y x) as [->|]; [rewrite E|]; reflexivity.
  - unfold set_has. rewrite existsb_app. cbn.
    rewrite orb_false_r, orb_comm. reflexivity.
Qed.

Lemma set_has_delete (s : NumSet) (x y : Z) :
  set_has (set_delete x s) y = (negb (y =? x) && set_has s y)%bool.
Proof.
  unfold set_delete, set_has. induction s as [|z s IH]; cbn.
  - rewrite andb_false_r. reflexivity.
  - destruct (Z.eqb_spec z x) as [->|Hzx]; cbn.
    + rewrite IH. destruct (Z.eqb_spec y x); cbn; reflexivity.
    + rewrite IH. destruct (Z.eqb_spec y z) as [->|]; cbn; [|reflexivity].
      destruct (Z.eqb_spec z x); [contradiction | reflexivity].
Qed.

Lemma set_of_nodup (l : list Z) : NoDup l -> set_of l = l.
Proof.
  unfold set_of.
  assert (H : forall acc, NoDup (acc ++ l) ->
                fold_left (fun s x => set_add x s) l acc = acc ++ l).
  { induction l as [|x r IH]; intros acc Hnd; cbn.
    - rewrite app_nil_r. reflexivity.
    - assert (Hx : set_has acc x = false).
      { destruct (set_has acc x) eqn:E; [|reflexivity].
        apply set_has_In in E. apply NoDup_remove_2 in Hnd.
        exfalso. apply Hnd. apply in_or_app. left. exact E. }
      unfold set_add at 2. rewrite Hx.
      rewrite IH; rewrite <- app_assoc; [reflexivity | exact Hnd]. }
  intros Hnd. apply (H [] Hnd).
Qed.

Lemma offsets_nodup (s : Z) (n : nat) : forall a,
  NoDup (map (fun i => s + Z.of_nat i) (seq a n)).
Proof.
  induction n as [|n IH]; intros a; cbn; constructor; [|apply IH].
  intros Hin. apply in_map_iff in Hin. destruct Hin as (i & E & Hi).
  apply in_seq in Hi. lia.
Qed.

Lemma set_delete_absent (s : NumSet) (x : Z) :
  set_has s x = false -> set_delete x s = s.
Proof.
  unfold set_delete, set_has. induction s as [|z s IH]; cbn; [reflexivity|].
  intros H. apply orb_false_iff in H. destruct H as [Hz Hs].
  rewrite Z.eqb_sym, Hz. cbn. rewrite IH by exact Hs. reflexivity.
Qed.

Variable tableData : list Row.

(** X6. "Select all" selects exactly the rows of the page on display,
    by their positions in the filtered rows, replacing any earlier
    selection, and then the header box is checked unless the page is
    empty; "unselect all" clears the whole selection. *)
Theorem select_all_selects_the_page (st : TableState) :
  selectedRows (handleSelectAll tableData true st) = page_indices tableData st /\
  (forall x,
     set_has (selectedRows (handleSelectAll tableData true st)) x = true <->
     startIndex st <= x
       < startIndex st + Z.of_nat (List.length (paginatedData tableData st))) /\
  (forall index,
     0 <= index < Z.of_nat (List.length (paginatedData tableData st)) ->
     isSelected (handleSelectAll tableData true st) index = true) /\
  headerChecked tableData (handleSelectAll tableData true st) =
    (0 <? Z.of_nat (List.length (paginatedData tableData st))) /\
  selectedRows (handleSelectAll tableData false st) = [] /\
  headerChecked tableData (handleSelectAll tableData false st) = false.
Proof.
  assert (Hsel : selectedRows (handleSelectAll tableData true st)
                 = page_indices tableData st).
  { cbn. apply set_of_nodup. apply offsets_nodup. }
  assert (Hmem : forall x,
     set_has (selectedRows (handleSelectAll tableData true st)) x = true <->
     startIndex st <= x
       < startIndex st + Z.of_nat (List.length (paginatedData tableData st))).
  { intros x. rewrite Hsel, set_has_In. unfold page_indices.
    rewrite in_map_iff. split.
    - intros (i & <- & Hi). apply in_seq in Hi. lia.
    - intros Hx. exists (Z.to_nat (x - startIndex st)). split; [lia|].
      apply in_seq. lia. }
  split; [exact Hsel|]. split; [exact Hmem|]. split; [|split; [|split]].
  - intros index Hi. unfold isSelected.
    change (startIndex (handleSelectAll tableData true st)) with (startIndex st).
    apply Hmem. lia.
  - unfold headerChecked. rewrite Hsel.
    change (paginatedData tableData (handleSelectAll tableData true st))
      with (paginatedData tableData st).
    unfold page_indices. rewrite length_map, length_seq, Z.eqb_refl.
    apply andb_true_r.
  - reflexivity.
  - unfold headerChecked.
    change (paginatedData tableData (handleSelectAll tableData false st))
      with (paginatedData tableData st).
    cbn [selectedRows handleSelectAll List.length].
    destruct (List.length (paginatedData tableData st)); reflexivity.
Qed.

(** X7. A row check box changes the selection of its own row and of no
    other; the stored set never holds an index twice; and checking then
    unchecking a row that was not selected restores the selection. *)
Theorem select_row_toggles_one_row (st : TableState) (index : Z) (checked : bool) :
  (forall j, isSelected (handleSelectRow index checked st) j =
             if j =? index then checked else isSelected st j) /\
  (NoDup (selectedRows st) ->
   NoDup (selectedRows (handleSelectRow index checked st))) /\
  (isSelected st index = false ->
   selectedRows (handleSelectRow index false (handleSelectRow index true st))
     = selectedRows st).
Proof.
  split; [|split].
  - intros j. unfold isSelected.
    change (startIndex (handleSelectRow index checked st)) with (startIndex st).
    cbn [selectedRows handleSelectRow].
    destruct checked; [rewrite set_has_add | rewrite set_has_delete];
      destruct (Z.eqb_spec j index) as [->|Hne].
    + rewrite Z.eqb_refl. reflexivity.
    + destruct (Z.eqb_spec (startIndex st + j) (startIndex st + index)); [lia|].
      reflexivity.
    + rewrite Z.eqb_refl. reflexivity.
    + destruct (Z.eqb_spec (startIndex st + j) (startIndex st + index)); [lia|].
      reflexivity.
  - intros Hnd. cbn [selectedRows handleSelectRow]. destruct checked.
    + unfold set_add. destruct (set_has (selectedRows st) (startIndex st + index)) eqn:E;
        [exact Hnd|].
      apply NoDup_app; [exact Hnd | repeat constructor; intros [] |].
      intros x Hx [<-|[]].
      apply set_has_In in Hx. congruence.
    + unfold set_delete. apply NoDup_filter. exact Hnd.
  - unfold isSelected. intros Hno.
    cbn [selectedRows handleSelectRow].
    change (startIndex (handleSelectRow index true st)) with (startIndex st).
    unfold set_add. rewrite Hno. unfold set_delete. rewrite filter_app. cbn.
    rewrite Z.eqb_refl. cbn. rewrite app_nil_r.
    apply set_delete_absent. exact Hno.
Qed.

(** X8. The header box compares counts only: after "select all" on one
    page, on any other page with the same number of rows the header box
    is checked although no row of that page is selected. *)
Theorem header_box_compares_counts_only (st : TableState) (q : Z) :
  0 < itemsPerPage st -> 1 <= currentPage st -> 1 <= q -> q <> currentPage st ->
  paginatedData tableData st <> [] ->
  List.length (paginatedData tableData (setCurrentPage q st)) =
    List.length (paginatedData tableData st) ->
  headerChecked tableData
    (setCurrentPage q (handleSelectAll tableData true st)) = true /\
  (forall index,
     0 <= index < Z.of_nat (List.length (paginatedData tableData (setCurrentPage q st))) ->
     isSelected (setCurrentPage q (handleSelectAll tableData true st)) index = false).
Proof.
  intros Hs Hp Hq Hne Hpage Hsame.
  assert (Hsel : selectedRows (handleSelectAll tableData true st)
                 = page_indices tableData st).
  { cbn. apply set_of_nodup. apply offsets_nodup. }
  pose proof (paginatedData_length tableData st Hs Hp) as Hlen.
  split.
  - unfold headerChecked.
    change (paginatedData tableData (setCurrentPage q (handleSelectAll tableData true st)))
      with (paginatedData tableData (setCurrentPage q st)).
    cbn [selectedRows setCurrentPage]. rewrite Hsel. unfold page_indices.
    rewrite length_map, length_seq, Hsame, Z.eqb_refl, andb_true_r.
    apply Z.ltb_lt. destruct (paginatedData tableData st); [congruence | cbn; lia].
  - intros index Hi. unfold isSelected.
    cbn [selectedRows setCurrentPage]. rewrite Hsel.
    destruct (set_has (page_indices tableData st)
                (startIndex (setCurrentPage q (handleSelectAll tableData true st)) + index))
      eqn:E; [|reflexivity].
    apply set_has_In in E. unfold page_indices in E. apply in_map_iff in E.
    destruct E as (i & E & Hin). apply in_seq in Hin.
    unfold startIndex in *. cbn [currentPage itemsPerPage setCurrentPage handleSelectAll] in *.
    rewrite Hsame in Hi. exfalso. nia.
Qed.

End Selection.

Lemma select_row_toggles_one_row_witness :
  selectedRows (handleSelectRow 2 false (handleSelectRow 2 true (Inputs.on_page 2))) = [] /\
  isSelected (handleSelectRow 2 true (Inputs.on_page 2)) 2 = true.
Proof.
  destruct (select_row_toggles_one_row (Inputs.on_page 2) 2 true) as (Hsel & _ & _).
  destruct (select_row_toggles_one_row (Inputs.on_page 2) 2 false) as (_ & _ & Hround).
  split; [apply Hround; reflexivity | rewrite Hsel; reflexivity].
Defined.

Lemma header_box_compares_counts_only_witness :
  headerChecked Inputs.rows_many
    (setCurrentPage 2 (handleSelectAll Inputs.rows_many true (Inputs.on_page 1))) = true /\
  isSelected (setCurrentPage 2 (handleSelectAll Inputs.rows_many true (Inputs.on_page 1))) 0
    = false.
Proof.
  destruct (header_box_compares_counts_only Inputs.rows_many (Inputs.on_page 1) 2)
    as (Hbox & Hrows);
    [cbn; lia | cbn; lia | lia | cbn; lia | vm_compute; discriminate | reflexivity |].
  split; [exact Hbox | apply Hrows; vm_compute; split; [discriminate | reflexivity]].
Defined.

(* ===================================================================== *)
(** * The tabular presenter: column titles *)
(* ===================================================================== *)

Section ColumnTitles.

Lemma is_word_upper (c : ascii) : is_word (upper_ascii c) = is_word c.
Proof. by_cases_on c. Qed.

Lemma upper_upper (c : ascii) : upper_ascii (upper_ascii c) = upper_ascii c.
Proof. by_cases_on c. Qed.

Lemma upper_underscore (c : ascii) :
  Ascii.eqb (upper_ascii c) "_" = Ascii.eqb c "_".
Proof. by_cases_on c. Qed.

Lemma lower_upper (c : ascii) : lower_ascii (upper_ascii c) = lower_ascii c.
Proof. by_cases_on c. Qed.

Lemma underscores_to_spaces_length (s : string) :
  String.length (underscores_to_spaces s) = String.length s.
Proof. induction s as [|c r IH]; cbn; congruence. Qed.

Lemma capitalize_words_length (s : string) : forall b,
  String.length (capitalize_words b s) = String.length s.
Proof. induction s as [|c r IH]; intros b; cbn; [|rewrite IH]; reflexivity. Qed.

Lemma underscores_to_spaces_twice (s : string) :
  underscores_to_spaces (underscores_to_spaces s) = underscores_to_spaces s.
Proof.
  induction s as [|c r IH]; cbn; [reflexivity|]. rewrite IH.
  destruct (Ascii.eqb c "_") eqn:E; [reflexivity | rewrite E; reflexivity].
Qed.

(** [underscores_to_spaces t = t] says that [t] has no underscore. *)
Lemma capitalize_keeps_no_underscore (t : string) : forall b,
  underscores_to_spaces t = t ->
  underscores_to_spaces (capitalize_words b t) = capitalize_words b t.
Proof.
  induction t as [|c r IH]; intros b H; cbn in *; [reflexivity|].
  injection H as Hc Hr. rewrite (IH _ Hr).
  assert (Ec : Ascii.eqb c "_" = false).
  { destruct (Ascii.eqb c "_") eqn:E; [|reflexivity].
    apply Ascii.eqb_eq in E. subst c. discriminate Hc. }
  destruct (is_word c && negb b)%bool; [rewrite upper_underscore|]; rewrite Ec;
    reflexivity.
Qed.

Lemma capitalize_words_twice (t : string) : forall b,
  capitalize_words b (capitalize_words b t) = capitalize_words b t.
Proof.
  induction t as [|c r IH]; intros b; cbn; [reflexivity|].
  destruct (is_word c && negb b)%bool eqn:E.
  - rewrite is_word_upper, E, upper_upper, IH. reflexivity.
  - rewrite E, IH. reflexivity.
Qed.

Lemma no_underscore_not_included (t : string) :
  underscores_to_spaces t = t -> includes t "_" = false.
Proof.
  induction t as [|c r IH]; intros H; [reflexivity|].
  cbn in H. injection H as Hc Hr.
  cbn [includes String.prefix].
  destruct (ascii_dec "_" c) as [<-|Hne]; [discriminate Hc|].
  apply IH, Hr.
Qed.

Lemma toLowerCase_capitalize (t : string) : forall b,
  toLowerCase (capitalize_words b t) = toLowerCase t.
Proof.
  induction t as [|c r IH]; intros b; cbn; [reflexivity|].
  rewrite IH. destruct (is_word c && negb b)%bool; [rewrite lower_upper|];
    reflexivity.
Qed.

(** X9. A column title has the length of the column name, contains no
    underscore, and differs from the name only in the case of letters
    and in spaces standing for underscores. *)
Theorem formatColumnName_shape (column : string) :
  String.length (formatColumnName column) = String.length column /\
  includes (formatColumnName column) "_" = false /\
  toLowerCase (formatColumnName column) =
    toLowerCase (underscores_to_spaces column).
Proof.
  unfold formatColumnName. split; [|split].
  - rewrite capitalize_words_length. apply underscores_to_spaces_length.
  - apply no_underscore_not_included, capitalize_keeps_no_underscore,
      underscores_to_spaces_twice.
  - apply toLowerCase_capitalize.
Qed.

(** X10. Formatting a column title again changes nothing. *)
Theorem formatColumnName_idempotent (column : string) :
  formatColumnName (formatColumnName column) = formatColumnName column.
Proof.
  unfold formatColumnName.
  rewrite capitalize_keeps_no_underscore by apply underscores_to_spaces_twice.
  apply capitalize_words_twice.
Qed.

End ColumnTitles.

Example formatColumnName_examples :
  formatColumnName "total_sales_2024" = "Total Sales 2024" /\
  formatColumnName "customerName" = "CustomerName" /\
  formatColumnName "_id" = " Id" /\
  formatColumnName "avg-price_usd" = "Avg-Price Usd".
Proof. repeat split. Qed.

(* ===================================================================== *)
(** * The tabular presenter: more on sorting and filtering *)
(* ===================================================================== *)

Import SortNotions.

Section StringOrder.

Lemma nat_of_ascii_inj (a b : ascii) : nat_of_ascii a = nat_of_ascii b -> a = b.
Proof.
  intros H. rewrite <- (ascii_nat_embedding a), <- (ascii_nat_embedding b), H.
  reflexivity.
Qed.

Lemma str_ltb_irrefl (s : string) : str_ltb s s = false.
Proof.
  induction s as [|a s IH]; cbn [str_ltb]; [reflexivity|].
  rewrite Nat.ltb_irrefl. exact IH.
Qed.

Lemma str_ltb_asym (s : string) : forall t,
  str_ltb s t = true -> str_ltb t s = false.
Proof.
  induction s as [|a s IH]; intros [|b t]; cbn [str_ltb]; try congruence.
  destruct (Nat.ltb_spec (nat_of_ascii a) (nat_of_ascii b)),
           (Nat.ltb_spec (nat_of_ascii b) (nat_of_ascii a));
    try congruence; try lia.
  apply IH.
Qed.

Lemma str_ltb_trans (s : string) : forall t u,
  str_ltb s t = true -> str_ltb t u = true -> str_ltb s u = true.
Proof.
  induction s as [|a s IH]; intros [|b t] [|c u]; cbn [str_ltb]; try congruence.
  destruct (Nat.ltb_spec (nat_of_ascii a) (nat_of_ascii b)),
           (Nat.ltb_spec (nat_of_ascii b) (nat_of_ascii a)),
           (Nat.ltb_spec (nat_of_ascii b) (nat_of_ascii c)),
           (Nat.ltb_spec (nat_of_ascii c) (nat_of_ascii b)),
           (Nat.ltb_spec (nat_of_ascii a) (nat_of_ascii c)),
           (Nat.ltb_spec (nat_of_ascii c) (nat_of_ascii a));
    try congruence; try lia.
  apply IH.
Qed.

Lemma str_ltb_trichotomy (s : string) : forall t,
  str_ltb s t = false -> str_ltb t s = false -> s = t.
Proof.
  induction s as [|a s IH]; intros [|b t]; cbn [str_ltb]; try congruence.
  destruct (Nat.ltb_spec (nat_of_ascii a) (nat_of_ascii b)),
           (Nat.ltb_spec (nat_of_ascii b) (nat_of_ascii a));
    try congruence; try lia.
  intros H1 H2. f_equal; [apply nat_of_ascii_inj; lia | apply IH; assumption].
Qed.

Lemma str_le_total (s t : string) : str_le s t \/ str_le t s.
Proof.
  unfold str_le. destruct (str_ltb t s) eqn:E; [|left; reflexivity].
  right. apply str_ltb_asym, E.
Qed.

Lemma str_le_trans (s t u : string) : str_le s t -> str_le t u -> str_le s u.
Proof.
  unfold str_le. intros Hts Hut.
  destruct (str_ltb u s) eqn:Hus; [|reflexivity].
  destruct (str_ltb s t) eqn:Hst.
  - rewrite (str_ltb_trans _ _ _ Hus Hst) in Hut. discriminate.
  - rewrite (str_ltb_trichotomy _ _ Hst Hts) in Hus. congruence.
Qed.

End StringOrder.

Section SortByOrder.

Context {A : Type}.
Variable cmp : A -> A -> Z.
Variable P : A -> Prop.
Variable le : A -> A -> Prop.
Hypothesis cmp_le : forall a b, P a -> P b -> (cmp a b <= 0 <-> le a b).
Hypothesis le_total : forall a b, P a -> P b -> le a b \/ le b a.
Hypothesis le_trans : forall a b c, P a -> P b -> P c -> le a b -> le b c -> le a c.

Lemma insert_ordered (x : A) (l : list A) :
  P x -> Forall P l -> StronglySorted le l -> StronglySorted le (insert cmp x l).
Proof.
  intros Hx HP Hs. induction l as [|y l IH]; cbn.
  - constructor; constructor.
  - inversion HP as [|? ? Hy HPl]; subst.
    inversion Hs as [|? ? Hsl Hyl]; subst.
    destruct (cmp x y <=? 0) eqn:E.
    + apply Z.leb_le in E. apply (cmp_le x y Hx Hy) in E.
      constructor; [exact Hs|]. constructor; [exact E|].
      rewrite Forall_forall in *. intros a Ha.
      apply (le_trans x y a); auto.
    + apply Z.leb_gt in E.
      assert (Hyx : le y x).
      { destruct (le_total x y Hx Hy) as [H|H]; [|exact H].
        apply (cmp_le x y Hx Hy) in H. lia. }
      constructor; [apply IH; assumption|].
      apply insert_Forall; assumption.
Qed.

Lemma sort_ordered (l : list A) : Forall P l -> StronglySorted le (sort cmp l).
Proof.
  induction l as [|x l IH]; intros HP; cbn; [constructor|].
  inversion HP; subst.
  apply insert_ordered; [assumption | | auto].
  apply sort_Forall. assumption.
Qed.

(** Stability: an element goes in front of the first one it does not
    compare greater than, so it passes no element it compares equal to. *)
Lemma filter_insert (p : A -> bool) (x : A) (l : list A) :
  (forall y, p x = true -> p y = true -> cmp x y <= 0) ->
  filter p (insert cmp x l) = filter p (x :: l).
Proof.
  intros Heq. induction l as [|y l IH]; [reflexivity|].
  cbn [insert]. destruct (cmp x y <=? 0) eqn:E; [reflexivity|].
  apply Z.leb_gt in E. cbn [filter] in *. rewrite IH.
  destruct (p x) eqn:Hpx, (p y) eqn:Hpy; try reflexivity.
  specialize (Heq y eq_refl Hpy). lia.
Qed.

Lemma filter_sort (p : A -> bool) (l : list A) :
  (forall x y, p x = true -> p y = true -> cmp x y <= 0) ->
  filter p (sort cmp l) = filter p l.
Proof.
  intros Heq. induction l as [|x l IH]; [reflexivity|].
  cbn [sort fold_right]. fold (sort cmp l).
  rewrite filter_insert by (intros y; apply Heq).
  cbn [filter]. rewrite IH. reflexivity.
Qed.

End SortByOrder.

Section SortMore.

Variable k : string.

Lemma compareRows_textual d a b :
  textual k a = true -> textual k b = true ->
  compareRows k d a b =
    if str_ltb (text_at k a) (text_at k b)
    then (if Direction_eqb d asc then -1 else 1)
    else if str_ltb (text_at k b) (text_at k a)
         then (if Direction_eqb d asc then 1 else -1)
         else 0.
Proof.
  unfold textual, text_at, compareRows. intros Ha Hb.
  destruct (assoc k a) as [[]|]; try discriminate Ha;
    destruct (assoc k b) as [[]|]; try discriminate Hb; reflexivity.
Qed.

Lemma compareRows_same_value d a b :
  assoc k a = assoc k b -> compareRows k d a b = 0.
Proof.
  intros E. unfold compareRows. rewrite E.
  destruct (nullish (assoc k b)) eqn:N; cbn [andb]; [reflexivity|].
  rewrite str_ltb_irrefl.
  destruct (assoc k b) as [[]|]; try reflexivity.
  destruct (Direction_eqb d asc); lia.
Qed.

(** X13. On a column whose values are neither missing nor numbers the
    ascending sort orders the rows by the lower-cased string form of
    the value, and the descending sort by the reverse order. *)
Theorem sort_orders_text_case_insensitively (rows : list Row) :
  k <> "" -> Forall (fun r => textual k r = true) rows ->
  StronglySorted (fun a b => str_le (text_at k a) (text_at k b))
    (sortedData rows (sort_by k asc)) /\
  StronglySorted (fun a b => str_le (text_at k b) (text_at k a))
    (sortedData rows (sort_by k desc)).
Proof.
  intros Hk Htext. rewrite !sortedData_sort_by by exact Hk. split.
  - apply (sort_ordered (compareRows k asc) (fun r => textual k r = true));
      [| intros; apply str_le_total
       | intros a b c _ _ _; apply str_le_trans | exact Htext].
    intros a b Ha Hb. rewrite compareRows_textual by assumption. cbn.
    unfold str_le.
    destruct (str_ltb (text_at k a) (text_at k b)) eqn:E1.
    + rewrite (str_ltb_asym _ _ E1). split; [reflexivity | lia].
    + destruct (str_ltb (text_at k b) (text_at k a)); split;
        try congruence; lia.
  - apply (sort_ordered (compareRows k desc) (fun r => textual k r = true));
      [| intros; apply str_le_total
       | intros a b c _ _ _ H1 H2; exact (str_le_trans _ _ _ H2 H1) | exact Htext].
    intros a b Ha Hb. rewrite compareRows_textual by assumption. cbn.
    unfold str_le.
    destruct (str_ltb (text_at k a) (text_at k b)) eqn:E1; [split; [lia | congruence]|].
    destruct (str_ltb (text_at k b) (text_at k a)); split; try congruence; lia.
Qed.

(** X14. The comparator is antisymmetric, and comparing in descending
    direction is comparing in ascending direction with the two rows
    exchanged. *)
Theorem comparator_antisymmetric (d : Direction) (a b : Row) :
  compareRows k d b a = - compareRows k d a b /\
  compareRows k desc a b = compareRows k asc b a.
Proof.
  assert (Hflip : forall d', compareRows k d' b a = - compareRows k d' a b).
  { intros d'. unfold compareRows.
    destruct (nullish (assoc k a)) eqn:Na, (nullish (assoc k b)) eqn:Nb;
      cbn [andb]; try (destruct (Direction_eqb d' asc); reflexivity).
    assert (Hs : forall s t,
               (if str_ltb t s then if Direction_eqb d' asc then -1 else 1
                else if str_ltb s t then if Direction_eqb d' asc then 1 else -1 else 0)
               = - (if str_ltb s t then if Direction_eqb d' asc then -1 else 1
                    else if str_ltb t s then if Direction_eqb d' asc then 1 else -1 else 0)).
    { intros s t. destruct (str_ltb s t) eqn:E1.
      - rewrite (str_ltb_asym _ _ E1). destruct (Direction_eqb d' asc); reflexivity.
      - destruct (str_ltb t s); destruct (Direction_eqb d' asc); reflexivity. }
    destruct (assoc k a) as [[]|], (assoc k b) as [[]|];
      try discriminate Na; try discriminate Nb; try apply Hs.
    destruct (Direction_eqb d' asc); lia. }
  split; [apply Hflip|].
  assert (Hs : forall s t,
             (if str_ltb s t then 1 else if str_ltb t s then -1 else 0)
             = (if str_ltb t s then -1 else if str_ltb s t then 1 else 0)).
  { intros s t. destruct (str_ltb s t) eqn:E1; [|reflexivity].
    rewrite (str_ltb_asym _ _ E1). reflexivity. }
  unfold compareRows.
  destruct (nullish (assoc k a)) eqn:Na, (nullish (assoc k b)) eqn:Nb;
    cbn [andb Direction_eqb]; try reflexivity.
  destruct (assoc k a) as [[]|], (assoc k b) as [[]|];
    try discriminate Na; try discriminate Nb; try apply Hs.
  reflexivity.
Qed.

End SortMore.

Section FilterMore.

Lemma toLowerCase_empty (t : string) : toLowerCase t = "" <-> t = "".
Proof. destruct t; cbn; split; congruence. Qed.

Lemma filter_twice {A : Type} (p : A -> bool) (l : list A) :
  filter p (filter p l) = filter p l.
Proof.
  induction l as [|x l IH]; cbn; [reflexivity|].
  destruct (p x) eqn:E; cbn; [rewrite E, IH|]; auto.
Qed.

(** X11. Sorting never loses, repeats or changes a row: for every sort
    configuration the sorted rows are a permutation of the table, and
    the number of rows that pass a filter does not depend on the sort. *)
Theorem sorting_permutes_rows (tableData : list Row) (cfg cfg' : SortConfig)
  (term : string) :
  Permutation tableData (sortedData tableData cfg) /\
  List.length (sortedData tableData cfg) = List.length tableData /\
  List.length (filteredData (sortedData tableData cfg) term) =
    List.length (filteredData (sortedData tableData cfg') term).
Proof.
  split; [apply sortedData_perm|]. split.
  - symmetry. apply Permutation_length, sortedData_perm.
  - apply filteredData_length_perm.
    eapply perm_trans; [apply Permutation_sym, sortedData_perm | apply sortedData_perm].
Qed.

(** X15. Filtering is idempotent, keeps only rows it was given and
    never more of them. *)
Theorem filter_idempotent (sorted : list Row) (term : string) :
  filteredData (filteredData sorted term) term = filteredData sorted term /\
  (forall row, In row (filteredData sorted term) -> In row sorted) /\
  (List.length (filteredData sorted term) <= List.length sorted)%nat.
Proof.
  unfold filteredData. destruct (String.eqb term "").
  - repeat split; auto.
  - split; [apply filter_twice|]. split; [|apply filter_length_le].
    intros row H. apply filter_In in H. tauto.
Qed.

(** X16. The filter ignores the case of the search term: two terms that
    differ only in case keep the same rows. *)
Theorem filter_ignores_case_of_term (sorted : list Row) (t1 t2 : string) :
  toLowerCase t1 = toLowerCase t2 ->
  filteredData sorted t1 = filteredData sorted t2.
Proof.
  intros E. unfold filteredData.
  destruct (String.eqb t1 "") eqn:E1.
  - apply String.eqb_eq in E1. subst t1. cbn in E. symmetry in E.
    apply (proj1 (toLowerCase_empty _)) in E. subst t2. reflexivity.
  - destruct (String.eqb t2 "") eqn:E2.
    + apply String.eqb_eq in E2. subst t2. cbn in E.
      apply (proj1 (toLowerCase_empty _)) in E. subst t1. discriminate E1.
    + apply filter_ext. intros row. unfold row_matches. rewrite E. reflexivity.
Qed.

End FilterMore.

Lemma sort_orders_text_case_insensitively_witness :
  StronglySorted (fun a b => str_le (text_at "name" a) (text_at "name" b))
    (sortedData rows_names (sort_by "name" asc)) /\
  map (text_at "name") (sortedData rows_names (sort_by "name" asc)) =
    ["ann"; "bob"; "bob"; "carl"].
Proof.
  split; [|reflexivity].
  apply (sort_orders_text_case_insensitively "name" rows_names).
  - discriminate.
  - repeat constructor.
Defined.

Lemma filter_ignores_case_of_term_witness :
  filteredData rows_hidden "REF" = filteredData rows_hidden "ref".
Proof. apply filter_ignores_case_of_term. reflexivity. Defined.

(* ===================================================================== *)
(** * The reveal sequence: the text on display *)
(* ===================================================================== *)

Import Session.

Section DisplayedText.

Lemma split_space_cons (text : string) :
  exists w ws, split_space text = w :: ws.
Proof.
  pose proof (split_space_nonempty text) as H.
  destruct (split_space text) as [|w ws]; [cbn in H; lia|].
  exists w, ws. reflexivity.
Qed.

(** Joining the words with spaces gives the text back. *)
Lemma join_split_space (text : string) : join " " (split_space text) = text.
Proof.
  induction text as [|c r IH]; [reflexivity|].
  cbn [split_space]. destruct (split_space_cons r) as (w & ws & E).
  rewrite E in *. destruct (Ascii.eqb c " ") eqn:Ec.
  - apply Ascii.eqb_eq in Ec. subst c.
    change (join " " ("" :: w :: ws)) with ("" ++ " " ++ join " " (w :: ws))%string.
    rewrite IH. reflexivity.
  - rewrite <- IH. destruct ws; reflexivity.
Qed.

Lemma shown_split_space (text : string) :
  join " " (drop_empty (split_space text)) = drop_spaces text.
Proof.
  induction text as [|c r IH]; [reflexivity|].
  cbn [split_space drop_spaces].
  destruct (Ascii.eqb c " ") eqn:Ec; [exact IH|].
  destruct (split_space_cons r) as (w & ws & E).
  pose proof (join_split_space r) as Hr. rewrite E in *.
  cbn [drop_empty String.eqb]. rewrite <- Hr. destruct ws; reflexivity.
Qed.

Lemma string_app_assoc (a b c : string) :
  ((a ++ b) ++ c = a ++ (b ++ c))%string.
Proof. induction a as [|x a IH]; cbn; [reflexivity | rewrite IH; reflexivity]. Qed.

Lemma join_snoc (sep : string) (l : list string) (w : string) :
  l <> [] -> join sep (l ++ [w]) = (join sep l ++ sep ++ w)%string.
Proof.
  induction l as [|x l IH]; [congruence|]. intros _.
  destruct l as [|y l]; [reflexivity|].
  change (join sep ((x :: y :: l) ++ [w]))
    with (x ++ sep ++ join sep ((y :: l) ++ [w]))%string.
  rewrite IH by discriminate.
  change (join sep (x :: y :: l)) with (x ++ sep ++ join sep (y :: l))%string.
  rewrite !string_app_assoc. reflexivity.
Qed.

Lemma join_head_nonempty (sep x : string) (l : list string) :
  x <> "" -> String.eqb (join sep (x :: l)) "" = false.
Proof.
  intros Hx. destruct x as [|c x]; [congruence|].
  destruct l; reflexivity.
Qed.

Lemma shown_snoc (l : list string) (w : string) :
  join " " (drop_empty (l ++ [w])) =
  (if String.eqb (join " " (drop_empty l)) "" then w
   else join " " (drop_empty l) ++ " " ++ w)%string.
Proof.
  induction l as [|x l IH].
  - cbn. destruct (String.eqb w "") eqn:E; [|reflexivity].
    apply String.eqb_eq in E. subst. reflexivity.
  - cbn [app drop_empty]. destruct (String.eqb x "") eqn:Ex; [exact IH|].
    apply String.eqb_neq in Ex.
    rewrite (join_head_nonempty " " x l Ex).
    change (x :: l ++ [w]) with ((x :: l) ++ [w]).
    apply join_snoc. discriminate.
Qed.

Lemma firstn_snoc_nth {A : Type} (d : A) (l : list A) : forall i,
  (i < List.length l)%nat -> firstn (S i) l = firstn i l ++ [nth i l d].
Proof.
  induction l as [|x l IH]; intros i Hi; [cbn in Hi; lia|].
  destruct i as [|i]; [reflexivity|].
  cbn [firstn nth app]. rewrite <- IH by (cbn in Hi; lia). reflexivity.
Qed.

Variable words : list string.

(** The text on display is the words revealed so far. *)
Lemma displayed_invariant (es : list TimerEvent) : forall st,
  (currentWordIndex st <= List.length words)%nat ->
  displayedText st = join " " (drop_empty (firstn (currentWordIndex st) words)) ->
  (currentWordIndex (run words es st) <= List.length words)%nat /\
  displayedText (run words es st) =
    join " " (drop_empty (firstn (currentWordIndex (run words es st)) words)).
Proof.
  induction es as [|e es IH]; intros st Hi Hd; [split; assumption|].
  cbn [run fold_left]. apply IH; destruct e; cbn [step]; try assumption.
  - unfold tick.
    destruct (Nat.ltb_spec (currentWordIndex st) (List.length words)); cbn; [lia|].
    destruct (negb (isComplete st)); cbn; assumption.
  - unfold tick.
    destruct (Nat.ltb_spec (currentWordIndex st) (List.length words)) as [Hlt|Hge].
    + cbn [displayedText currentWordIndex].
      rewrite (firstn_snoc_nth "" words _ Hlt), shown_snoc, <- Hd. reflexivity.
    + destruct (negb (isComplete st)); cbn; assumption.
Qed.

End DisplayedText.

(** X17. While typing, the text on display is the words revealed so
    far joined by single spaces, without the empty words in front; once
    the message is revealed it is the whole text without its leading
    spaces, so a text that does not start with a space is displayed
    exactly. *)
Theorem displayed_text_is_the_text (text : string) (es : list TimerEvent) :
  ((ticks es <= List.length (split_space text))%nat ->
   displayedText (run (split_space text) es initial) =
     join " " (drop_empty (firstn (ticks es) (split_space text)))) /\
  ((List.length (split_space text) < ticks es)%nat ->
   displayedText (run (split_space text) es initial) = drop_spaces text) /\
  (drop_spaces text = text \/ exists rest, text = String " " rest).
Proof.
  destruct (displayed_invariant (split_space text) es initial) as [_ Hd];
    [cbn; lia | reflexivity |].
  destruct (run_typing (split_space text) es 0 initial initial_typing
              (Nat.le_0_l _)) as [Htyping Hrevealed].
  cbn [Nat.add] in Htyping, Hrevealed.
  split; [|split].
  - intros Hle. destruct (Htyping Hle) as (Hi & _). rewrite Hd, Hi. reflexivity.
  - intros Hlt. destruct (Hrevealed Hlt) as (_ & _ & _ & _ & Hi).
    rewrite Hd, Hi, firstn_all. apply shown_split_space.
  - destruct text as [|c r]; [left; reflexivity|]. cbn.
    destruct (Ascii.eqb c " ") eqn:E; [|left; reflexivity].
    right. apply Ascii.eqb_eq in E. subst. exists r. reflexivity.
Qed.

(** X18. [Revealed] is terminal: whatever timer events still arrive,
    the message stays revealed, the text on display does not change and
    what is shown of chart, table and details does not change. *)
Theorem revealed_is_terminal (m : AiMessage) (words : list string)
  (es : list TimerEvent) (st : RevealState) :
  revealed words st ->
  revealed words (run words es st) /\
  displayedText (run words es st) = displayedText st /\
  canShowChart m (run words es st) = canShowChart m st /\
  canShowTable m (run words es st) = canShowTable m st /\
  detailsVisible m (run words es st) = detailsVisible m st /\
  caretRendered (run words es st) = false.
Proof.
  intros Hr.
  assert (Htext : forall es' st', revealed words st' ->
            displayedText (run words es' st') = displayedText st').
  { unfold run. induction es' as [|e es' IH]; intros st' Hr'; [reflexivity|].
    cbn [fold_left]. destruct e; cbn [step].
    - assert (E : tick words st' = st').
      { pose proof Hr' as (Hc & _ & _ & _ & Hi). unfold tick.
        rewrite Hi, Nat.ltb_irrefl, Hc. reflexivity. }
      rewrite E. apply IH, Hr'.
    - rewrite (IH (blink st')) by (apply blink_revealed, Hr'). reflexivity. }
  pose proof (run_revealed words es st Hr) as Hr'.
  split; [exact Hr'|]. split; [apply Htext, Hr|].
  destruct Hr as (Hc & Hd & _). destruct Hr' as (Hc' & Hd' & _).
  unfold canShowChart, canShowTable, detailsVisible, caretRendered.
  rewrite Hd, Hd', Hc'. repeat split.
Qed.

Lemma displayed_text_is_the_text_witness :
  displayedText (run (split_space "Sales  by region") [Tick; Blink; Tick; Tick] initial)
    = "Sales  by" /\
  displayedText
    (run (split_space " Sales by region") [Tick; Tick; Tick; Tick; Tick] initial)
    = "Sales by region".
Proof.
  destruct (displayed_text_is_the_text "Sales  by region" [Tick; Blink; Tick; Tick])
    as (Htyping & _).
  destruct (displayed_text_is_the_text " Sales by region" [Tick; Tick; Tick; Tick; Tick])
    as (_ & Hdone & _).
  split.
  - rewrite Htyping; [reflexivity | cbn; lia].
  - rewrite Hdone; [reflexivity | cbn; lia].
Defined.

Lemma revealed_is_terminal_witness :
  displayedText
    (run (split_space "ok") [Tick; Blink; Tick]
       (run (split_space "ok") [Tick; Tick] initial)) = "ok".
Proof.
  destruct (revealed_is_terminal chart_message (split_space "ok") [Tick; Blink; Tick]
              (run (split_space "ok") [Tick; Tick] initial)) as (_ & Htext & _).
  - repeat split.
  - rewrite Htext. reflexivity.
Defined.

(* ===================================================================== *)
(** * From payload to what is shown *)
(* ===================================================================== *)

Section PayloadToView.

Variable now : string.

Lemma reply_obj (status : Z) (fields : Obj) :
  ok status = true ->
  build_aiMessage now (JObj fields) =
    Normal (reply now (FetchResolves status (Some (JObj fields)))).
Proof.
  intros Hok. unfold reply, try_block. rewrite Hok. cbn [negb].
  rewrite build_aiMessage_obj. reflexivity.
Qed.

Lemma reply_failure (o : FetchOutcome) :
  network_failure o = true -> reply now o = errorMessage now.
Proof.
  intros Hf. unfold reply, try_block. destruct o as [|status body]; [reflexivity|].
  cbn in Hf. destruct (ok status); cbn in *; [|reflexivity].
  destruct body; [discriminate Hf | reflexivity].
Qed.

Lemma truthy_or_default (v : option JSON) (d : JSON) :
  truthy d = false -> truthy (or_default v d) = truthy_opt v.
Proof.
  intros Hd. destruct v as [x|]; cbn; [|exact Hd].
  destruct (truthy x) eqn:E; [exact E | exact Hd].
Qed.

Lemma strict_eq_or_unknown (v : option JSON) (lit : string) :
  String.eqb "unknown" lit = false -> String.eqb "" lit = false ->
  strict_eq_str (or_default v (JStr "unknown")) lit
    = Legacy.strict_eq_str_opt v lit.
Proof.
  intros H1 H2. unfold or_default, Legacy.strict_eq_str_opt.
  destruct v as [x|]; [|exact H1].
  destruct (truthy x) eqn:E; [reflexivity|].
  cbn [strict_eq_str]. rewrite H1.
  destruct x; cbn [strict_eq_str truthy] in *; try reflexivity; try discriminate E.
  apply negb_false_iff, String.eqb_eq in E. subst. symmetry. exact H2.
Qed.

(** X19. The details panel is rendered only once the message is
    revealed and only for a payload that is successful, resolvable and
    carries a query text; it is never rendered for the connectivity
    message. *)
Theorem details_panel_only_for_resolved_queries (st : RevealState) :
  (forall o, network_failure o = true ->
     detailsVisible (reply now o) st = false) /\
  (forall status fields, ok status = true ->
     detailsVisible (reply now (FetchResolves status (Some (JObj fields)))) st =
       (messageDone st && truthy_opt (assoc "success" fields)
        && truthy_opt (assoc "resolvable" fields)
        && truthy_opt (assoc "query" fields))%bool).
Proof.
  split.
  - intros o Hf. rewrite (reply_failure o Hf).
    unfold detailsVisible, QueryDetails_renders. cbn. apply andb_false_r.
  - intros status fields Hok.
    pose proof (reply_obj status fields Hok) as H.
    rewrite build_aiMessage_obj in H. injection H as <-.
    unfold detailsVisible, QueryDetails_renders.
    destruct (truthy_opt (assoc "success" fields)),
             (truthy_opt (assoc "resolvable" fields));
      cbn -[truthy truthy_opt or_default];
      rewrite ?truthy_or_default by reflexivity;
      destruct (messageDone st); cbn -[truthy_opt];
      rewrite ?negb_involutive; reflexivity.
Qed.

(** X20. A chart or a table is shown only once the message is revealed
    and only for a successful, resolvable payload whose own
    [result_type] is ["chart"] (with chart data) or ["table"] (with a
    result); a failed or unresolved answer shows neither, whatever
    else the payload carries. *)
Theorem chart_and_table_only_for_resolved_results (st : RevealState) :
  (forall o, network_failure o = true ->
     canShowChart (reply now o) st = false /\
     canShowTable (reply now o) st = false) /\
  (forall status fields, ok status = true ->
     canShowChart (reply now (FetchResolves status (Some (JObj fields)))) st =
       (messageDone st && truthy_opt (assoc "success" fields)
        && truthy_opt (assoc "resolvable" fields)
        && Legacy.strict_eq_str_opt (assoc "result_type" fields) "chart"
        && truthy_opt (assoc "chart_data" fields))%bool /\
     canShowTable (reply now (FetchResolves status (Some (JObj fields)))) st =
       (messageDone st && truthy_opt (assoc "success" fields)
        && truthy_opt (assoc "resolvable" fields)
        && Legacy.strict_eq_str_opt (assoc "result_type" fields) "table"
        && truthy_opt (assoc "result" fields))%bool).
Proof.
  split.
  - intros o Hf. rewrite (reply_failure o Hf).
    unfold canShowChart, canShowTable. cbn. rewrite !andb_false_r. split; reflexivity.
  - intros status fields Hok.
    pose proof (reply_obj status fields Hok) as H.
    rewrite build_aiMessage_obj in H. injection H as <-.
    unfold canShowChart, canShowTable.
    destruct (truthy_opt (assoc "success" fields)),
             (truthy_opt (assoc "resolvable" fields));
      cbn -[truthy truthy_opt or_default strict_eq_str Legacy.strict_eq_str_opt];
      rewrite ?strict_eq_or_unknown by reflexivity;
      rewrite ?truthy_or_default by reflexivity;
      destruct (messageDone st); cbn -[truthy_opt Legacy.strict_eq_str_opt];
      rewrite ?andb_false_r; split; reflexivity.
Qed.

End PayloadToView.

(* ===================================================================== *)
(** * The chart components *)
(* ===================================================================== *)

Section Charts.

(** X21. [Chart] of [Chart.jsx] never throws: it draws a plot exactly
    when it is given an object with a truthy [data] property, handing
    over that object's [data], [layout] and [config], and shows its
    "no chart data" placeholder for every other value. *)
Theorem plotly_chart_never_throws (plotlyJson : JSON) :
  (exists view, PlotlyChart.Chart plotlyJson = Normal view) /\
  (forall d l c,
     PlotlyChart.Chart plotlyJson = Normal (PlotlyChart.Plot d l c) <->
     exists o, plotlyJson = JObj o /\ assoc "data" o = Some d /\
               truthy d = true /\ l = assoc "layout" o /\ c = assoc "config" o) /\
  (PlotlyChart.Chart plotlyJson = Normal PlotlyChart.NoChartData <->
   forall o, plotlyJson = JObj o -> truthy_opt (assoc "data" o) = false).
Proof.
  unfold PlotlyChart.Chart.
  destruct plotlyJson as [|b|n|s|items|o].
  1-5: (split; [eexists; cbn; repeat match goal with
                 | |- context [if ?b then _ else _] => destruct b
                 end; reflexivity|]; split;
        [intros d l c; split;
           [cbn; repeat match goal with
                 | |- context [if ?b then _ else _] => destruct b
                 end; discriminate
           | intros (o & E & _); discriminate E]
        | split; [intros _ o E; discriminate E|];
          intros _; cbn; repeat match goal with
                 | |- context [if ?b then _ else _] => destruct b
                 end; reflexivity]).
  cbn [truthy negb get bind].
  destruct (assoc "data" o) as [d0|] eqn:Ed; cbn [truthy_opt or_default].
  - destruct (truthy d0) eqn:Td; cbn [negb].
    + split; [eexists; reflexivity|]. split.
      * intros d l c. split.
        -- intros H. injection H as <- <- <-. exists o. repeat split; assumption.
        -- intros (o' & E & Hd & Ht & -> & ->). injection E as <-.
           rewrite Ed in Hd. injection Hd as <-. reflexivity.
      * split; [discriminate|]. intros H. specialize (H o eq_refl).
        rewrite Ed in H. cbn [truthy_opt] in H. congruence.
    + split; [eexists; reflexivity|]. split.
      * intros d l c. split; [discriminate|].
        intros (o' & E & Hd & Ht & _). injection E as <-.
        rewrite Ed in Hd. injection Hd as <-. congruence.
      * split; [|reflexivity]. intros _ o' E. injection E as <-.
        rewrite Ed. exact Td.
  - split; [eexists; reflexivity|]. split.
    + intros d l c. split; [discriminate|].
      intros (o' & E & Hd & _). injection E as <-. congruence.
    + split; [|reflexivity]. intros _ o' E. injection E as <-.
      rewrite Ed. reflexivity.
Qed.

End Charts.

Section ChartJs.

Import ChartJsChart.

Lemma chartjs_on_object (o : Obj) :
  Chart (Some (JObj o)) None =
  if (truthy_opt (assoc "type" o) && truthy_opt (assoc "data" o)
      && truthy_opt (assoc "options" o))%bool
  then bind (call_toLowerCase (or_default (assoc "type" o) JNull))
         (fun lowered =>
            Normal (ChartJs (kind_of lowered)
                      (or_default (assoc "data" o) JNull)
                      (or_default (assoc "options" o) JNull)))
  else if (truthy_opt (assoc "data" o) && truthy_opt (assoc "layout" o))%bool
       then Normal (Plotly (or_default (assoc "data" o) JNull)
                      (or_default (assoc "layout" o) JNull))
       else Normal UnknownFormat.
Proof. reflexivity. Qed.

Lemma chartjs_on_other (d : JSON) :
  (forall o, d <> JObj o) ->
  Chart (Some d) None = Normal (if truthy d then UnknownFormat else NoChartData).
Proof.
  intros H. destruct d as [|b|n|s|items|o]; try reflexivity.
  - destruct b; reflexivity.
  - unfold Chart. cbn [truthy_opt].
    destruct (truthy (JNum n)) eqn:E; [rewrite E|]; reflexivity.
  - unfold Chart. cbn [truthy_opt].
    destruct (truthy (JStr s)) eqn:E; [rewrite E|]; reflexivity.
  - exfalso. apply (H o). reflexivity.
Qed.

(** X22. The [Chart] that knows Chart.js: [plotlyJson] wins over
    [chartData] when it is truthy; an object with truthy [type], [data]
    and [options] is drawn as a Chart.js chart even when it also has a
    [layout], with the kind read from the lower-cased type and a bar
    chart for any unknown type; and the component throws in exactly one
    situation, when such an object's [type] is not a string. *)
Theorem chartjs_chart_behaviour (plotlyJson chartData : option JSON) :
  (truthy_opt plotlyJson = true ->
     Chart plotlyJson chartData = Chart plotlyJson None) /\
  (truthy_opt plotlyJson = false ->
     Chart plotlyJson chartData = Chart chartData None) /\
  (forall e,
     Chart plotlyJson None = Throw e <->
     e = TypeError /\
     exists o v, plotlyJson = Some (JObj o) /\ assoc "type" o = Some v /\
       truthy v = true /\ (forall s, v <> JStr s) /\
       truthy_opt (assoc "data" o) = true /\
       truthy_opt (assoc "options" o) = true) /\
  (forall o s data options,
     plotlyJson = Some (JObj o) ->
     assoc "type" o = Some (JStr s) -> s <> "" ->
     assoc "data" o = Some data -> truthy data = true ->
     assoc "options" o = Some options -> truthy options = true ->
     Chart plotlyJson None =
       Normal (ChartJs (kind_of (toLowerCase s)) data options)) /\
  (forall s, ~ In (toLowerCase s) ["line"; "pie"; "doughnut"; "scatter"] ->
             kind_of (toLowerCase s) = Bar).
Proof.
  split; [|split; [|split; [|split]]].
  - intros H. unfold Chart. rewrite H. reflexivity.
  - intros H. unfold Chart. rewrite H.
    destruct chartData as [d|]; [|reflexivity]. cbn [truthy_opt].
    destruct (truthy d) eqn:E; cbv beta iota zeta; rewrite ?E; reflexivity.
  - intros e. destruct plotlyJson as [d|].
    2:{ split; [discriminate|]. intros (_ & o & v & E & _). discriminate E. }
    assert (Hobj : (exists o, d = JObj o) \/ (forall o, d <> JObj o)).
    { destruct d; try (right; discriminate). left. eexists. reflexivity. }
    destruct Hobj as [[o ->]|Hno].
    2:{ rewrite (chartjs_on_other d Hno). split; [discriminate|].
        intros (_ & o & v & E & _). injection E as ->. exfalso. apply (Hno o).
        reflexivity. }
    rewrite chartjs_on_object.
    destruct (assoc "type" o) as [v|] eqn:Et; cbn [truthy_opt andb].
    2:{ split.
        - destruct (truthy_opt (assoc "data" o) && truthy_opt (assoc "layout" o))%bool;
            discriminate.
        - intros (_ & o' & v & E & Ht & _). injection E as <-. congruence. }
    destruct (truthy v) eqn:Tv; cbn [andb].
    2:{ split.
        - destruct (truthy_opt (assoc "data" o) && truthy_opt (assoc "layout" o))%bool;
            discriminate.
        - intros (_ & o' & v' & E & Ht & Tv' & _). injection E as <-.
          rewrite Et in Ht. injection Ht as <-. congruence. }
    destruct (truthy_opt (assoc "data" o)) eqn:Td; cbn [andb].
    2:{ split; [discriminate|].
        intros (_ & o' & v' & E & _ & _ & _ & Td' & _). injection E as <-. congruence. }
    destruct (truthy_opt (assoc "options" o)) eqn:To.
    2:{ split.
        - destruct (truthy_opt (assoc "layout" o)); discriminate.
        - intros (_ & o' & v' & E & _ & _ & _ & _ & To'). injection E as <-. congruence. }
    unfold or_default at 1. rewrite Tv.
    destruct v as [|b|n|s|items|fields]; cbn [call_toLowerCase bind].
    4:{ split; [discriminate|].
        intros (_ & o' & v' & E & Ht & _ & Hns & _). injection E as <-.
        rewrite Et in Ht. injection Ht as <-. exfalso. apply (Hns s). reflexivity. }
    all: split; [intros H; injection H as <-; split; [reflexivity|];
                 exists o; eexists; repeat split; try eassumption; discriminate
                | intros (-> & _); reflexivity].
  - intros o s data options -> Et Hs Ed Td Eo To.
    rewrite chartjs_on_object, Et, Ed, Eo. cbn [truthy_opt or_default].
    rewrite Td, To. cbn [truthy].
    apply String.eqb_neq in Hs. rewrite Hs. reflexivity.
  - intros s Hs. unfold kind_of.
    destruct (String.eqb_spec (toLowerCase s) "line") as [E|_];
      [exfalso; apply Hs; cbn; auto|].
    destruct (String.eqb_spec (toLowerCase s) "bar"); [reflexivity|].
    destruct (String.eqb_spec (toLowerCase s) "pie") as [E|_];
      [exfalso; apply Hs; cbn; auto|].
    destruct (String.eqb_spec (toLowerCase s) "doughnut") as [E|_];
      [exfalso; apply Hs; cbn; auto|].
    destruct (String.eqb_spec (toLowerCase s) "scatter") as [E|_];
      [exfalso; apply Hs; cbn; auto|].
    reflexivity.
Qed.

End ChartJs.

(* ===================================================================== *)
(** * The earlier contract *)
(* ===================================================================== *)

Section LegacyContract.

Variable now : string.

Lemma legacy_diagnostics_obj (o : Obj) :
  exists d, Legacy.diagnostics_of (JObj o) = Normal d.
Proof. eexists. reflexivity. Qed.

Lemma assoc_cons_other (k k' : string) (v : JSON) (o : Obj) :
  String.eqb k' k = false -> assoc k ((k', v) :: o) = assoc k o.
Proof. intros H. cbn [assoc]. rewrite H. reflexivity. Qed.

Lemma legacy_get_result (o : Obj) (k : string) :
  get (or_default (assoc "result" o) (JObj [])) k =
  Normal (match assoc "result" o with
          | Some (JObj r) => assoc k r
          | _ => None
          end).
Proof.
  unfold or_default.
  destruct (assoc "result" o) as [[|b|n|s|items|r]|]; try reflexivity.
  - destruct b; reflexivity.
  - destruct (truthy (JNum n)); reflexivity.
  - destruct (truthy (JStr s)); reflexivity.
Qed.

Lemma legacy_ignores_success (o : Obj) (v : JSON) :
  Legacy.build_aiMessage now (JObj (("success", v) :: o)) =
  Legacy.build_aiMessage now (JObj o).
Proof.
  unfold Legacy.build_aiMessage, Legacy.diagnostics_of.
  cbn [get]. rewrite !assoc_cons_other by reflexivity. reflexivity.
Qed.

Lemma legacy_build_obj (o : Obj) :
  exists m : Legacy.Message,
    Legacy.build_aiMessage now (JObj o) = Normal m /\
    Legacy.resolvable m = Some (truthy_opt (assoc "resolvable" o)) /\
    truthy (Legacy.content m) = true /\
    Legacy.result_type m =
      (if truthy_opt (assoc "resolvable" o) then
         match assoc "result" o with
         | Some (JObj r) =>
             if Legacy.strict_eq_str_opt (assoc "type" r) "text" then Some "text"
             else if Legacy.strict_eq_str_opt (assoc "type" r) "chart"
                  then Some "chart" else None
         | _ => None
         end
       else None) /\
    (Legacy.result_type m = Some "text" -> exists v, Legacy.text_value m = Some v).
Proof.
  unfold Legacy.build_aiMessage. cbn [get bind].
  rewrite !legacy_get_result. cbn [bind].
  destruct (truthy_opt (assoc "resolvable" o)) eqn:R; cbn [negb];
    [destruct (assoc "result" o) as [[|b|n|s|items|r]|];
     [| | | | |destruct (Legacy.strict_eq_str_opt (assoc "type" r) "text");
               [|destruct (Legacy.strict_eq_str_opt (assoc "type" r) "chart")]|]|];
    cbn [Legacy.strict_eq_str_opt Legacy.diagnostics_of get bind];
    (eexists; split; [reflexivity|];
     cbn [Legacy.resolvable Legacy.content Legacy.result_type Legacy.text_value];
     split; [reflexivity|];
     split; [apply or_default_truthy; reflexivity|];
     split; [reflexivity|];
     first [discriminate | intros _; eexists; reflexivity]).
Qed.

(** X23. The earlier normaliser never throws on an object.  The
    message is resolvable exactly when the payload's [resolvable] is
    truthy; it is a text or a chart answer exactly when, besides, the
    payload's [result] is an object whose [type] is ["text"] or
    ["chart"]; its text is always truthy; and the payload's [success]
    is never consulted. *)
Theorem legacy_normalisation (o : Obj) :
  exists m : Legacy.Message,
    Legacy.build_aiMessage now (JObj o) = Normal m /\
    Legacy.resolvable m = Some (truthy_opt (assoc "resolvable" o)) /\
    truthy (Legacy.content m) = true /\
    Legacy.result_type m =
      (if truthy_opt (assoc "resolvable" o) then
         match assoc "result" o with
         | Some (JObj r) =>
             if Legacy.strict_eq_str_opt (assoc "type" r) "text" then Some "text"
             else if Legacy.strict_eq_str_opt (assoc "type" r) "chart"
                  then Some "chart" else None
         | _ => None
         end
       else None) /\
    (Legacy.result_type m = Some "text" -> exists v, Legacy.text_value m = Some v) /\
    (forall v, Legacy.build_aiMessage now (JObj (("success", v) :: o)) =
               Legacy.build_aiMessage now (JObj o)).
Proof.
  destruct (legacy_build_obj o) as (m & H1 & H2 & H3 & H4 & H5).
  exists m. split; [exact H1|]. split; [exact H2|]. split; [exact H3|].
  split; [exact H4|]. split; [exact H5|].
  intros v. apply legacy_ignores_success.
Qed.

End LegacyContract.

(* ===================================================================== *)
(** * The conversation store over a whole session *)
(* ===================================================================== *)

Section Sessions.

Lemma extends_refl (c : Chat) : extends c c.
Proof. split; [reflexivity|]. exists []. rewrite app_nil_r. reflexivity. Qed.

Lemma extends_trans (a b c : Chat) : extends a b -> extends b c -> extends a c.
Proof.
  intros (Hi1 & m1 & H1) (Hi2 & m2 & H2). split; [congruence|].
  exists (m1 ++ m2). rewrite H2, H1, app_assoc. reflexivity.
Qed.

Lemma Forall2_extends_refl (l : list Chat) : Forall2 extends l l.
Proof. induction l; constructor; [apply extends_refl | assumption]. Qed.

Lemma Forall2_extends_trans (l1 : list Chat) : forall l2 l3,
  Forall2 extends l1 l2 -> Forall2 extends l2 l3 -> Forall2 extends l1 l3.
Proof.
  induction l1 as [|a l1 IH]; intros l2 l3 H12 H23.
  - inversion H12; subst. inversion H23; subst. constructor.
  - inversion H12 as [|? b ? l2' Hab H12']; subst.
    inversion H23 as [|? c ? l3' Hbc H23']; subst.
    constructor; [eapply extends_trans; eassumption | eapply IH; eassumption].
Qed.

Lemma Forall2_extends_submitted cur content t0 a first (l : list Chat) :
  Forall2 extends l (map (submitted cur content t0 a first) l).
Proof.
  induction l as [|c l IH]; cbn; constructor; [|exact IH].
  unfold submitted. destruct (String.eqb (id c) cur); [|apply extends_refl].
  split; [reflexivity|]. eexists. reflexivity.
Qed.

Lemma page_step_extends (st : State) (ev : PageEvent) :
  exists front kept,
    chatHistory (page_step st ev) = front ++ kept /\
    Forall2 extends (chatHistory st) kept.
Proof.
  destruct ev as [value|t0 t1 o during|e]; cbn [page_step].
  - exists [], (chatHistory st). split; [reflexivity | apply Forall2_extends_refl].
  - unfold handleSubmit.
    destruct (String.eqb (trim (input st)) "" || isLoading st)%bool.
    + exists [], (chatHistory st). split; [reflexivity | apply Forall2_extends_refl].
    + cbn [chatHistory].
      destruct (String.eqb (currentChatId st) "") eqn:E.
      * unfold handleSendMessage. rewrite E.
        exists [], (chatHistory st). split; [reflexivity | apply Forall2_extends_refl].
      * apply String.eqb_neq in E. rewrite handleSendMessage_history by exact E.
        eexists. eexists. split; [reflexivity|]. apply Forall2_extends_submitted.
  - destruct e as [i|i]; cbn.
    + exists [{| id := i; title := "New Chat"; messages := [] |}], (chatHistory st).
      split; [reflexivity | apply Forall2_extends_refl].
    + exists [], (chatHistory st). split; [reflexivity | apply Forall2_extends_refl].
Qed.

(** X24. Over a whole session the history only grows: whatever the
    user does, every chat that existed is still there, in the same
    order and with the same id, its earlier messages unchanged and in
    front of any new ones; new chats only appear in front. *)
Theorem history_is_append_only (evs : list PageEvent) (st : State) :
  exists front kept,
    chatHistory (fold_left page_step evs st) = front ++ kept /\
    Forall2 extends (chatHistory st) kept.
Proof.
  revert st. induction evs as [|ev evs IH]; intros st; cbn [fold_left].
  - exists [], (chatHistory st). split; [reflexivity | apply Forall2_extends_refl].
  - destruct (page_step_extends st ev) as (f1 & k1 & E1 & H1).
    destruct (IH (page_step st ev)) as (f2 & k2 & E2 & H2).
    rewrite E1 in H2. apply Forall2_app_inv_l in H2.
    destruct H2 as (k2a & k2b & Ha & Hb & ->).
    exists (f2 ++ k2a), k2b. split; [rewrite E2, app_assoc; reflexivity|].
    eapply Forall2_extends_trans; eassumption.
Qed.

End Sessions.

Section SessionInvariant.

Lemma has_chat_map (i : string) (g : Chat -> Chat) (l : list Chat) :
  (forall c, id (g c) = id c) -> has_chat i (map g l) = has_chat i l.
Proof.
  intros Hid. unfold has_chat. induction l as [|c l IH]; cbn; [reflexivity|].
  rewrite Hid, IH. reflexivity.
Qed.

Lemma ids_map (g : Chat -> Chat) (l : list Chat) :
  (forall c, id (g c) = id c) ->
  forallb (fun c => negb (String.eqb (id c) "")) (map g l) =
  forallb (fun c => negb (String.eqb (id c) "")) l.
Proof.
  intros Hid. induction l as [|c l IH]; cbn; [reflexivity|].
  rewrite Hid, IH. reflexivity.
Qed.

Lemma append_to_id cur m (c : Chat) :
  id (if String.eqb (id c) cur
      then {| id := id c; title := title c; messages := messages c ++ [m] |}
      else c) = id c.
Proof. destruct (String.eqb (id c) cur); reflexivity. Qed.

Lemma retitle_id cur content (c : Chat) :
  id (if String.eqb (id c) cur
      then {| id := id c; title := truncated_title content; messages := messages c |}
      else c) = id c.
Proof. destruct (String.eqb (id c) cur); reflexivity. Qed.

Lemma send_before_listed t0 content st : listed st -> listed (send_before t0 content st).
Proof.
  intros [H1 H2]. unfold listed, send_before. cbn [chatHistory currentChatId].
  destruct (first_message (currentChatId st) (chatHistory st));
    unfold retitle, append_to;
    rewrite ?has_chat_map, ?ids_map
      by (intros; first [apply append_to_id | apply retitle_id]);
    split; assumption.
Qed.

Lemma send_after_listed t1 origin o st : listed st -> listed (send_after t1 origin o st).
Proof.
  intros [H1 H2]. unfold listed, send_after. cbn [chatHistory currentChatId].
  unfold append_to. rewrite has_chat_map, ids_map by (intros; apply append_to_id).
  split; assumption.
Qed.

Lemma ui_step_listed st e : deliverable st e = true -> listed st -> listed (ui_step st e).
Proof.
  intros Hd [H1 H2]. destruct e as [i|i]; cbn in *.
  - split; [unfold has_chat; cbn; rewrite String.eqb_refl; reflexivity|].
    cbn. rewrite Hd, H2. reflexivity.
  - split; assumption.
Qed.

Lemma ui_fold_listed es : forall st,
  deliverable_all st es = true -> listed st -> listed (fold_left ui_step es st).
Proof.
  induction es as [|e es IH]; intros st Hd Hl; [exact Hl|].
  cbn in Hd. apply andb_true_iff in Hd. destruct Hd as [He Hes].
  cbn [fold_left]. apply IH; [exact Hes | apply ui_step_listed; assumption].
Qed.

Lemma page_step_well_formed st ev :
  deliverable_event st ev = true -> well_formed st -> well_formed (page_step st ev).
Proof.
  intros Hd (H1 & H2 & H3). destruct ev as [value|t0 t1 o during|e]; cbn [page_step].
  - repeat split; assumption.
  - unfold handleSubmit.
    destruct (String.eqb (trim (input st)) "" || isLoading st)%bool;
      [repeat split; assumption|].
    unfold handleSendMessage.
    destruct (String.eqb (currentChatId st) ""); [repeat split; assumption|].
    cbn in Hd.
    destruct (send_after_listed t1 (currentChatId st) o
                (fold_left ui_step during (send_before t0 (trim (input st)) st)))
      as [L1 L2].
    { apply ui_fold_listed; [exact Hd|]. apply send_before_listed. split; assumption. }
    repeat split; assumption.
  - destruct (ui_step_listed st e Hd (conj H1 H2)) as [L1 L2].
    repeat split; try assumption. destruct e; exact H3.
Qed.

Lemma has_chat_find (i : string) (h : list Chat) :
  has_chat i h = true -> exists c, find_chat i h = Some c.
Proof.
  unfold has_chat, find_chat. induction h as [|c h IH]; cbn; [discriminate|].
  destruct (String.eqb (id c) i); [eexists; reflexivity | exact IH].
Qed.

End SessionInvariant.

Section TrimAndTitle.

Lemma trim_start_clean (s : string) : starts_clean (trim_start s).
Proof.
  induction s as [|c r IH]; cbn; [exact I|].
  destruct (is_space c) eqn:E; [exact IH | exact E].
Qed.

Lemma trim_start_fixed (t : string) : starts_clean t -> trim_start t = t.
Proof. destruct t as [|c r]; cbn; [reflexivity|]. intros ->. reflexivity. Qed.

Lemma trim_end_clean (t : string) : starts_clean t -> starts_clean (trim_end t).
Proof.
  destruct t as [|c r]; cbn; [auto|]. intros E.
  destruct (trim_end r); [rewrite E|]; exact E.
Qed.

Lemma trim_end_cons (c : ascii) (r : string) :
  trim_end (String c r) =
  match trim_end r with
  | EmptyString => if is_space c then EmptyString else String c EmptyString
  | String c' r' => String c (String c' r')
  end.
Proof. reflexivity. Qed.

Lemma trim_end_twice (s : string) : trim_end (trim_end s) = trim_end s.
Proof.
  induction s as [|c r IH]; [reflexivity|]. rewrite trim_end_cons.
  destruct (trim_end r) as [|c' r'] eqn:E.
  - destruct (is_space c) eqn:Ec; [reflexivity|].
    rewrite trim_end_cons. cbn [trim_end]. rewrite Ec. reflexivity.
  - rewrite trim_end_cons, IH. reflexivity.
Qed.

Lemma trim_fixed (s : string) :
  trim_start (trim s) = trim s /\ trim_end (trim s) = trim s /\
  trim (trim s) = trim s.
Proof.
  unfold trim.
  assert (H1 : trim_start (trim_end (trim_start s)) = trim_end (trim_start s)).
  { apply trim_start_fixed, trim_end_clean, trim_start_clean. }
  split; [exact H1|]. split; [apply trim_end_twice|].
  rewrite H1. apply trim_end_twice.
Qed.

Lemma string_length_app (a b : string) :
  String.length (a ++ b) = (String.length a + String.length b)%nat.
Proof. induction a as [|x a IH]; cbn; [reflexivity | rewrite IH; reflexivity]. Qed.

(** X27. A title set from a message is at most 33 characters long: the
    message itself when it has at most 30 characters, and otherwise its
    first 30 characters followed by three dots. *)
Theorem title_length_bounded (messageContent : string) :
  (String.length (truncated_title messageContent) <= 33)%nat /\
  String.length (truncated_title messageContent) =
    (if Nat.ltb 30 (String.length messageContent) then 33%nat
     else String.length messageContent) /\
  String.prefix (slice0 30 messageContent) (truncated_title messageContent) = true.
Proof.
  unfold truncated_title.
  assert (Hlen : String.length
            (slice0 30 messageContent ++
             (if Nat.ltb 30 (String.length messageContent) then "..." else ""))%string =
          if Nat.ltb 30 (String.length messageContent) then 33%nat
          else String.length messageContent).
  { rewrite string_length_app, slice0_length.
    destruct (Nat.ltb_spec 30 (String.length messageContent));
      cbn [String.length]; lia. }
  split; [|split; [exact Hlen | apply prefix_app]].
  rewrite Hlen. destruct (Nat.ltb_spec 30 (String.length messageContent)); lia.
Qed.

End TrimAndTitle.

(* ===================================================================== *)
(** * Runs on concrete inputs *)
(* ===================================================================== *)

Lemma select_all_selects_the_page_witness :
  selectedRows (handleSelectAll Inputs.rows_many true (Inputs.on_page 3))
    = [20; 21; 22; 23; 24] /\
  isSelected (handleSelectAll Inputs.rows_many true (Inputs.on_page 3)) 4 = true.
Proof.
  destruct (select_all_selects_the_page Inputs.rows_many (Inputs.on_page 3))
    as (Hsel & _ & Hrow & _).
  split; [rewrite Hsel; reflexivity | apply Hrow; vm_compute; split; [discriminate | reflexivity]].
Defined.

Lemma filter_idempotent_witness :
  In [("name", JStr "Bob"); ("note", JStr "Refund")] rows_hidden.
Proof.
  apply (filter_idempotent rows_hidden "ref"). vm_compute. left. reflexivity.
Defined.

Lemma details_panel_only_for_resolved_queries_witness :
  detailsVisible (reply "t" FetchRejects)
    (run (split_space "ok") [Tick; Tick] initial) = false /\
  detailsVisible
    (reply "t" (FetchResolves 200
       (Some (JObj [("success", JBool true); ("resolvable", JBool true);
                    ("query", JStr "SELECT 1")]))))
    (run (split_space "ok") [Tick; Tick] initial) = true.
Proof.
  destruct (details_panel_only_for_resolved_queries "t"
              (run (split_space "ok") [Tick; Tick] initial)) as (Hfail & Hobj).
  split; [apply Hfail; reflexivity|].
  rewrite Hobj; reflexivity.
Defined.

Lemma chart_and_table_only_for_resolved_results_witness :
  canShowTable
    (reply "t" (FetchResolves 200
       (Some (JObj [("success", JBool true); ("resolvable", JBool true);
                    ("result_type", JStr "table");
                    ("result", JArr [JObj [("a", JNum 1)]])]))))
    (run (split_space "ok") [Tick; Tick] initial) = true /\
  canShowChart
    (reply "t" (FetchResolves 200
       (Some (JObj [("success", JBool false); ("result_type", JStr "chart");
                    ("chart_data", JObj [("data", JArr [])])]))))
    (run (split_space "ok") [Tick; Tick] initial) = false.
Proof.
  destruct (chart_and_table_only_for_resolved_results "t"
              (run (split_space "ok") [Tick; Tick] initial)) as (_ & Hobj).
  split.
  - destruct (Hobj 200
      [("success", JBool true); ("resolvable", JBool true);
       ("result_type", JStr "table"); ("result", JArr [JObj [("a", JNum 1)]])]
      eq_refl) as (_ & Ht).
    rewrite Ht. reflexivity.
  - destruct (Hobj 200
      [("success", JBool false); ("result_type", JStr "chart");
       ("chart_data", JObj [("data", JArr [])])]
      eq_refl) as (Hc & _).
    rewrite Hc. reflexivity.
Defined.

Lemma plotly_chart_never_throws_witness :
  PlotlyChart.Chart (JObj [("data", JArr [JNum 1]); ("layout", JObj [])]) =
    Normal (PlotlyChart.Plot (JArr [JNum 1]) (Some (JObj [])) None) /\
  PlotlyChart.Chart (JObj [("layout", JObj [])]) = Normal PlotlyChart.NoChartData.
Proof.
  destruct (plotly_chart_never_throws
              (JObj [("data", JArr [JNum 1]); ("layout", JObj [])])) as (_ & Hplot & _).
  destruct (plotly_chart_never_throws (JObj [("layout", JObj [])])) as (_ & _ & Hnone).
  split.
  - apply Hplot. eexists. repeat split.
  - apply Hnone. intros o E. injection E as <-. reflexivity.
Defined.

Lemma chartjs_chart_behaviour_witness :
  ChartJsChart.Chart
    (Some (JObj [("type", JStr "LINE"); ("data", JObj []); ("options", JObj []);
                 ("layout", JObj [])])) None
    = Normal (ChartJsChart.ChartJs ChartJsChart.Line (JObj []) (JObj [])) /\
  ChartJsChart.Chart
    (Some (JObj [("type", JNum 5); ("data", JObj []); ("options", JObj [])])) None
    = Throw TypeError.
Proof.
  destruct (chartjs_chart_behaviour
              (Some (JObj [("type", JStr "LINE"); ("data", JObj []);
                           ("options", JObj []); ("layout", JObj [])])) None)
    as (_ & _ & _ & Hkind & _).
  destruct (chartjs_chart_behaviour
              (Some (JObj [("type", JNum 5); ("data", JObj []); ("options", JObj [])]))
              None)
    as (_ & _ & Hthrow & _).
  split.
  - rewrite (Hkind _ "LINE" (JObj []) (JObj []) eq_refl eq_refl); try reflexivity.
    discriminate.
  - apply Hthrow. split; [reflexivity|].
    eexists. exists (JNum 5). repeat split. discriminate.
Defined.

Lemma legacy_normalisation_witness :
  exists m,
    Legacy.build_aiMessage "t"
      (JObj [("success", JBool false); ("resolvable", JBool true);
             ("result", JObj [("type", JStr "text"); ("value", JStr "42")]);
             ("message", JStr "Here you go")]) = Normal m /\
    Legacy.result_type m = Some "text" /\
    Legacy.text_value m = Some (JStr "42").
Proof.
  destruct (legacy_normalisation "t"
              [("resolvable", JBool true);
               ("result", JObj [("type", JStr "text"); ("value", JStr "42")]);
               ("message", JStr "Here you go")])
    as (m & Hb & _ & _ & Ht & Hv & Hs).
  exists m. rewrite (Hs (JBool false)). split; [exact Hb|]. split; [exact Ht|].
  cbv in Hb. injection Hb as <-. reflexivity.
Defined.

(* ===================================================================== *)
(** * Sorting under a consistent comparator *)
(* ===================================================================== *)

Section ConsistentOrder.

Variable k : string.

Lemma string_case_flip (d : Direction) (s t : string) :
  (if str_ltb t s then if Direction_eqb d asc then -1 else 1
   else if str_ltb s t then if Direction_eqb d asc then 1 else -1 else 0)
  = - (if str_ltb s t then if Direction_eqb d asc then -1 else 1
       else if str_ltb t s then if Direction_eqb d asc then 1 else -1 else 0).
Proof.
  destruct (str_ltb s t) eqn:E1.
  - rewrite (str_ltb_asym _ _ E1). destruct (Direction_eqb d asc); reflexivity.
  - destruct (str_ltb t s); destruct (Direction_eqb d asc); reflexivity.
Qed.

Lemma compareRows_flip (d : Direction) (a b : Row) :
  compareRows k d b a = - compareRows k d a b.
Proof.
  unfold compareRows.
  destruct (nullish (assoc k a)) eqn:Na, (nullish (assoc k b)) eqn:Nb;
    cbn [andb]; try (destruct (Direction_eqb d asc); reflexivity).
  destruct (assoc k a) as [[]|], (assoc k b) as [[]|];
    try discriminate Na; try discriminate Nb; try apply string_case_flip.
  destruct (Direction_eqb d asc); lia.
Qed.

Lemma compareRows_desc_swap (a b : Row) :
  compareRows k desc a b = compareRows k asc b a.
Proof.
  assert (Hs : forall s t,
             (if str_ltb s t then 1 else if str_ltb t s then -1 else 0)
             = (if str_ltb t s then -1 else if str_ltb s t then 1 else 0)).
  { intros s t. destruct (str_ltb s t) eqn:E1; [|reflexivity].
    rewrite (str_ltb_asym _ _ E1). reflexivity. }
  unfold compareRows.
  destruct (nullish (assoc k a)) eqn:Na, (nullish (assoc k b)) eqn:Nb;
    cbn [andb Direction_eqb]; try reflexivity.
  destruct (assoc k a) as [[]|], (assoc k b) as [[]|];
    try discriminate Na; try discriminate Nb; try apply Hs.
  reflexivity.
Qed.

Lemma transitive_onb_spec (rows : list Row) :
  transitive_onb k rows = true <->
  (forall a b c, In a rows -> In b rows -> In c rows ->
     compareRows k asc a b <= 0 -> compareRows k asc b c <= 0 ->
     compareRows k asc a c <= 0).
Proof.
  unfold transitive_onb. split.
  - intros H a b c Ha Hb Hc H1 H2.
    rewrite forallb_forall in H. specialize (H a Ha).
    rewrite forallb_forall in H. specialize (H b Hb).
    rewrite forallb_forall in H. specialize (H c Hc).
    apply Z.leb_le in H1. apply Z.leb_le in H2. rewrite H1, H2 in H.
    cbn in H. apply Z.leb_le. exact H.
  - intros H. apply forallb_forall. intros a Ha.
    apply forallb_forall. intros b Hb. apply forallb_forall. intros c Hc.
    destruct (compareRows k asc a b <=? 0) eqn:E1; [|reflexivity].
    destruct (compareRows k asc b c <=? 0) eqn:E2; [|reflexivity].
    cbn. apply Z.leb_le. apply Z.leb_le in E1. apply Z.leb_le in E2.
    apply (H a b c); assumption.
Qed.

(** Under the side condition the result is ordered by the comparator,
    in either direction: it is the sorted order the language asks for. *)
Lemma sort_ordered_by_comparator (d : Direction) (rows : list Row) :
  transitive_onb k rows = true ->
  StronglySorted (fun a b => compareRows k d a b <= 0)
                 (sort (compareRows k d) rows).
Proof.
  intros Ht. pose proof (proj1 (transitive_onb_spec rows) Ht) as Htrans.
  apply (sort_ordered (compareRows k d) (fun r => In r rows)
           (fun a b => compareRows k d a b <= 0)).
  - intros a b _ _. reflexivity.
  - intros a b _ _. rewrite (compareRows_flip d a b). lia.
  - intros a b c Ha Hb Hc H1 H2. destruct d.
    + apply (Htrans a b c); assumption.
    + rewrite compareRows_desc_swap in *. apply (Htrans c b a); assumption.
  - apply Forall_forall. auto.
Qed.

Lemma numeric_not_missing (a : Row) : numeric k a = true -> missing k a = false.
Proof.
  unfold numeric, missing. destruct (assoc k a) as [[]|]; try discriminate.
  reflexivity.
Qed.

Lemma textual_not_missing (a : Row) : textual k a = true -> missing k a = false.
Proof.
  unfold textual, missing. destruct (assoc k a) as [[]|]; try discriminate;
    reflexivity.
Qed.

Lemma text_order_le (s t : string) :
  (if str_ltb s t then -1 else if str_ltb t s then 1 else 0) <= 0 <-> str_le s t.
Proof.
  unfold str_le. destruct (str_ltb s t) eqn:E1.
  - rewrite (str_ltb_asym _ _ E1). split; [reflexivity | lia].
  - destruct (str_ltb t s); split; try congruence; lia.
Qed.

(** The side condition holds of a column whose values, where present,
    are all numbers. *)
Lemma numeric_column_transitive (rows : list Row) :
  Forall (fun r => (missing k r || numeric k r)%bool = true) rows ->
  transitive_onb k rows = true.
Proof.
  intros Hall. apply transitive_onb_spec. rewrite Forall_forall in Hall.
  assert (Hc : forall a b, In a rows -> In b rows ->
            compareRows k asc a b =
            if missing k a then (if missing k b then 0 else 1)
            else if missing k b then -1 else num_at k a - num_at k b).
  { intros a b Ha Hb. specialize (Hall a Ha) as Ha'. specialize (Hall b Hb) as Hb'.
    destruct (missing k a) eqn:Ma, (missing k b) eqn:Mb; cbn [orb] in *.
    - apply compareRows_both_missing; assumption.
    - rewrite compareRows_left_missing by assumption. reflexivity.
    - rewrite compareRows_right_missing by assumption. reflexivity.
    - rewrite compareRows_numeric by assumption. reflexivity. }
  intros a b c Ha Hb Hcc. rewrite !Hc by assumption.
  destruct (missing k a), (missing k b), (missing k c); lia.
Qed.

(** And of a column whose values, where present, are none of them
    numbers. *)
Lemma textual_column_transitive (rows : list Row) :
  Forall (fun r => (missing k r || textual k r)%bool = true) rows ->
  transitive_onb k rows = true.
Proof.
  intros Hall. apply transitive_onb_spec. rewrite Forall_forall in Hall.
  assert (Hc : forall a b, In a rows -> In b rows ->
            compareRows k asc a b =
            if missing k a then (if missing k b then 0 else 1)
            else if missing k b then -1
                 else if str_ltb (text_at k a) (text_at k b) then -1
                      else if str_ltb (text_at k b) (text_at k a) then 1 else 0).
  { intros a b Ha Hb. specialize (Hall a Ha) as Ha'. specialize (Hall b Hb) as Hb'.
    destruct (missing k a) eqn:Ma, (missing k b) eqn:Mb; cbn [orb] in *.
    - apply compareRows_both_missing; assumption.
    - rewrite compareRows_left_missing by assumption. reflexivity.
    - rewrite compareRows_right_missing by assumption. reflexivity.
    - rewrite compareRows_textual by assumption. reflexivity. }
  intros a b c Ha Hb Hcc. rewrite !Hc by assumption.
  destruct (missing k a), (missing k b), (missing k c); try lia.
  rewrite !text_order_le. apply str_le_trans.
Qed.

(** C2 (as amended). Where the comparator is transitive on the rows (as
    it is on a column whose values, where present, are all numbers, or
    are none of them numbers), sorting by the column puts the rows
    whose value is [null] or absent, in their original order, after all
    rows with a value when the direction is ascending and before all of
    them when it is descending, and the result is a permutation of the
    rows ordered by the comparator.  The last two parts say of any
    sequence the comparator accepts as ordered that its missing rows
    come last, or first. *)
Theorem C2_missing_last_ascending_first_descending (rows : list Row) :
  k <> "" ->
  transitive_onb k rows = true ->
  sortedData rows (sort_by k asc) =
    sortedData (filter (fun r => negb (missing k r)) rows) (sort_by k asc)
      ++ filter (missing k) rows /\
  sortedData rows (sort_by k desc) =
    filter (missing k) rows
      ++ sortedData (filter (fun r => negb (missing k r)) rows) (sort_by k desc) /\
  (forall d, Forall (fun r => missing k r = false)
               (sortedData (filter (fun r => negb (missing k r)) rows) (sort_by k d))) /\
  Forall (fun r => missing k r = true) (filter (missing k) rows) /\
  (forall d, Permutation rows (sortedData rows (sort_by k d)) /\
             StronglySorted (fun a b => compareRows k d a b <= 0)
               (sortedData rows (sort_by k d))) /\
  (forall l1 a l2,
     StronglySorted (fun x y => compareRows k asc x y <= 0) (l1 ++ a :: l2) ->
     missing k a = true -> Forall (fun r => missing k r = true) l2) /\
  (forall l1 a l2,
     StronglySorted (fun x y => compareRows k desc x y <= 0) (l1 ++ a :: l2) ->
     missing k a = true -> Forall (fun r => missing k r = true) l1).
Proof.
  intros Hk Ht. rewrite !sortedData_sort_by by exact Hk.
  split; [apply sort_asc_split|]. split; [apply sort_desc_split|].
  split; [|split; [apply filter_missing_all|split; [|split]]].
  - intros d. rewrite sortedData_sort_by by exact Hk.
    apply sort_Forall, filter_defined_all.
  - intros d. rewrite sortedData_sort_by by exact Hk.
    split; [apply sort_perm | apply sort_ordered_by_comparator; exact Ht].
  - intros l1 a l2. apply ordered_asc_missing_last.
  - intros l1 a l2. apply ordered_desc_missing_first.
Qed.

(** X12. Where the comparator is transitive on the rows the sort is
    stable: rows that compare equal, in particular rows that carry the
    same value in the sort column, keep the order they had in the
    table, in either direction; and the result is ordered by the
    comparator. *)
Theorem sort_is_stable (d : Direction) (rows : list Row) (p : Row -> bool) :
  transitive_onb k rows = true ->
  (forall a b, p a = true -> p b = true ->
     compareRows k d a b = 0 \/ assoc k a = assoc k b) ->
  filter p (sortedData rows (sort_by k d)) = filter p rows /\
  StronglySorted (fun a b => compareRows k d a b <= 0)
    (sort (compareRows k d) rows).
Proof.
  intros Ht Hsame. split; [|apply sort_ordered_by_comparator; exact Ht].
  unfold sortedData, sort_by. cbn [key direction].
  destruct (String.eqb k ""); [reflexivity|].
  apply filter_sort. intros x y Hx Hy.
  destruct (Hsame x y Hx Hy) as [H|H];
    [|apply compareRows_same_value with (d := d) in H]; lia.
Qed.

End ConsistentOrder.

(** On a column that mixes numbers and strings the comparator can be
    cyclic (9 before 10 before "5" before 9); the side condition rules
    such a column out. *)
Example mixed_column_is_not_transitive :
  transitive_onb "k" rows_mixed = false /\
  compareRows "k" asc [("k", JNum 9)] [("k", JNum 10)] < 0 /\
  compareRows "k" asc [("k", JNum 10)] [("k", JStr "5")] < 0 /\
  compareRows "k" asc [("k", JStr "5")] [("k", JNum 9)] < 0.
Proof. repeat split. Qed.

Lemma C2_witness :
  sortedData rows_with_null (sort_by "a" asc) =
    sortedData [[("a", JNum 1); ("b", JStr "x")]] (sort_by "a" asc)
      ++ [[("a", JNull); ("b", JStr "y")]].
Proof.
  apply (C2_missing_last_ascending_first_descending "a" rows_with_null).
  - discriminate.
  - reflexivity.
Defined.

Lemma sort_is_stable_witness :
  filter is_bob (sortedData rows_names (sort_by "name" asc)) =
  [[("name", JStr "bob"); ("i", JNum 1)]; [("name", JStr "BOB"); ("i", JNum 4)]].
Proof.
  destruct (sort_is_stable "name" asc rows_names is_bob) as [Hstable _].
  - reflexivity.
  - intros a b Ha Hb. left. unfold is_bob in *.
    apply andb_true_iff in Ha. destruct Ha as [Ta Ea].
    apply andb_true_iff in Hb. destruct Hb as [Tb Eb].
    apply String.eqb_eq in Ea. apply String.eqb_eq in Eb.
    rewrite compareRows_textual by assumption. rewrite Ea, Eb. reflexivity.
  - rewrite Hstable. reflexivity.
Defined.

(* ===================================================================== *)
(** * The chat on display, and the question stored *)
(* ===================================================================== *)

Section ListedChat.

Lemma page_step_listed (st : State) (ev : PageEvent) :
  deliverable_event st ev = true -> listed st -> listed (page_step st ev).
Proof.
  intros Hd Hl. destruct ev as [value|t0 t1 o during|e]; cbn [page_step].
  - exact Hl.
  - unfold handleSubmit.
    destruct (String.eqb (trim (input st)) "" || isLoading st)%bool; [exact Hl|].
    unfold handleSendMessage.
    destruct (String.eqb (currentChatId st) ""); [exact Hl|].
    cbn in Hd.
    exact (send_after_listed t1 (currentChatId st) o _
             (ui_fold_listed during _ Hd (send_before_listed t0 _ st Hl))).
  - apply ui_step_listed; assumption.
Qed.

(** X25. From the mounted page, or from any state whose chat on display
    is a listed one and whose chats all have an id, and as long as the
    sidebar only opens chats under a non-empty id and only selects
    listed chats (also while a request is outstanding), the chat on
    display is always a listed one and its id is never empty, so a
    submission always has a thread to land in. *)
Theorem current_chat_always_exists (evs : list PageEvent) (st : State) :
  listed st ->
  deliverable_run st evs = true ->
  listed mounted /\
  listed (fold_left page_step evs st) /\
  currentChatId (fold_left page_step evs st) <> "" /\
  exists c,
    find_chat (currentChatId (fold_left page_step evs st))
      (chatHistory (fold_left page_step evs st)) = Some c.
Proof.
  intros Hl Hd. split; [split; reflexivity|].
  assert (Hw : listed (fold_left page_step evs st)).
  { revert st Hl Hd. induction evs as [|ev rest IH]; intros st Hl Hd; [exact Hl|].
    cbn in Hd. apply andb_true_iff in Hd. destruct Hd as [He Hrest].
    cbn [fold_left]. apply IH; [apply page_step_listed; assumption | exact Hrest]. }
  split; [exact Hw|]. destruct Hw as (H1 & H2).
  destruct (has_chat_find _ _ H1) as [c Hc]. split; [|exists c; exact Hc].
  destruct (find_chat_id _ _ _ Hc) as [Hid Hin].
  rewrite forallb_forall in H2. specialize (H2 c Hin).
  apply negb_true_iff, String.eqb_neq in H2. congruence.
Qed.

Lemma trim_start_split (s : string) :
  exists pre, s = (pre ++ trim_start s)%string /\ all_space pre = true.
Proof.
  induction s as [|c r IH].
  - exists "". split; reflexivity.
  - cbn [trim_start]. destruct (is_space c) eqn:E.
    + destruct IH as (pre & Hr & Hp). exists (String c pre). split.
      * cbn. rewrite <- Hr. reflexivity.
      * cbn. rewrite E, Hp. reflexivity.
    + exists "". split; reflexivity.
Qed.

Lemma trim_end_split (s : string) :
  exists post, s = (trim_end s ++ post)%string /\ all_space post = true.
Proof.
  induction s as [|c r IH].
  - exists "". split; reflexivity.
  - destruct IH as (post & Hr & Hp). rewrite trim_end_cons.
    destruct (trim_end r) as [|c' r'] eqn:E.
    + cbn in Hr. subst post. destruct (is_space c) eqn:Ec.
      * exists (String c r). split; [reflexivity|]. cbn. rewrite Ec, Hp. reflexivity.
      * exists r. split; [reflexivity | exact Hp].
    + exists post. split; [|exact Hp]. cbn. cbn in Hr. rewrite <- Hr. reflexivity.
Qed.

(** X26. The question stored in the thread is [input.trim()]: the input
    is some white space, the stored text, and some white space again,
    and the stored text neither starts nor ends with white space (and
    is not empty, the submission being accepted); the input box is
    cleared. *)
Theorem stored_question_is_trimmed (t0 t1 : string) (o : FetchOutcome)
  (during : list UiEvent) (st : State) (c : Chat) :
  trim (input st) <> "" ->
  isLoading st = false ->
  currentChatId st <> "" ->
  find_chat (currentChatId st) (chatHistory st) = Some c ->
  fresh_ids (currentChatId st) during = true ->
  find_chat (currentChatId st) (chatHistory (handleSubmit t0 t1 o during st)) =
    Some {| id := id c;
            title := if Nat.eqb (List.length (messages c)) 0
                     then truncated_title (trim (input st)) else title c;
            messages := messages c ++
                        [User (trim (input st)) t0; Assistant (reply t1 o)] |} /\
  (exists pre post,
     input st = (pre ++ trim (input st) ++ post)%string /\
     all_space pre = true /\ all_space post = true) /\
  trim_start (trim (input st)) = trim (input st) /\
  trim_end (trim (input st)) = trim (input st) /\
  input (handleSubmit t0 t1 o during st) = "".
Proof.
  intros Hin Hload Hcur Hfind Hfresh.
  destruct (handleSubmit_accepted t0 t1 o during st Hin Hload) as (Hh & _ & Hi).
  rewrite Hh, Hi.
  rewrite (handleSendMessage_thread t0 t1 _ o during st c Hcur Hfind Hfresh).
  destruct (trim_fixed (input st)) as (Hs & He & _).
  split; [reflexivity|]. split; [|repeat split; assumption].
  destruct (trim_start_split (input st)) as (pre & Hpre & Hp).
  destruct (trim_end_split (trim_start (input st))) as (post & Hpost & Hq).
  exists pre, post. unfold trim. split; [|split; assumption].
  rewrite <- Hpost. exact Hpre.
Qed.

End ListedChat.

Lemma current_chat_always_exists_witness :
  currentChatId
    (fold_left page_step
       [TypeInput "total sales?";
        PressSend "t0" "t1" FetchRejects [NewChat "1700000000000"; SelectChat "1"];
        Sidebar (SelectChat "1700000000000")]
       mounted) <> "".
Proof.
  apply (current_chat_always_exists
           [TypeInput "total sales?";
            PressSend "t0" "t1" FetchRejects [NewChat "1700000000000"; SelectChat "1"];
            Sidebar (SelectChat "1700000000000")] mounted).
  - split; reflexivity.
  - reflexivity.
Defined.

Lemma stored_question_is_trimmed_witness :
  find_chat "1" (chatHistory (handleSubmit "t0" "t1" FetchRejects [] st_typed)) =
    Some {| id := "1"; title := "total sales?";
            messages := [User "total sales?" "t0"; Assistant (errorMessage "t1")] |} /\
  exists pre post,
    " total sales? " = (pre ++ "total sales?" ++ post)%string /\
    all_space pre = true /\ all_space post = true.
Proof.
  destruct (stored_question_is_trimmed "t0" "t1" FetchRejects [] st_typed
              {| id := "1"; title := "DataWare Assistant"; messages := [] |})
    as (Hf & Hsplit & _).
  - vm_compute. discriminate.
  - reflexivity.
  - cbn. discriminate.
  - reflexivity.
  - reflexivity.
  - split; [exact Hf | exact Hsplit].
Defined.
